(** * Voice ordering: validator, conversation engine and submission client

    A shallow embedding of [lib/orderValidator.ts], [lib/conversationEngine.ts],
    [lib/orderSubmissionClient.ts] and [lib/menuClient.ts] and of the order,
    conversation and menu routes, with the properties of the ordering core
    stated and proved over it.

    Conventions of the embedding.
    - A JavaScript [number] that carries money or a quantity is an IEEE 754
      binary64 value: Rocq's primitive [float], whose [+], [*] and [/] round
      to nearest-even exactly as the JavaScript operators do.
    - A [number] that the data model declares to be a count (selection
      bounds, array lengths, HTTP status, retry counters, delays in
      milliseconds) is an integer.
    - Strings are texts of ASCII characters (character codes below 128), on
      which [toLowerCase], [trim], [\b], [\s] and [\d] are the ASCII ones; a
      property that rests on what these compute takes [asciiText] of its
      texts as a hypothesis.
    - A parsed JSON body is [null] or a value that is not, seen through the
      fields the code reads from it.
    - [Map] and the object literal used as a dictionary are finite maps
      ([gmap]) keyed by strings.
    - Every reading of the wall clock ([Date.now()], [new Date()]) is an
      explicit argument of the function that takes it.
    - The external services (menu source, reply generator, fulfillment
      endpoint) are arguments carrying what the call answered. *)

From Stdlib Require Import ZArith NArith List String Ascii Bool Lia.
From Stdlib Require Import DecimalString.
From Stdlib Require Import PrimFloat SpecFloat FloatOps.
From Stdlib Require FloatAxioms.
From stdpp Require Import base option gmap strings list fin_maps.

Set Warnings "-inexact-float".

Local Open Scope Z_scope.

(** ** JavaScript numbers *)

Module JS.

(** [x.toFixed(2)] picks the integer [n] for which [n / 100 - x] is as
    close to zero as possible, the larger one on a tie.  For the magnitude
    [m * 2^e] this is that [n]. *)
Definition toFixed2_digits (m : positive) (e : Z) : Z :=
  if 0 <=? e then 100 * Z.pos m * 2 ^ e
  else (200 * Z.pos m + 2 ^ (- e)) / 2 ^ (- e + 1).

(** [Number(x.toFixed(2))]: the binary64 value nearest to [n / 100].
    - [NaN] prints as "NaN" and infinities as "Infinity": both read back
      as themselves;
    - both zeros print as "0.00";
    - from [1e21] on, [toFixed] falls back to [String(x)], which reads
      back as [x];
    - a negative [x] is printed with a minus sign in front of the digits
      of [-x], also when these are "0.00". *)
Definition round2 (x : float) : float :=
  match Prim2SF x with
  | S754_nan => nan
  | S754_infinity _ => x
  | S754_zero _ => zero
  | S754_finite s m e =>
      if andb (0 <=? e) (10 ^ 21 <=? Z.pos m * 2 ^ e) then x
      else match toFixed2_digits m e with
           | Z.pos n =>
               SF2Prim (SFdiv prec emax (S754_finite s n 0)
                                        (S754_finite false 100 0))
           | _ => if s then neg_zero else zero
           end
  end.

(** The binary64 value nearest to an integer (ties to even, overflow to
    infinity): what [Number] makes of a string of decimal digits and what
    a small integer literal denotes. *)
Definition ofZ (z : Z) : float :=
  SF2Prim (binary_normalize prec emax z 0 false).

Definition isFinite (x : float) : bool :=
  negb (orb (is_nan x) (is_infinity x)).

(** [Math.max(1, x)]. *)
Definition max1 (x : float) : float :=
  if is_nan x then nan else if PrimFloat.ltb 1 x then x else 1%float.

(** [x > 0]. *)
Definition gt0 (x : float) : bool := PrimFloat.ltb 0 x.

(** Truthiness of a number: neither a zero nor [NaN]. *)
Definition truthy (x : float) : bool := negb (orb (is_zero x) (is_nan x)).

(** [`${n}`] for an integer. *)
Definition showZ (z : Z) : string := NilZero.string_of_int (Z.to_int z).

End JS.

(** ** Strings *)

Module Str.

Definition chars (s : string) : list ascii := list_ascii_of_string s.
Definition ofChars (l : list ascii) : string := string_of_list_ascii l.

Definition isUpper (c : ascii) : bool :=
  let n := nat_of_ascii c in andb (65 <=? n)%nat (n <=? 90)%nat.
Definition isLower (c : ascii) : bool :=
  let n := nat_of_ascii c in andb (97 <=? n)%nat (n <=? 122)%nat.
Definition isDigit (c : ascii) : bool :=
  let n := nat_of_ascii c in andb (48 <=? n)%nat (n <=? 57)%nat.
(** [\s] *)
Definition isSpace (c : ascii) : bool :=
  let n := nat_of_ascii c in orb (n =? 32)%nat (andb (9 <=? n)%nat (n <=? 13)%nat).
(** [\w], the class behind [\b] *)
Definition isWord (c : ascii) : bool :=
  orb (orb (isUpper c) (isLower c)) (orb (isDigit c) (nat_of_ascii c =? 95)%nat).
(** [[a-z0-9]] *)
Definition isLowerAlnum (c : ascii) : bool := orb (isLower c) (isDigit c).

Definition lowerChar (c : ascii) : ascii :=
  if isUpper c then ascii_of_nat (nat_of_ascii c + 32) else c.

(** [s.toLowerCase()] on a text of ASCII characters, where it changes the
    letters [A-Z] and nothing else.  Texts are sequences of character codes
    below 128 throughout; the properties that rest on what this function
    returns say so in a hypothesis. *)
Definition toLowerCase (s : string) : string :=
  ofChars (List.map lowerChar (chars s)).

Fixpoint prefixb (p s : list ascii) : bool :=
  match p, s with
  | [], _ => true
  | a :: p', b :: s' => andb (Ascii.eqb a b) (prefixb p' s')
  | _ :: _, [] => false
  end.

Fixpoint includesChars (s p : list ascii) : bool :=
  orb (prefixb p s)
      match s with
      | [] => false
      | _ :: s' => includesChars s' p
      end.

(** [s.includes(p)] *)
Definition includes (s p : string) : bool := includesChars (chars s) (chars p).

(** [s.split(/[^a-z0-9]+/).filter(Boolean)]: the maximal runs of
    characters of [[a-z0-9]], in order.  [cur] is the run being read, in
    reverse. *)
Fixpoint tokensFrom (cur : list ascii) (s : list ascii) : list string :=
  match s with
  | [] => match cur with [] => [] | _ => [ofChars (rev cur)] end
  | c :: s' =>
      if isLowerAlnum c then tokensFrom (c :: cur) s'
      else match cur with
           | [] => tokensFrom [] s'
           | _ => ofChars (rev cur) :: tokensFrom [] s'
           end
  end.

Definition tokens (s : string) : list string := tokensFrom [] (chars s).

(** [parts.join(sep)] *)
Fixpoint join (sep : string) (parts : list string) : string :=
  match parts with
  | [] => ""
  | [p] => p
  | p :: rest => p +:+ sep +:+ join sep rest
  end.

(** [/^\d+$/.test(s)] *)
Definition allDigits (s : string) : bool :=
  match chars s with
  | [] => false
  | l => forallb isDigit l
  end.

(** The value of a string of decimal digits. *)
Definition digitsValue (s : string) : Z :=
  fold_left (fun acc c => 10 * acc + (Z.of_nat (nat_of_ascii c) - 48)) (chars s) 0.

End Str.

(** ** Regular expressions

  The fragment of JavaScript regular expressions that the engine's
  patterns are written in, with the backtracking semantics of
  [RegExp.prototype.exec]: alternatives are tried left to right, [*] is
  greedy, and the first way of matching that lets the rest of the pattern
  succeed wins. *)

Module Regex.

Inductive t : Type :=
| Eps                          (* the empty pattern *)
| Chr (p : ascii -> bool)      (* one character of a class *)
| Seq (a b : t)                (* ab *)
| Alt (a b : t)                (* a|b *)
| Star (p : ascii -> bool)     (* c*, greedy, over a one-character class *)
| WordB                        (* \b *)
| Group (a : t).               (* the capture group of the pattern *)

Definition Plus (p : ascii -> bool) : t := Seq (Chr p) (Star p).
Definition Opt (a : t) : t := Alt a Eps.

Definition LitChars (cs : list ascii) : t :=
  fold_right (fun c r => Seq (Chr (Ascii.eqb c)) r) Eps cs.
Definition Lit (s : string) : t := LitChars (Str.chars s).
(** A literal under the [i] flag. *)
Definition LitI (s : string) : t :=
  fold_right (fun c r => Seq (Chr (fun d => Ascii.eqb (Str.lowerChar d) (Str.lowerChar c))) r)
             Eps (Str.chars s).

Definition Alts (rs : list t) : t :=
  match rs with
  | [] => Eps
  | r :: rest => fold_left Alt rest r
  end.

Definition wordBefore (prev : option ascii) : bool :=
  match prev with Some c => Str.isWord c | None => false end.
Definition wordAfter (s : list ascii) : bool :=
  match s with c :: _ => Str.isWord c | [] => false end.

(** The matcher's continuation receives the character before the current
    position, the rest of the input and the capture so far. *)
Definition cont : Type :=
  option ascii -> list ascii -> option string -> option (option string).

Fixpoint star (p : ascii -> bool) (prev : option ascii) (s : list ascii)
         (cap : option string) (k : cont) : option (option string) :=
  match s with
  | c :: s' =>
      if p c then
        match star p (Some c) s' cap k with
        | Some r => Some r
        | None => k prev s cap
        end
      else k prev s cap
  | [] => k prev s cap
  end.

Fixpoint run (r : t) (prev : option ascii) (s : list ascii)
         (cap : option string) (k : cont) : option (option string) :=
  match r with
  | Eps => k prev s cap
  | Chr p =>
      match s with
      | c :: s' => if p c then k (Some c) s' cap else None
      | [] => None
      end
  | Seq a b => run a prev s cap (fun prev' s' cap' => run b prev' s' cap' k)
  | Alt a b =>
      match run a prev s cap k with
      | Some res => Some res
      | None => run b prev s cap k
      end
  | Star p => star p prev s cap k
  | WordB => if xorb (wordBefore prev) (wordAfter s) then k prev s cap else None
  | Group a =>
      run a prev s cap
          (fun prev' s' _ =>
             k prev' s' (Some (Str.ofChars (firstn (length s - length s') s))))
  end.

(** The leftmost match: [None] when the pattern matches nowhere,
    otherwise the capture ([None] when the group took no part). *)
Fixpoint searchFrom (r : t) (prev : option ascii) (s : list ascii)
  : option (option string) :=
  match run r prev s None (fun _ _ cap => Some cap) with
  | Some cap => Some cap
  | None =>
      match s with
      | [] => None
      | c :: s' => searchFrom r (Some c) s'
      end
  end.

(** [text.match(r)] *)
Definition exec (r : t) (text : string) : option (option string) :=
  searchFrom r None (Str.chars text).

(** [r.test(text)] *)
Definition test (r : t) (text : string) : bool :=
  match exec r text with Some _ => true | None => false end.

(** [text.match(r)?.[1]] *)
Definition capture1 (r : t) (text : string) : option string :=
  match exec r text with Some cap => cap | None => None end.

End Regex.

(** ** Domain types ([lib/types.ts]) *)

Module ModifierOption.
Record t : Type := mk {
  id : string;
  name : string;
  priceAdjustment : float;
  isAvailable : bool
}.
End ModifierOption.

Module ModifierGroup.
Record t : Type := mk {
  id : string;
  name : string;
  minSelection : Z;
  maxSelection : Z;
  options : list ModifierOption.t
}.
End ModifierGroup.

Module MenuItem.
Record t : Type := mk {
  id : string;
  name : string;
  description : string;
  basePrice : float;
  category : string;
  imageUrl : option string;
  isAvailable : bool;
  modifierGroups : list ModifierGroup.t
}.
End MenuItem.

(** An element of [OrderItem.selectedModifiers]. *)
Module SelectedModifier.
Record t : Type := mk {
  groupId : string;
  optionId : string;
  name : string;
  priceAdjustment : float
}.
End SelectedModifier.

Module OrderItem.
Record t : Type := mk {
  id : string;
  menuItemId : string;
  name : string;
  quantity : float;
  unitPrice : float;
  selectedModifiers : list SelectedModifier.t;
  specialInstructions : option string
}.
End OrderItem.

Inductive OrderStatus : Type :=
| pending | confirmed | preparing | ready | completed | cancelled.

Module Order.
Record t : Type := mk {
  id : string;
  customerId : option string;
  items : list OrderItem.t;
  subtotal : float;
  tax : float;
  total : float;
  status : OrderStatus;
  createdAt : string;
  updatedAt : string
}.
End Order.

Inductive SenderRole : Type := user | assistant | system.

(** The two keys the engine writes into a turn's [metadata]. *)
Module Metadata.
Record t : Type := mk {
  itemAdded : option string;
  orderStatusChanged : option OrderStatus
}.
End Metadata.

Module ConversationTurn.
Record t : Type := mk {
  id : string;
  role : SenderRole;
  content : string;
  timestamp : string;
  metadata : option Metadata.t
}.
End ConversationTurn.

Module ConversationState.
Record t : Type := mk {
  conversationId : string;
  history : list ConversationTurn.t;
  currentOrder : Order.t;
  lastUpdated : string
}.
End ConversationState.

(** ** The validator ([lib/orderValidator.ts]) *)

Inductive ErrorCode : Type :=
| ITEM_NOT_FOUND | ITEM_UNAVAILABLE | MODIFIER_REQUIRED | MODIFIER_INVALID
| PRICE_MISMATCH.

(** The two shapes of [details] the validator writes. *)
Inductive Details : Type :=
| DetailsRequired (groupId : string) (required provided : Z)
| DetailsMax (groupId : string) (max provided : Z).

Module ValidationError.
Record t : Type := mk {
  code : ErrorCode;
  message : string;
  itemId : option string;
  menuItemId : option string;
  details : option Details
}.
End ValidationError.

Module ValidationResult.
Record t : Type := mk {
  isValid : bool;
  errors : list ValidationError.t;
  validatedOrder : Order.t
}.
End ValidationResult.

(** [details.groupId] *)
Definition Details_groupId (d : Details) : string :=
  match d with
  | DetailsRequired g _ _ => g
  | DetailsMax g _ _ => g
  end.

(** [TAX_RATE] of step 4. *)
Definition TAX_RATE : float := 0.08%float.

(** [menu.find(m => m.id === id)] *)
Definition findMenuItem (menu : list MenuItem.t) (id : string) : option MenuItem.t :=
  List.find (fun m => String.eqb (MenuItem.id m) id) menu.

(** [group.options.find(o => o.id === optionId)] *)
Definition findOption (group : ModifierGroup.t) (optionId : string)
  : option ModifierOption.t :=
  List.find (fun o => String.eqb (ModifierOption.id o) optionId)
            (ModifierGroup.options group).

(** The pre-processing loop over [item.selectedModifiers]: each selection's
    option id is pushed onto the array stored under its group id. *)
Definition userSelectionsByGroup (mods : list SelectedModifier.t)
  : gmap string (list string) :=
  fold_left
    (fun (m : gmap string (list string)) (modifier : SelectedModifier.t) =>
       let existing := default [] (m !! SelectedModifier.groupId modifier) in
       <[SelectedModifier.groupId modifier :=
           existing ++ [SelectedModifier.optionId modifier]]> m)
    mods ∅.

(** The variables a line's validation writes: the shared [errors] array and
    the line's [currentUnitPrice] and [validatedModifiers]. *)
Module LineState.
Record t : Type := mk {
  errors : list ValidationError.t;
  currentUnitPrice : float;
  validatedModifiers : list SelectedModifier.t
}.
End LineState.

Definition pushError (e : ValidationError.t) (st : LineState.t) : LineState.t :=
  LineState.mk (LineState.errors st ++ [e])
               (LineState.currentUnitPrice st)
               (LineState.validatedModifiers st).

Definition errItemNotFound (item : OrderItem.t) : ValidationError.t :=
  ValidationError.mk ITEM_NOT_FOUND
    ("Menu item with ID '" +:+ OrderItem.menuItemId item +:+ "' not found.")
    (Some (OrderItem.id item)) (Some (OrderItem.menuItemId item)) None.

Definition errItemUnavailable (item : OrderItem.t) (menuDef : MenuItem.t)
  : ValidationError.t :=
  ValidationError.mk ITEM_UNAVAILABLE
    ("Item '" +:+ MenuItem.name menuDef +:+ "' is currently unavailable.")
    (Some (OrderItem.id item)) (Some (OrderItem.menuItemId item)) None.

Definition errModifierRequired (item : OrderItem.t) (group : ModifierGroup.t)
           (provided : Z) : ValidationError.t :=
  ValidationError.mk MODIFIER_REQUIRED
    ("Selection required for '" +:+ ModifierGroup.name group +:+ "'.")
    (Some (OrderItem.id item)) (Some (OrderItem.menuItemId item))
    (Some (DetailsRequired (ModifierGroup.id group)
                           (ModifierGroup.minSelection group) provided)).

Definition errTooMany (item : OrderItem.t) (group : ModifierGroup.t)
           (provided : Z) : ValidationError.t :=
  ValidationError.mk MODIFIER_INVALID
    ("Too many selections for '" +:+ ModifierGroup.name group
       +:+ "'. Max allowed: " +:+ JS.showZ (ModifierGroup.maxSelection group) +:+ ".")
    (Some (OrderItem.id item)) (Some (OrderItem.menuItemId item))
    (Some (DetailsMax (ModifierGroup.id group)
                      (ModifierGroup.maxSelection group) provided)).

Definition errInvalidOption (item : OrderItem.t) (group : ModifierGroup.t)
           (optionId : string) : ValidationError.t :=
  ValidationError.mk MODIFIER_INVALID
    ("Invalid option ID '" +:+ optionId +:+ "' for group '"
       +:+ ModifierGroup.name group +:+ "'.")
    (Some (OrderItem.id item)) (Some (OrderItem.menuItemId item)) None.

Definition errOptionUnavailable (item : OrderItem.t) (optionDef : ModifierOption.t)
  : ValidationError.t :=
  ValidationError.mk MODIFIER_INVALID
    ("Option '" +:+ ModifierOption.name optionDef +:+ "' is currently unavailable.")
    (Some (OrderItem.id item)) (Some (OrderItem.menuItemId item)) None.

(** Body of [for (const optionId of userSelectedOptionIds)]. *)
Definition optionStep (item : OrderItem.t) (group : ModifierGroup.t)
           (st : LineState.t) (optionId : string) : LineState.t :=
  match findOption group optionId with
  | None => pushError (errInvalidOption item group optionId) st
  | Some optionDef =>
      let st1 :=
        if ModifierOption.isAvailable optionDef then st
        else pushError (errOptionUnavailable item optionDef) st in
      LineState.mk
        (LineState.errors st1)
        (PrimFloat.add (LineState.currentUnitPrice st1)
                       (ModifierOption.priceAdjustment optionDef))
        (LineState.validatedModifiers st1
           ++ [SelectedModifier.mk (ModifierGroup.id group)
                                   (ModifierOption.id optionDef)
                                   (ModifierOption.name optionDef)
                                   (ModifierOption.priceAdjustment optionDef)])
  end.

(** Body of [for (const group of menuDef.modifierGroups)]. *)
Definition groupStep (item : OrderItem.t) (selections : gmap string (list string))
           (st : LineState.t) (group : ModifierGroup.t) : LineState.t :=
  let userSelectedOptionIds := default [] (selections !! ModifierGroup.id group) in
  let provided := Z.of_nat (length userSelectedOptionIds) in
  let st1 :=
    if provided <? ModifierGroup.minSelection group
    then pushError (errModifierRequired item group provided) st else st in
  let st2 :=
    if ModifierGroup.maxSelection group <? provided
    then pushError (errTooMany item group provided) st1 else st1 in
  fold_left (optionStep item group) userSelectedOptionIds st2.

(** The variables of the loop over [order.items]. *)
Module LoopState.
Record t : Type := mk {
  errors : list ValidationError.t;
  validatedItems : list OrderItem.t;
  calculatedSubtotal : float
}.
Definition init : t := mk [] [] 0%float.
End LoopState.

(** Steps 2 and 3 for a line whose menu item was found: the state the
    modifier loops leave, and the validated item built from it. *)
Definition validateModifiers (errors : list ValidationError.t)
           (item : OrderItem.t) (menuDef : MenuItem.t) : LineState.t :=
  fold_left (groupStep item (userSelectionsByGroup (OrderItem.selectedModifiers item)))
            (MenuItem.modifierGroups menuDef)
            (LineState.mk errors (MenuItem.basePrice menuDef) []).

Definition validatedItemOf (item : OrderItem.t) (menuDef : MenuItem.t)
           (ls : LineState.t) : OrderItem.t :=
  OrderItem.mk (OrderItem.id item) (OrderItem.menuItemId item)
               (MenuItem.name menuDef)
               (OrderItem.quantity item)
               (LineState.currentUnitPrice ls)
               (LineState.validatedModifiers ls)
               (OrderItem.specialInstructions item).

(** Body of [for (const item of order.items)]. *)
Definition itemStep (menu : list MenuItem.t) (st : LoopState.t) (item : OrderItem.t)
  : LoopState.t :=
  match findMenuItem menu (OrderItem.menuItemId item) with
  | None =>
      LoopState.mk (LoopState.errors st ++ [errItemNotFound item])
                   (LoopState.validatedItems st)
                   (LoopState.calculatedSubtotal st)
  | Some menuDef =>
      let errors1 :=
        if MenuItem.isAvailable menuDef then LoopState.errors st
        else LoopState.errors st ++ [errItemUnavailable item menuDef] in
      let ls := validateModifiers errors1 item menuDef in
      let validatedItem := validatedItemOf item menuDef ls in
      LoopState.mk
        (LineState.errors ls)
        (LoopState.validatedItems st ++ [validatedItem])
        (PrimFloat.add (LoopState.calculatedSubtotal st)
                       (PrimFloat.mul (OrderItem.unitPrice validatedItem)
                                      (OrderItem.quantity validatedItem)))
  end.

(** [validateOrder(order, menu)]; [now] is what [new Date().toISOString()]
    returns in step 5. *)
Definition validateOrder (now : string) (order : Order.t) (menu : list MenuItem.t)
  : ValidationResult.t :=
  let st := fold_left (itemStep menu) (Order.items order) LoopState.init in
  let calculatedSubtotal := LoopState.calculatedSubtotal st in
  let calculatedTax := PrimFloat.mul calculatedSubtotal TAX_RATE in
  let calculatedTotal := PrimFloat.add calculatedSubtotal calculatedTax in
  let validatedOrder :=
    Order.mk (Order.id order) (Order.customerId order)
             (LoopState.validatedItems st)
             (JS.round2 calculatedSubtotal)
             (JS.round2 calculatedTax)
             (JS.round2 calculatedTotal)
             (Order.status order) (Order.createdAt order) now in
  ValidationResult.mk
    (Nat.eqb (length (LoopState.errors st)) 0)
    (LoopState.errors st)
    validatedOrder.

(** ** The conversation engine ([lib/conversationEngine.ts]) *)

(** [matchesMenuItem(normalizedText, itemName)] *)
Definition matchesMenuItem (normalizedText itemName : string) : bool :=
  let normalizedName := Str.toLowerCase itemName in
  if Str.includes normalizedText normalizedName then true
  else
    let nameTokens := Str.tokens normalizedName in
    existsb (fun token =>
               andb (3 <=? Z.of_nat (String.length token))
                    (Str.includes normalizedText token))
            nameTokens.

(** The entries of [wordNumbers], in the order of the source; the
    alternation of the two patterns lists the same words in the same order,
    after [\d+].  Only the own properties of the object are modelled: a
    token spelled like a property inherited from [Object.prototype] is
    looked up as absent. *)
Definition wordNumberTable : list (string * float) :=
  [ ("un", 1); ("una", 1); ("uno", 1); ("dos", 2); ("tres", 3); ("cuatro", 4);
    ("cinco", 5); ("seis", 6); ("siete", 7); ("ocho", 8); ("nueve", 9);
    ("diez", 10); ("once", 11); ("doce", 12); ("trece", 13); ("catorce", 14);
    ("quince", 15); ("dieciseis", 16); ("diecisiete", 17); ("dieciocho", 18);
    ("diecinueve", 19); ("veinte", 20); ("veintiuno", 21); ("veintidos", 22);
    ("veintitres", 23); ("veinticuatro", 24); ("veinticinco", 25);
    ("veintiseis", 26); ("veintisiete", 27); ("veintiocho", 28);
    ("veintinueve", 29); ("treinta", 30); ("cuarenta", 40); ("cincuenta", 50);
    ("sesenta", 60); ("setenta", 70); ("ochenta", 80); ("noventa", 90) ]%float.

Definition wordNumbers : gmap string float := list_to_map wordNumberTable.

(** [(\d+|un|una|...|noventa)] *)
Definition numberPattern : Regex.t :=
  Regex.Group
    (Regex.Alts (Regex.Plus Str.isDigit
                   :: List.map (fun e => Regex.Lit (fst e)) wordNumberTable)).

(** [\s*(?:x)?\s*] *)
Definition timesPattern : Regex.t :=
  Regex.Seq (Regex.Star Str.isSpace)
            (Regex.Seq (Regex.Opt (Regex.Lit "x")) (Regex.Star Str.isSpace)).

(** [escapedName] as a pattern: the name's tokens joined by [\s+].  The
    tokens hold only characters of [[a-z0-9]], which the escaping leaves as
    they are. *)
Fixpoint namePattern (nameTokens : list string) : Regex.t :=
  match nameTokens with
  | [] => Regex.Eps
  | [tok] => Regex.Lit tok
  | tok :: rest =>
      Regex.Seq (Regex.Lit tok)
                (Regex.Seq (Regex.Plus Str.isSpace) (namePattern rest))
  end.

Definition beforeName (nameTokens : list string) : Regex.t :=
  Regex.Seq Regex.WordB
    (Regex.Seq numberPattern
       (Regex.Seq timesPattern
          (Regex.Seq (namePattern nameTokens) Regex.WordB))).

Definition afterName (nameTokens : list string) : Regex.t :=
  Regex.Seq Regex.WordB
    (Regex.Seq (namePattern nameTokens)
       (Regex.Seq timesPattern
          (Regex.Seq numberPattern Regex.WordB))).

(** [Number(s)] for a string that is a run of digits or a word. *)
Definition NumberOf (s : string) : float :=
  if Str.allDigits s then JS.ofZ (Str.digitsValue s) else nan.

(** [wordNumbers[key] || 1] *)
Definition wordNumberOr1 (key : string) : float :=
  match wordNumbers !! key with
  | Some v => if JS.truthy v then v else 1%float
  | None => 1%float
  end.

(** The [for] loop over the token window: the first numeral or number word
    decides.  [wordNumbers[token]] is read as an own property of the
    table.  One token also names a property that the table inherits,
    [constructor]; for it the source returns that inherited value, which is
    not a number, and the properties of the scan leave texts with this
    token out. *)
Fixpoint scanWindow (window : list string) : option float :=
  match window with
  | [] => None
  | token :: rest =>
      if Str.allDigits token then Some (JS.max1 (NumberOf token))
      else match wordNumbers !! token with
           | Some v => if JS.truthy v then Some v else scanWindow rest
           | None => scanWindow rest
           end
  end.

(** [textTokens.findIndex(token => nameTokens.includes(token))] *)
Fixpoint findIndex (nameTokens textTokens : list string) : option nat :=
  match textTokens with
  | [] => None
  | token :: rest =>
      if existsb (String.eqb token) nameTokens then Some O
      else option_map S (findIndex nameTokens rest)
  end.

(** [extractQuantity(normalizedText, itemName)] *)
Definition extractQuantity (normalizedText itemName : string) : float :=
  let nameTokens := Str.tokens (Str.toLowerCase itemName) in
  let matched : option string :=
    match nameTokens with
    | [] => None
    | _ =>
        match Regex.capture1 (beforeName nameTokens) normalizedText with
        | Some m => Some m
        | None => Regex.capture1 (afterName nameTokens) normalizedText
        end
    end in
  match matched with
  | Some m =>
      let parsed := NumberOf m in
      if JS.isFinite parsed then JS.max1 parsed else wordNumberOr1 m
  | None =>
      let textTokens := Str.tokens normalizedText in
      match findIndex nameTokens textTokens with
      | Some index =>
          let windowStart := (index - 3)%nat in
          let windowEnd := Nat.min (length textTokens) (index + 4) in
          match scanWindow (firstn (windowEnd - windowStart)
                                   (skipn windowStart textTokens)) with
          | Some q => q
          | None => 1%float
          end
      | None => 1%float
      end
  end.

(** What [addItemFromText] returns. *)
Module OrderUpdate.
Record t : Type := mk {
  order : Order.t;
  addedItem : option OrderItem.t
}.
End OrderUpdate.

(** [order.items.find(item => item.menuItemId === matchedMenuItem.id &&
    item.selectedModifiers.length === 0)] *)
Definition findExisting (matchedMenuItem : MenuItem.t) (items : list OrderItem.t)
  : option OrderItem.t :=
  List.find (fun item =>
               andb (String.eqb (OrderItem.menuItemId item) (MenuItem.id matchedMenuItem))
                    (Nat.eqb (length (OrderItem.selectedModifiers item)) 0))
            items.

(** [{ ...item, quantity: item.quantity + quantity }] *)
Definition addQuantity (quantity : float) (item : OrderItem.t) : OrderItem.t :=
  OrderItem.mk (OrderItem.id item) (OrderItem.menuItemId item) (OrderItem.name item)
               (PrimFloat.add (OrderItem.quantity item) quantity)
               (OrderItem.unitPrice item) (OrderItem.selectedModifiers item)
               (OrderItem.specialInstructions item).

(** [newItem]; [nowMs] is the reading of [Date.now()]. *)
Definition newItemOf (nowMs : Z) (matchedMenuItem : MenuItem.t) (quantity : float)
  : OrderItem.t :=
  OrderItem.mk ("line_" +:+ JS.showZ nowMs) (MenuItem.id matchedMenuItem)
               (MenuItem.name matchedMenuItem) quantity
               (MenuItem.basePrice matchedMenuItem) [] None.

(** [updatedItems.reduce((total, item) => total + item.unitPrice * item.quantity, 0)] *)
Definition sumLines (items : list OrderItem.t) : float :=
  fold_left (fun total item =>
               PrimFloat.add total
                 (PrimFloat.mul (OrderItem.unitPrice item) (OrderItem.quantity item)))
            items 0%float.

(** The mutation step of [addItemFromText]: everything after the menu item
    is matched and the quantity extracted.  [nowIso] is the reading of
    [new Date().toISOString()]. *)
Definition applyMatch (nowMs : Z) (nowIso : string) (matchedMenuItem : MenuItem.t)
           (quantity : float) (order : Order.t) : OrderUpdate.t :=
  let existingItem := findExisting matchedMenuItem (Order.items order) in
  let newItem : option OrderItem.t :=
    match existingItem with
    | None => Some (newItemOf nowMs matchedMenuItem quantity)
    | Some _ => None
    end in
  let updatedItems :=
    match existingItem with
    | Some existing =>
        List.map (fun item =>
                    if String.eqb (OrderItem.id item) (OrderItem.id existing)
                    then addQuantity quantity item else item)
                 (Order.items order)
    | None => Order.items order ++ [newItemOf nowMs matchedMenuItem quantity]
    end in
  let taxRate :=
    if JS.gt0 (Order.subtotal order)
    then PrimFloat.div (Order.tax order) (Order.subtotal order) else 0%float in
  let subtotal := sumLines updatedItems in
  let tax := JS.round2 (PrimFloat.mul subtotal taxRate) in
  let total := JS.round2 (PrimFloat.add subtotal tax) in
  OrderUpdate.mk
    (Order.mk (Order.id order) (Order.customerId order) updatedItems
              subtotal tax total
              (Order.status order) (Order.createdAt order) nowIso)
    (match newItem with Some n => Some n | None => existingItem end).

(** [addItemFromText(userText, menu, order)] *)
Definition addItemFromText (nowMs : Z) (nowIso : string) (userText : string)
           (menu : list MenuItem.t) (order : Order.t) : OrderUpdate.t :=
  match menu with
  | [] => OrderUpdate.mk order None
  | _ =>
      let normalizedText := Str.toLowerCase userText in
      match List.find (fun item => matchesMenuItem normalizedText (MenuItem.name item)) menu with
      | None => OrderUpdate.mk order None
      | Some matchedMenuItem =>
          let quantity := extractQuantity normalizedText (MenuItem.name matchedMenuItem) in
          applyMatch nowMs nowIso matchedMenuItem quantity order
      end
  end.

(** [/confirm|place order/i] *)
Definition finalizePattern : Regex.t :=
  Regex.Alt (Regex.LitI "confirm") (Regex.LitI "place order").

Definition finalizeIntent (userText : string) : bool :=
  Regex.test finalizePattern userText.

(** The clock readings of one turn, in the order the code takes them. *)
Module TurnClock.
Record t : Type := mk {
  userTurnMs : Z;            (* Date.now() in the user turn's id *)
  userTurnIso : string;      (* the user turn's timestamp *)
  lineMs : Z;                (* Date.now() in addItemFromText *)
  orderUpdatedIso : string;  (* updatedAt in addItemFromText *)
  validationIso : string;    (* updatedAt in validateOrder *)
  assistantTurnMs : Z;       (* Date.now() in the assistant turn's id *)
  assistantTurnIso : string; (* the assistant turn's timestamp *)
  lastUpdatedIso : string    (* lastUpdated of the new state *)
}.
End TurnClock.

(** What the two services answered during the turn: [fetchMenu()] resolves
    with a menu or rejects ([None]); [generateAssistantReply(...)] resolves
    with a turn, of which only [content] is read, or rejects ([None]). *)
Module TurnServices.
Record t : Type := mk {
  fetchMenu : option (list MenuItem.t);
  generateAssistantReply : option string
}.
End TurnServices.

(** [advanceConversation] resolves with the new state or rejects with a
    [ConversationError]. *)
Inductive TurnOutcome : Type :=
| Resolved (state : ConversationState.t)
| ConversationError (message code : string).

Definition withStatus (s : OrderStatus) (o : Order.t) : Order.t :=
  Order.mk (Order.id o) (Order.customerId o) (Order.items o)
           (Order.subtotal o) (Order.tax o) (Order.total o)
           s (Order.createdAt o) (Order.updatedAt o).

Definition OrderStatus_eqb (a b : OrderStatus) : bool :=
  match a, b with
  | pending, pending | confirmed, confirmed | preparing, preparing
  | ready, ready | completed, completed | cancelled, cancelled => true
  | _, _ => false
  end.

(** The text that replaces the generated reply when the guardrail fires. *)
Definition guardrailMessage (errors : list ValidationError.t) : string :=
  "I can't place the order yet. "
    +:+ Str.join " " (List.map ValidationError.message errors).

(** [advanceConversation(state, userText)] *)
Definition advanceConversation (clock : TurnClock.t) (services : TurnServices.t)
           (state : ConversationState.t) (userText : string) : TurnOutcome :=
  (* 1. append the user turn *)
  let userTurn :=
    ConversationTurn.mk ("turn_" +:+ JS.showZ (TurnClock.userTurnMs clock) +:+ "_user")
                        user userText (TurnClock.userTurnIso clock) None in
  let updatedHistory := ConversationState.history state ++ [userTurn] in
  (* 2. fetch the menu; a failure is logged and the menu stays empty *)
  let menu := default [] (TurnServices.fetchMenu services) in
  (* 3. opportunistic order update *)
  let orderUpdate :=
    addItemFromText (TurnClock.lineMs clock) (TurnClock.orderUpdatedIso clock)
                    userText menu (ConversationState.currentOrder state) in
  let nextOrderState := OrderUpdate.order orderUpdate in
  let metadata :=
    Metadata.mk (option_map OrderItem.name (OrderUpdate.addedItem orderUpdate)) None in
  (* 4. the reply generator *)
  match TurnServices.generateAssistantReply services with
  | None => ConversationError "Failed to generate response." "AI_SERVICE_ERROR"
  | Some aiContent =>
      (* 5. guardrail *)
      let '(nextOrderState, aiResponseContent, metadata) :=
        if andb (OrderStatus_eqb (Order.status (ConversationState.currentOrder state)) pending)
                (finalizeIntent userText)
        then
          let validation :=
            validateOrder (TurnClock.validationIso clock)
                          (ConversationState.currentOrder state) menu in
          if ValidationResult.isValid validation
          then (withStatus confirmed nextOrderState, aiContent,
                Metadata.mk (Metadata.itemAdded metadata) (Some confirmed))
          else (nextOrderState,
                guardrailMessage (ValidationResult.errors validation),
                metadata)
        else (nextOrderState, aiContent, metadata) in
      (* 6. the assistant turn *)
      let assistantTurn :=
        ConversationTurn.mk ("turn_" +:+ JS.showZ (TurnClock.assistantTurnMs clock) +:+ "_ai")
                            assistant aiResponseContent
                            (TurnClock.assistantTurnIso clock) (Some metadata) in
      (* 7. the new state *)
      Resolved
        (ConversationState.mk (ConversationState.conversationId state)
                              (updatedHistory ++ [assistantTurn])
                              nextOrderState
                              (TurnClock.lastUpdatedIso clock))
  end.

(** ** The submission client ([lib/orderSubmissionClient.ts]) *)

Module RetryConfig.
Record t : Type := mk {
  maxRetries : nat;
  initialDelayMs : Z;
  backoffFactor : Z
}.
End RetryConfig.

Definition RETRY_CONFIG : RetryConfig.t := RetryConfig.mk 3 1000 2.

(** The fields the client reads from a JSON body that is not [null]. *)
Module Json.
Record t : Type := mk {
  message : option string;
  confirmationId : option string;
  estimatedWaitTimeMinutes : option Z
}.
End Json.

(** A parsed JSON body: [null], or any other value, seen through the
    fields the client reads from it. *)
Inductive JsonBody : Type :=
| JsonNull
| JsonFields (fields : Json.t).

(** A thrown value, as far as the [catch] block looks at it: the error's
    [name], and its [message] when it is an [Error]. *)
Module Thrown.
Record t : Type := mk {
  name : string;
  message : option string
}.
End Thrown.

(** A response: [json] is what [response.json()] resolves with, or the
    error it rejects with. *)
Module Response.
Record t : Type := mk {
  status : Z;
  statusText : string;
  json : JsonBody + Thrown.t
}.
(** [response.ok] *)
Definition ok (r : t) : bool := andb (200 <=? status r) (status r <=? 299).
End Response.

(** One call of [fetch]: it resolves with a response or rejects. *)
Inductive FetchOutcome : Type :=
| Responded (response : Response.t)
| Rejected (error : Thrown.t).

Module ApiError.
Record t : Type := mk {
  code : string;
  message : string;
  details : option Json.t
}.
End ApiError.

Module SubmissionData.
Record t : Type := mk {
  confirmationId : string;
  estimatedWaitTimeMinutes : Z
}.
End SubmissionData.

(** [SubmissionResult]; the [status] of a success is always ['received']. *)
Inductive SubmissionResult : Type :=
| Success (data : SubmissionData.t)
| Failure (error : ApiError.t).

(** A run of [submitOrder]: its result, the delays it slept, in order, and
    the number of calls of [fetch] it made. *)
Module Run.
Record t : Type := mk {
  result : SubmissionResult;
  sleeps : list Z;
  fetches : nat
}.
End Run.

(** A string is truthy when it is not empty. *)
Definition nonEmpty (s : string) : bool := negb (String.eqb s "").

Definition truthyString (o : option string) : option string :=
  match o with
  | Some s => if nonEmpty s then Some s else None
  | None => None
  end.

(** The [catch] block. *)
Definition isNetworkError (error : Thrown.t) : bool :=
  orb (String.eqb (Thrown.name error) "TypeError")
      (String.eqb (Thrown.name error) "FetchError").

Definition networkFailure (error : Thrown.t) : SubmissionResult :=
  Failure (ApiError.mk "NETWORK_ERROR"
             (default "Unknown network error occurred" (Thrown.message error))
             None).

(** The [TypeError] that reading [property] of [null] throws; both reads
    of a body are inside the [try], so the [catch] block gets it.  The
    wording of the message is V8's. *)
Definition nullRead (property : string) : Thrown.t :=
  Thrown.mk "TypeError"
            (Some ("Cannot read properties of null (reading '" +:+ property +:+ "')")).

(** [errorBody]: the body of a response that is not ok, or
    [{ message: response.statusText }] when [response.json()] rejects. *)
Definition errorBodyOf (response : Response.t) : JsonBody :=
  match Response.json response with
  | inl body => body
  | inr _ => JsonFields (Json.mk (Some (Response.statusText response)) None None)
  end.

(** The failure built from a response that is not ok and its error body,
    when that is not [null]. *)
Definition httpFailure (response : Response.t) (errorBody : Json.t)
  : SubmissionResult :=
  Failure (ApiError.mk
             ("HTTP_" +:+ JS.showZ (Response.status response))
             (default ("External API returned status "
                         +:+ JS.showZ (Response.status response))
                      (truthyString (Json.message errorBody)))
             (Some errorBody)).

(** What one pass through the loop body decides. *)
Inductive Step : Type :=
| Return (result : SubmissionResult)
| Retry.

Definition attemptStep (attempt : nat) (outcome : FetchOutcome) : Step :=
  let onThrow (error : Thrown.t) : Step :=
    if andb (isNetworkError error) (attempt <? RetryConfig.maxRetries RETRY_CONFIG)%nat
    then Retry else Return (networkFailure error) in
  match outcome with
  | Rejected error => onThrow error
  | Responded response =>
      if negb (Response.ok response) then
        let status := Response.status response in
        let isTransient := orb (500 <=? status) (status =? 429) in
        if andb isTransient (attempt <? RetryConfig.maxRetries RETRY_CONFIG)%nat
        then Retry
        else
          match errorBodyOf response with
          | JsonNull => onThrow (nullRead "message")
          | JsonFields errorBody => Return (httpFailure response errorBody)
          end
      else
        match Response.json response with
        | inr error => onThrow error
        | inl JsonNull => onThrow (nullRead "confirmationId")
        | inl (JsonFields data) =>
            match truthyString (Json.confirmationId data) with
            | None =>
                Return (Failure (ApiError.mk "INVALID_RESPONSE"
                                   "External API did not return a confirmation ID."
                                   None))
            | Some confirmationId =>
                Return (Success (SubmissionData.mk confirmationId
                          match Json.estimatedWaitTimeMinutes data with
                          | Some w => if w =? 0 then 15 else w
                          | None => 15
                          end))
            end
        end
  end.

(** The [while] loop.  [endpoint k] is what the call of [fetch] number [k]
    (from 0) answers; every pass makes one call, so the pass with counter
    [attempt] makes call number [attempt].  [fuel] bounds the passes. *)
Fixpoint submitLoop (fuel : nat) (endpoint : nat -> FetchOutcome)
         (attempt : nat) (currentDelay : Z) (sleeps : list Z) : option Run.t :=
  match fuel with
  | O => None
  | S fuel' =>
      if (attempt <=? RetryConfig.maxRetries RETRY_CONFIG)%nat then
        match attemptStep attempt (endpoint attempt) with
        | Return result => Some (Run.mk result sleeps (S attempt))
        | Retry =>
            submitLoop fuel' endpoint (S attempt)
                       (currentDelay * RetryConfig.backoffFactor RETRY_CONFIG)
                       (sleeps ++ [currentDelay])
        end
      else
        Some (Run.mk (Failure (ApiError.mk "TIMEOUT"
                                 "Max retries exceeded while submitting order." None))
                     sleeps attempt)
  end.

(** [submitOrder(order)], with [url] the configured
    [config.orderSubmissionUrl].  The request carries the id and quantity
    of each line; the endpoint's answers are given per call. *)
Definition submitOrderFuel (fuel : nat) (url : string)
           (endpoint : nat -> FetchOutcome) (order : Order.t) : option Run.t :=
  if negb (nonEmpty url) then
    Some (Run.mk (Failure (ApiError.mk "CONFIG_ERROR"
                             "Order submission URL is not configured." None))
                 [] 0)
  else
    submitLoop fuel endpoint 0 (RetryConfig.initialDelayMs RETRY_CONFIG) [].

Definition submitOrder (url : string) (endpoint : nat -> FetchOutcome)
           (order : Order.t) : option Run.t :=
  submitOrderFuel (RetryConfig.maxRetries RETRY_CONFIG + 2) url endpoint order.

(** [createInitialState(conversationId)].  The two readings of
    [Date.now()] and the three of [new Date().toISOString()] are arguments;
    the first is taken only when no conversation id is given. *)
Definition createInitialState (convMs ordMs : Z)
           (createdIso updatedIso lastUpdatedIso : string)
           (conversationId : option string) : ConversationState.t :=
  ConversationState.mk
    (match truthyString conversationId with
     | Some id => id
     | None => "conv_" +:+ JS.showZ convMs
     end)
    []
    (Order.mk ("ord_" +:+ JS.showZ ordMs) (Some "guest") []
              0%float 0%float 0%float pending createdIso updatedIso)
    lastUpdatedIso.

(** ** The menu summary ([buildMenuSummary], [lib/conversationEngine.ts]) *)

(** [x.toFixed(2)].  From [1e21] on the method falls back to [String(x)],
    which is given by [showNumber]; a negative [x] is printed as a minus
    sign followed by the text for [-x]. *)
Definition toFixed2 (showNumber : float -> string) (x : float) : string :=
  match Prim2SF x with
  | S754_nan => "NaN"
  | S754_infinity s => if s then "-Infinity" else "Infinity"
  | S754_zero _ => "0.00"
  | S754_finite s m e =>
      (if s then "-" else "")
        +:+ (if andb (0 <=? e) (10 ^ 21 <=? Z.pos m * 2 ^ e)
             then showNumber (PrimFloat.abs x)
             else
               let n := JS.toFixed2_digits m e in
               JS.showZ (n / 100) +:+ "."
                 +:+ (if n mod 100 <? 10 then "0" else "") +:+ JS.showZ (n mod 100))
  end.

(** A [Map] from strings to arrays of strings whose iteration order
    matters: the entries in insertion order; [set] on a key that is present
    replaces the value where it stands. *)
Module InsertionMap.
Definition t : Type := list (string * list string).

Fixpoint get (key : string) (m : t) : option (list string) :=
  match m with
  | [] => None
  | (k, v) :: rest => if String.eqb k key then Some v else get key rest
  end.

Fixpoint set (key : string) (value : list string) (m : t) : t :=
  match m with
  | [] => [(key, value)]
  | (k, v) :: rest =>
      if String.eqb k key then (key, value) :: rest
      else (k, v) :: set key value rest
  end.
End InsertionMap.

(** [item.category || "Other"] *)
Definition categoryOf (item : MenuItem.t) : string :=
  if nonEmpty (MenuItem.category item) then MenuItem.category item else "Other".

(** [`${item.name} ($${item.basePrice.toFixed(2)})`] *)
Definition summaryEntry (showNumber : float -> string) (item : MenuItem.t) : string :=
  MenuItem.name item +:+ " ($" +:+ toFixed2 showNumber (MenuItem.basePrice item) +:+ ")".

(** Body of the loop over the menu. *)
Definition summaryStep (showNumber : float -> string) (grouped : InsertionMap.t)
           (item : MenuItem.t) : InsertionMap.t :=
  let category := categoryOf item in
  let entry := summaryEntry showNumber item in
  let list := default [] (InsertionMap.get category grouped) in
  if (length list <? 6)%nat
  then InsertionMap.set category (list ++ [entry]) grouped
  else grouped.

Definition summaryGroups (showNumber : float -> string) (menu : list MenuItem.t)
  : InsertionMap.t :=
  fold_left (summaryStep showNumber) menu [].

Definition newline : string := String (ascii_of_nat 10) EmptyString.

(** [buildMenuSummary(menu)] *)
Definition buildMenuSummary (showNumber : float -> string) (menu : list MenuItem.t)
  : string :=
  match menu with
  | [] => ""
  | _ =>
      Str.join newline
        (List.map (fun group => fst group +:+ ": " +:+ Str.join ", " (snd group))
                  (summaryGroups showNumber menu))
  end.

(** ** The form posted to the fulfillment endpoint ([submitOrder]) *)

(** [formData]: for the line at [index], the fields [items[index][id]]
    and [items[index][quantity]], holding [String(item.menuItemId)] and
    [String(item.quantity)]; [showNumber] is [String] on numbers. *)
Fixpoint formDataFrom (showNumber : float -> string) (index : nat)
         (items : list OrderItem.t) : list (string * string) :=
  match items with
  | [] => []
  | item :: rest =>
      ("items[" +:+ JS.showZ (Z.of_nat index) +:+ "][id]", OrderItem.menuItemId item)
        :: ("items[" +:+ JS.showZ (Z.of_nat index) +:+ "][quantity]",
            showNumber (OrderItem.quantity item))
        :: formDataFrom showNumber (S index) rest
  end.

Definition formData (showNumber : float -> string) (order : Order.t)
  : list (string * string) :=
  formDataFrom showNumber 0 (Order.items order).

(** A fulfillment service: what it answers to a call depends on the form
    posted and on the number of the call. *)
Definition Fulfillment : Type := list (string * string) -> nat -> FetchOutcome.

(** [submitOrder] against a service that sees the form. *)
Definition submitOrderTo (showNumber : float -> string) (service : Fulfillment)
           (url : string) (order : Order.t) : option Run.t :=
  submitOrder url (service (formData showNumber order)) order.

(** ** The order route ([POST /api/order]) *)

(** [CURRENT_MENU], the menu the route validates against. *)
Definition CURRENT_MENU : list MenuItem.t :=
  [ MenuItem.mk "burger_classic" "Classic Burger" "Beef patty with lettuce and tomato"
                10%float "Main" None true
      [ ModifierGroup.mk "cheese_group" "Cheese Selection" 0 1
          [ ModifierOption.mk "cheddar" "Cheddar" 1%float true;
            ModifierOption.mk "swiss" "Swiss" 1.5%float true ] ];
    MenuItem.mk "fries_side" "French Fries" "Crispy salted fries"
                4%float "Sides" None true [] ].

(** The request body as the route sees it: [request.json()] rejects; the
    body is null or its [items] are missing or not an array; or the body is
    taken as an [Order]. *)
Inductive OrderRequest : Type :=
| BodyUnreadable
| BodyWithoutItems
| BodyOrder (order : Order.t).

Inductive OrderPayload : Type :=
| RouteError (error : string)
| ValidationFailed (error : string) (details : list ValidationError.t)
| Submitted (message : string) (data : SubmissionData.t)
| SubmissionFailed (error code message : string) (details : option Json.t).

(** The response of the route, and the run of [submitOrder] when the
    route called it. *)
Module OrderResponse.
Record t : Type := mk {
  status : Z;
  payload : OrderPayload;
  submission : option Run.t
}.
End OrderResponse.

(** [POST(request)]; [now] is the clock reading that [validateOrder]
    takes and [url] the configured submission URL.  The last case is the
    [catch] around the handler. *)
Definition postOrder (showNumber : float -> string) (now : string) (url : string)
           (service : Fulfillment) (request : OrderRequest) : OrderResponse.t :=
  let noItems :=
    OrderResponse.mk 400 (RouteError "Order must contain a non-empty 'items' array.")
                     None in
  match request with
  | BodyUnreadable => OrderResponse.mk 400 (RouteError "Invalid JSON body") None
  | BodyWithoutItems => noItems
  | BodyOrder order =>
      match Order.items order with
      | [] => noItems
      | _ =>
          let validationResult := validateOrder now order CURRENT_MENU in
          if negb (ValidationResult.isValid validationResult) then
            OrderResponse.mk 400
              (ValidationFailed "Order validation failed"
                                (ValidationResult.errors validationResult))
              None
          else
            match submitOrderTo showNumber service url
                                (ValidationResult.validatedOrder validationResult) with
            | Some run =>
                match Run.result run with
                | Success data =>
                    OrderResponse.mk 200 (Submitted "Order submitted successfully" data)
                                     (Some run)
                | Failure error =>
                    OrderResponse.mk
                      (if String.eqb (ApiError.code error) "PAYMENT_DECLINED"
                       then 402 else 502)
                      (SubmissionFailed "Order submission failed"
                                        (ApiError.code error) (ApiError.message error)
                                        (ApiError.details error))
                      (Some run)
                end
            | None => OrderResponse.mk 500 (RouteError "Internal Server Error") None
            end
      end
  end.

(** ** The conversation route ([POST /api/conversation]) *)

(** [s.trim()] on a text of ASCII characters, where the white space it
    strips is the space and the characters 9 to 13. *)
Fixpoint dropSpaces (s : list ascii) : list ascii :=
  match s with
  | c :: rest => if Str.isSpace c then dropSpaces rest else s
  | [] => []
  end.

Definition trim (s : string) : string :=
  Str.ofChars (rev (dropSpaces (rev (dropSpaces (Str.chars s))))).

(** The [state] field of a request body: falsy; or truthy but not an
    object with a [history] array; or taken as a [ConversationState]. *)
Inductive StateField : Type :=
| StateAbsent
| StateMalformed
| StateGiven (state : ConversationState.t).

(** The request body: [request.json()] rejects; the body is null or not
    an object; or an object, with its [message] when that is a string and
    its [state]. *)
Inductive ConversationRequest : Type :=
| RequestUnreadable
| RequestNotObject
| RequestFields (message : option string) (state : StateField).

(** The [state] of a response: the empty object, the field of the request
    as it came, or the state the engine returned. *)
Inductive ResponseState : Type :=
| EmptyState
| EchoedState (field : StateField)
| UpdatedState (state : ConversationState.t).

Module ConversationResponse.
Record t : Type := mk {
  status : Z;
  state : ResponseState;
  reply : option string;
  error : option string
}.
End ConversationResponse.

(** [state || {}] *)
Definition stateOrEmpty (field : StateField) : ResponseState :=
  match field with
  | StateAbsent => EmptyState
  | _ => EchoedState field
  end.

(** [POST(request)] of the conversation route. *)
Definition postConversation (clock : TurnClock.t) (services : TurnServices.t)
           (request : ConversationRequest) : ConversationResponse.t :=
  match request with
  | RequestUnreadable =>
      ConversationResponse.mk 500 EmptyState None (Some "Internal Server Error")
  | RequestNotObject =>
      ConversationResponse.mk 400 EmptyState None (Some "Invalid request body")
  | RequestFields message field =>
      match truthyString message with
      | None =>
          ConversationResponse.mk 400 (stateOrEmpty field) None
            (Some "Message field is required and must be a string.")
      | Some message =>
          match field with
          | StateGiven state =>
              match advanceConversation clock services state (trim message) with
              | Resolved updatedState =>
                  let reply :=
                    match last (ConversationState.history updatedState) with
                    | Some lastTurn =>
                        match ConversationTurn.role lastTurn with
                        | assistant => Some (ConversationTurn.content lastTurn)
                        | _ => None
                        end
                    | None => None
                    end in
                  ConversationResponse.mk 200 (UpdatedState updatedState) reply None
              | ConversationError message _ =>
                  ConversationResponse.mk 400 EmptyState None (Some message)
              end
          | _ =>
              ConversationResponse.mk 400 (stateOrEmpty field) None
                (Some "Valid conversation state object is required.")
          end
      end
  end.

(** ** The menu client *)

Definition CACHE_TTL_MS : Z := 5 * 60 * 1000.

(** [CacheEntry<MenuItem[]>]; [menuCache] is an [option] of it. *)
Module CacheEntry.
Record t : Type := mk {
  data : list MenuItem.t;
  timestamp : Z
}.
End CacheEntry.

Module MenuFetchError.
Record t : Type := mk {
  message : string;
  code : string
}.
End MenuFetchError.

(** What a block can throw: a [MenuFetchError], or anything else. *)
Inductive Raised : Type :=
| RaisedMenuFetchError (error : MenuFetchError.t)
| RaisedOther.

Inductive MenuOutcome : Type :=
| Returned (items : list MenuItem.t)
| Threw (raised : Raised).

(** [string | number] and [string | number | null], as the payload types
    have them. *)
Inductive PayloadId : Type :=
| IdText (s : string)
| IdNumber (x : float).

Inductive PlatePrice : Type :=
| PriceAbsent
| PriceNumber (x : float)
| PriceText (s : string).

Module PlatePayload.
Record t : Type := mk {
  id : PayloadId;
  name : string;
  description : option string;
  price : PlatePrice;
  image : option string
}.
End PlatePayload.

Module CategoryPayload.
Record t : Type := mk {
  id : PayloadId;
  name : string;
  description : option string;
  image : option string;
  plates : option (list PlatePayload.t)
}.
End CategoryPayload.

(** The object pushed for a plate.  [showNumber] is [String] on a number
    and [parseNumber] is [Number] on a string. *)
Definition plateItem (showNumber : float -> string) (parseNumber : string -> float)
           (category : CategoryPayload.t) (plate : PlatePayload.t) : MenuItem.t :=
  MenuItem.mk
    (match PlatePayload.id plate with
     | IdText s => s
     | IdNumber x => showNumber x
     end)
    (PlatePayload.name plate)
    (default "" (truthyString (PlatePayload.description plate)))
    (match PlatePayload.price plate with
     | PriceNumber x => if JS.truthy x then x else 0%float
     | PriceText s => if nonEmpty s then parseNumber s else 0%float
     | PriceAbsent => 0%float
     end)
    (CategoryPayload.name category)
    (match truthyString (PlatePayload.image plate) with
     | Some image => Some image
     | None => truthyString (CategoryPayload.image category)
     end)
    true
    [].

(** [flattenCategories(categories)] *)
Definition flattenCategories (showNumber : float -> string)
           (parseNumber : string -> float)
           (categories : list CategoryPayload.t) : list MenuItem.t :=
  flat_map (fun category =>
              List.map (plateItem showNumber parseNumber category)
                       (default [] (CategoryPayload.plates category)))
           categories.

(** An array in a payload, by what the code asks of it: empty; its first
    element has a [price] key, and the elements are taken as menu items
    without a check; its first element has a [plates] key and no [price];
    its first element is an object with neither key; or its first element
    is not an object, on which [in] throws a [TypeError]. *)
Inductive ArrayPayload : Type :=
| EmptyArray
| ItemArray (items : list MenuItem.t)
| CategoryArray (categories : list CategoryPayload.t)
| OtherArray
| BrokenArray.

(** A payload: an array; an object, with those of its [data],
    [categories] and [menu] that are arrays; or anything else. *)
Inductive MenuPayload : Type :=
| PayloadArray (array : ArrayPayload)
| PayloadObject (data : option ArrayPayload)
                (categories : option (list CategoryPayload.t))
                (menu : option ArrayPayload)
| PayloadOther.

Definition invalidFormat : MenuOutcome :=
  Threw (RaisedMenuFetchError
           (MenuFetchError.mk "Invalid menu data format received from API"
                              "INVALID_FORMAT")).

(** [normalizeMenuPayload] on an array: an array has no array under
    [data], [categories] or [menu], so one of unknown shape falls through
    to the [throw]. *)
Definition normalizeArray (showNumber : float -> string)
           (parseNumber : string -> float) (array : ArrayPayload) : MenuOutcome :=
  match array with
  | EmptyArray => Returned []
  | ItemArray items => Returned items
  | CategoryArray categories =>
      Returned (flattenCategories showNumber parseNumber categories)
  | OtherArray => invalidFormat
  | BrokenArray => Threw RaisedOther
  end.

(** [normalizeMenuPayload(payload)] *)
Definition normalizeMenuPayload (showNumber : float -> string)
           (parseNumber : string -> float) (payload : MenuPayload) : MenuOutcome :=
  match payload with
  | PayloadArray array => normalizeArray showNumber parseNumber array
  | PayloadObject data categories menu =>
      match data with
      | Some array => normalizeArray showNumber parseNumber array
      | None =>
          match categories with
          | Some categories =>
              Returned (flattenCategories showNumber parseNumber categories)
          | None =>
              match menu with
              | Some array => normalizeArray showNumber parseNumber array
              | None => invalidFormat
              end
          end
      end
  | PayloadOther => invalidFormat
  end.

(** The answer of the menu API; [json] is [None] when [response.json()]
    rejects. *)
Module MenuResponse.
Record t : Type := mk {
  ok : bool;
  status : Z;
  statusText : string;
  json : option MenuPayload
}.
End MenuResponse.

(** What [fetch] does when called: it rejects, or resolves. *)
Inductive MenuNetwork : Type :=
| NetworkRejected
| NetworkAnswered (response : MenuResponse.t).

(** One call of [fetchMenu]: what it returned or threw, [menuCache]
    afterwards, and whether [fetch] was called. *)
Module MenuRun.
Record t : Type := mk {
  outcome : MenuOutcome;
  cache : option CacheEntry.t;
  fetched : bool
}.
End MenuRun.

Definition isExpired (now : Z) (entry : CacheEntry.t) : bool :=
  CACHE_TTL_MS <? now - CacheEntry.timestamp entry.

(** The [try] block of [fetchMenu] up to the cache update. *)
Definition requestMenu (showNumber : float -> string) (parseNumber : string -> float)
           (network : MenuNetwork) : MenuOutcome :=
  match network with
  | NetworkRejected => Threw RaisedOther
  | NetworkAnswered response =>
      if negb (MenuResponse.ok response) then
        Threw (RaisedMenuFetchError
                 (MenuFetchError.mk
                    ("Failed to fetch menu: " +:+ JS.showZ (MenuResponse.status response)
                     +:+ " " +:+ MenuResponse.statusText response)
                    "HTTP_ERROR"))
      else
        match MenuResponse.json response with
        | None => Threw RaisedOther
        | Some json => normalizeMenuPayload showNumber parseNumber json
        end
  end.

(** The [try] and [catch] of [fetchMenu]: the request, the cache update
    at the reading [nowStore] of [Date.now()], and the error
    normalization. *)
Definition refreshMenu (showNumber : float -> string) (parseNumber : string -> float)
           (menuCache : option CacheEntry.t) (nowStore : Z)
           (network : MenuNetwork) : MenuRun.t :=
  match requestMenu showNumber parseNumber network with
  | Returned items =>
      MenuRun.mk (Returned items) (Some (CacheEntry.mk items nowStore)) true
  | Threw (RaisedMenuFetchError error) =>
      MenuRun.mk (Threw (RaisedMenuFetchError error)) menuCache true
  | Threw RaisedOther =>
      MenuRun.mk
        (Threw (RaisedMenuFetchError
                  (MenuFetchError.mk
                     "Network error occurred while retrieving the menu."
                     "NETWORK_ERROR")))
        menuCache true
  end.

(** [fetchMenu()], from the module's [menuCache].  [nowCheck] is the
    reading of [Date.now()] at the cache check. *)
Definition fetchMenu (showNumber : float -> string) (parseNumber : string -> float)
           (menuCache : option CacheEntry.t) (nowCheck nowStore : Z)
           (network : MenuNetwork) : MenuRun.t :=
  match menuCache with
  | Some entry =>
      if negb (isExpired nowCheck entry) then
        MenuRun.mk (Returned (CacheEntry.data entry)) menuCache false
      else refreshMenu showNumber parseNumber menuCache nowStore network
  | None => refreshMenu showNumber parseNumber menuCache nowStore network
  end.

(** [clearMenuCache()] *)
Definition clearMenuCache (menuCache : option CacheEntry.t) : option CacheEntry.t :=
  None.

(** ** The menu route ([GET /api/menu]) *)

Definition mapErrorToStatus (code : string) : Z :=
  if String.eqb code "NETWORK_ERROR" then 503
  else if String.eqb code "HTTP_ERROR" then 502
  else if String.eqb code "PARSE_ERROR" then 500
  else if String.eqb code "VALIDATION_ERROR" then 500
  else 500.

Inductive MenuBody : Type :=
| MenuItems (items : list MenuItem.t)
| MenuFailure (error code : string).

Module MenuRouteResponse.
Record t : Type := mk {
  status : Z;
  body : MenuBody
}.
End MenuRouteResponse.

(** The body of [GET] after [fetchMenu] has returned or thrown. *)
Definition menuResponseOf (outcome : MenuOutcome) : MenuRouteResponse.t :=
  match outcome with
  | Returned items => MenuRouteResponse.mk 200 (MenuItems items)
  | Threw (RaisedMenuFetchError error) =>
      MenuRouteResponse.mk (mapErrorToStatus (MenuFetchError.code error))
        (MenuFailure (MenuFetchError.message error) (MenuFetchError.code error))
  | Threw RaisedOther =>
      MenuRouteResponse.mk 500
        (MenuFailure "An unexpected error occurred while retrieving the menu."
                     "INTERNAL_SERVER_ERROR")
  end.

(** [GET(request)] of the menu route, with [menuCache] afterwards. *)
Definition getMenu (showNumber : float -> string) (parseNumber : string -> float)
           (menuCache : option CacheEntry.t) (nowCheck nowStore : Z)
           (network : MenuNetwork) : MenuRouteResponse.t * option CacheEntry.t :=
  let run := fetchMenu showNumber parseNumber menuCache nowCheck nowStore network in
  (menuResponseOf (MenuRun.outcome run), MenuRun.cache run).

(** ** Vocabulary of the properties *)

(** A response is transient (a "503-equivalent") when it is not ok and its
    status is a server error or 429. *)
Definition transientResponse (r : Response.t) : bool :=
  andb (negb (Response.ok r))
       (orb (500 <=? Response.status r) (Response.status r =? 429)).

(** A response that the success path accepts, with its confirmation id. *)
Definition acceptedResponse (r : Response.t) (confirmationId : string) : Prop :=
  Response.ok r = true /\
  exists data, Response.json r = inl (JsonFields data) /\
               truthyString (Json.confirmationId data) = Some confirmationId.

(** The delays of three retries: each one is the one before multiplied by
    the backoff factor. *)
Definition backoffDelays : list Z :=
  let d := RetryConfig.initialDelayMs RETRY_CONFIG in
  let f := RetryConfig.backoffFactor RETRY_CONFIG in
  [d; d * f; d * f * f].

(** The option ids a line selects in the group [gid], in the order of the
    line's [selectedModifiers]. *)
Definition selectionsFor (item : OrderItem.t) (gid : string) : list string :=
  List.map SelectedModifier.optionId
    (List.filter (fun m => String.eqb (SelectedModifier.groupId m) gid)
                 (OrderItem.selectedModifiers item)).

(** A line state with errors and modifiers put in front of its own. *)
Definition frameLine (errors : list ValidationError.t)
           (mods : list SelectedModifier.t) (st : LineState.t) : LineState.t :=
  LineState.mk (errors ++ LineState.errors st)
               (LineState.currentUnitPrice st)
               (mods ++ LineState.validatedModifiers st).

(** What one pass of the group loop pushes onto [errors] and onto
    [validatedModifiers] for a line: the pass run from empty arrays. *)
Definition groupPass (item : OrderItem.t) (group : ModifierGroup.t) : LineState.t :=
  groupStep item (userSelectionsByGroup (OrderItem.selectedModifiers item))
            (LineState.mk [] 0%float []) group.

Definition groupErrors (item : OrderItem.t) (group : ModifierGroup.t)
  : list ValidationError.t :=
  LineState.errors (groupPass item group).

Definition groupModifiers (item : OrderItem.t) (group : ModifierGroup.t)
  : list SelectedModifier.t :=
  LineState.validatedModifiers (groupPass item group).

(** What one pass of the item loop pushes onto [errors] and onto
    [validatedItems]: the pass run from the initial state. *)
Definition itemErrors (menu : list MenuItem.t) (item : OrderItem.t)
  : list ValidationError.t :=
  LoopState.errors (itemStep menu LoopState.init item).

Definition itemValidated (menu : list MenuItem.t) (item : OrderItem.t)
  : list OrderItem.t :=
  LoopState.validatedItems (itemStep menu LoopState.init item).

(** The error pushed for an unavailable menu item, if any. *)
Definition availabilityErrors (item : OrderItem.t) (menuDef : MenuItem.t)
  : list ValidationError.t :=
  if MenuItem.isAvailable menuDef then [] else [errItemUnavailable item menuDef].

(** The running subtotal after the lines [items], started at [s]. *)
Definition subtotalFrom (s : float) (items : list OrderItem.t) : float :=
  fold_left (fun total item =>
               PrimFloat.add total
                 (PrimFloat.mul (OrderItem.unitPrice item) (OrderItem.quantity item)))
            items s.

(** Two line states with the same arrays, whatever their running prices. *)
Definition sameArrays (a b : LineState.t) : Prop :=
  LineState.errors a = LineState.errors b
  /\ LineState.validatedModifiers a = LineState.validatedModifiers b.

(** [total == subtotal + tax], as JavaScript compares numbers. *)
Definition totalIsSubtotalPlusTax (o : Order.t) : bool :=
  PrimFloat.eqb (Order.total o) (PrimFloat.add (Order.subtotal o) (Order.tax o)).

(** [{ ...order, items }] *)
Definition withItems (items : list OrderItem.t) (o : Order.t) : Order.t :=
  Order.mk (Order.id o) (Order.customerId o) items
           (Order.subtotal o) (Order.tax o) (Order.total o)
           (Order.status o) (Order.createdAt o) (Order.updatedAt o).

(** *** Sample data *)

(** An endpoint that is down for three calls and then accepts, and one
    that stays down. *)
Definition response503 : Response.t :=
  Response.mk 503 "Service Unavailable"
              (inl (JsonFields (Json.mk (Some "Kitchen offline") None None))).
Definition responseAccepted : Response.t :=
  Response.mk 200 "OK" (inl (JsonFields (Json.mk None (Some "conf_42") (Some 12)))).
Definition endpoint_recovers (call : nat) : FetchOutcome :=
  if (call <? 3)%nat then Responded response503 else Responded responseAccepted.
Definition endpoint_down (call : nat) : FetchOutcome := Responded response503.
Definition posUrl : string := "https://pos.example/orders".

Definition plainItem (id name : string) (price : float) (available : bool)
  : MenuItem.t :=
  MenuItem.mk id name "" price "Main" None available [].

Definition plainLine (id menuItemId : string) (quantity : float) : OrderItem.t :=
  OrderItem.mk id menuItemId "" quantity 0%float [] None.

Definition orderOf (items : list OrderItem.t) : Order.t :=
  Order.mk "ord_1" None items 0%float 0%float 0%float pending
           "2024-01-01T00:00:00.000Z" "2024-01-01T00:00:00.000Z".

(** A menu with a price below one cent, and one with a price of nine
    cents. *)
Definition menu_subcent : list MenuItem.t :=
  [plainItem "mint" "Mint" 0.0047%float true].
Definition menu_ninecents : list MenuItem.t :=
  [plainItem "mint" "Mint" 0.09%float true].
Definition order_one_mint : Order.t := orderOf [plainLine "line_1" "mint" 1%float].

(** An order whose only line references no menu item. *)
Definition ghostLine : OrderItem.t := plainLine "line_1" "ghost" 1%float.
Definition order_ghost : Order.t := orderOf [ghostLine].

(** A latte with one required single-choice group. *)
Definition milkGroup : ModifierGroup.t :=
  ModifierGroup.mk "milk" "Milk" 1 1
    [ModifierOption.mk "whole" "Whole milk" 0%float true;
     ModifierOption.mk "oat" "Oat milk" 0.5%float true].
Definition latte : MenuItem.t :=
  MenuItem.mk "latte" "Latte" "" 3.5%float "Drinks" None true [milkGroup].
Definition menu_latte : list MenuItem.t := [latte].
Definition pick (groupId optionId : string) : SelectedModifier.t :=
  SelectedModifier.mk groupId optionId "" 0%float.
Definition latteLine (mods : list SelectedModifier.t) : OrderItem.t :=
  OrderItem.mk "line_1" "latte" "" 1%float 0%float mods None.

(** A selected modifier whose group id is the id of one of the menu item's
    groups. *)
Definition knownGroup (menuDef : MenuItem.t) (m : SelectedModifier.t) : bool :=
  existsb (fun g => String.eqb (ModifierGroup.id g) (SelectedModifier.groupId m))
          (MenuItem.modifierGroups menuDef).

(** [{ ...item, selectedModifiers }] *)
Definition withModifiers (mods : list SelectedModifier.t) (item : OrderItem.t)
  : OrderItem.t :=
  OrderItem.mk (OrderItem.id item) (OrderItem.menuItemId item) (OrderItem.name item)
               (OrderItem.quantity item) (OrderItem.unitPrice item) mods
               (OrderItem.specialInstructions item).

(** The line without the selections whose group id matches no group of the
    menu item it references; the order with every line so reduced. *)
Definition dropStrayItem (menu : list MenuItem.t) (item : OrderItem.t) : OrderItem.t :=
  match findMenuItem menu (OrderItem.menuItemId item) with
  | Some menuDef =>
      withModifiers (List.filter (knownGroup menuDef) (OrderItem.selectedModifiers item))
                    item
  | None => item
  end.

Definition dropStray (menu : list MenuItem.t) (order : Order.t) : Order.t :=
  withItems (List.map (dropStrayItem menu) (Order.items order)) order.

(** Whether the strings of a list are pairwise distinct. *)
Fixpoint distinct (ids : list string) : bool :=
  match ids with
  | [] => true
  | x :: rest => andb (negb (existsb (String.eqb x) rest)) (distinct rest)
  end.

(** Whether, in every item of the menu, the modifier groups have pairwise
    distinct ids. *)
Definition groupIdsDistinct (menu : list MenuItem.t) : bool :=
  forallb (fun menuDef =>
             distinct (List.map ModifierGroup.id (MenuItem.modifierGroups menuDef)))
          menu.

(** A menu item with two groups under the same id, and a line selecting
    one option under that id. *)
Definition sauceGroup (name : string) : ModifierGroup.t :=
  ModifierGroup.mk "sauce" name 0 2 [ModifierOption.mk "bbq" "BBQ" 0.5%float true].
Definition wings : MenuItem.t :=
  MenuItem.mk "wings" "Wings" "" 8%float "Main" None true
              [sauceGroup "Sauce"; sauceGroup "Extra sauce"].
Definition menu_wings : list MenuItem.t := [wings].
Definition order_wings : Order.t :=
  orderOf [OrderItem.mk "line_1" "wings" "" 1%float 0%float [pick "sauce" "bbq"] None].

(** A latte with a selection in a group the latte does not have. *)
Definition order_latte_stray : Order.t :=
  orderOf [latteLine [pick "milk" "oat"; pick "syrup" "vanilla"]].

(** The predicate of [findExisting]: the line references the matched menu
    item and has no selected modifiers. *)
Definition mergeable (matchedMenuItem : MenuItem.t) (line : OrderItem.t) : bool :=
  andb (String.eqb (OrderItem.menuItemId line) (MenuItem.id matchedMenuItem))
       (Nat.eqb (length (OrderItem.selectedModifiers line)) 0).

(** Whether a line id is already used in a list of lines. *)
Definition usedLineId (id : string) (items : list OrderItem.t) : bool :=
  existsb (String.eqb id) (List.map OrderItem.id items).

(** The effective tax rate of an order: [order.subtotal > 0 ? order.tax /
    order.subtotal : 0]. *)
Definition effectiveTaxRate (order : Order.t) : float :=
  if JS.gt0 (Order.subtotal order)
  then PrimFloat.div (Order.tax order) (Order.subtotal order) else 0%float.

(** [tax == subtotal * rate], as JavaScript compares numbers. *)
Definition taxIsSubtotalTimes (rate : float) (o : Order.t) : bool :=
  PrimFloat.eqb (Order.tax o) (PrimFloat.mul (Order.subtotal o) rate).

(** A burger and fries, a cart holding one burger at a tax rate of 8%, and
    two clock readings a minute apart. *)
Definition burger : MenuItem.t := plainItem "burger" "Burger" 10%float true.
Definition fries : MenuItem.t := plainItem "fries" "Fries" 0.99%float true.
Definition menu_burger : list MenuItem.t := [burger; fries].
Definition cart_one_burger : Order.t :=
  Order.mk "ord_1" None
           [OrderItem.mk "line_1" "burger" "Burger" 1%float 10%float [] None]
           10%float 0.8%float 10.8%float pending
           "2024-01-01T00:00:00.000Z" "2024-01-01T00:00:00.000Z".
Definition firstTurnMs : Z := 1700000000000.
Definition secondTurnMs : Z := 1700000060000.
Definition cart_after_first_turn : Order.t :=
  OrderUpdate.order
    (addItemFromText firstTurnMs "2023-11-14T22:13:20.000Z" "a burger"
                     menu_burger (orderOf [])).
Definition cart_after_second_turn : Order.t :=
  OrderUpdate.order
    (addItemFromText secondTurnMs "2023-11-14T22:14:20.000Z" "a burger"
                     menu_burger cart_after_first_turn).

(** A cart whose only line, a burger with cheese, carries the id that the
    clock reading [firstTurnMs] produces. *)
Definition cart_same_millisecond : Order.t :=
  orderOf [OrderItem.mk "line_1700000000000" "burger" "Burger" 1%float 11%float
                        [SelectedModifier.mk "cheese" "cheddar" "Cheddar" 1%float]
                        None].

(** The cart after "a burger" and then "fries", both taken at the clock
    reading [firstTurnMs]. *)
Definition cart_two_adds_one_millisecond : Order.t :=
  OrderUpdate.order
    (addItemFromText firstTurnMs "2023-11-14T22:13:20.000Z" "fries"
                     menu_burger cart_after_first_turn).

(** A catalog with a cheeseburger. *)
Definition cheeseburger : MenuItem.t :=
  plainItem "cheeseburger" "Cheeseburger" 12.5%float true.
Definition menu_cheeseburger : list MenuItem.t := [cheeseburger].

(** The quantities of the lines of the cart that [addItemFromText] returns
    for an utterance on an empty cart. *)
Definition quantitiesAfter (userText : string) : list float :=
  List.map OrderItem.quantity
    (Order.items (OrderUpdate.order
       (addItemFromText firstTurnMs "2023-11-14T22:13:20.000Z" userText
                        menu_cheeseburger (orderOf [])))).

(** A menu whose fries are unavailable, a pending cart holding them, and
    the services of a turn in which the generator announces success. *)
Definition menu_no_fries : list MenuItem.t :=
  [plainItem "fries_side" "French Fries" 4%float false].
Definition state_with_fries : ConversationState.t :=
  ConversationState.mk "conv_1" []
    (orderOf [plainLine "line_1" "fries_side" 1%float])
    "2024-01-01T00:00:00.000Z".
Definition services_cheerful : TurnServices.t :=
  TurnServices.mk (Some menu_no_fries) (Some "Your order is confirmed!").
Definition clock_sample : TurnClock.t :=
  TurnClock.mk 1700000000000 "2023-11-14T22:13:20.000Z"
               1700000000001 "2023-11-14T22:13:20.001Z"
               "2023-11-14T22:13:21.000Z"
               1700000001001 "2023-11-14T22:13:21.001Z"
               "2023-11-14T22:13:21.002Z".

(** *** The request part of an order *)

(** What a client asks for with a selection, a line and an order: the
    snapshots of names, prices and amounts are blanked. *)
Definition requestedModifier (m : SelectedModifier.t) : SelectedModifier.t :=
  SelectedModifier.mk (SelectedModifier.groupId m) (SelectedModifier.optionId m)
                      "" 0%float.

Definition requestedItem (item : OrderItem.t) : OrderItem.t :=
  OrderItem.mk (OrderItem.id item) (OrderItem.menuItemId item) ""
               (OrderItem.quantity item) 0%float
               (List.map requestedModifier (OrderItem.selectedModifiers item))
               (OrderItem.specialInstructions item).

Definition requestedOrder (order : Order.t) : Order.t :=
  Order.mk (Order.id order) (Order.customerId order)
           (List.map requestedItem (Order.items order))
           0%float 0%float 0%float
           (Order.status order) (Order.createdAt order) "".

(** The unit price the menu gives a line: the base price plus the
    adjustments of the modifiers, added in their order. *)
Definition menuPrice (menuDef : MenuItem.t) (mods : list SelectedModifier.t) : float :=
  fold_left (fun price m => PrimFloat.add price (SelectedModifier.priceAdjustment m))
            mods (MenuItem.basePrice menuDef).

(** A modifier that is the snapshot of an option of a group of the menu
    item. *)
Definition snapshotOf (menuDef : MenuItem.t) (m : SelectedModifier.t) : Prop :=
  exists g o,
    In g (MenuItem.modifierGroups menuDef)
    /\ findOption g (SelectedModifier.optionId m) = Some o
    /\ SelectedModifier.groupId m = ModifierGroup.id g
    /\ SelectedModifier.name m = ModifierOption.name o
    /\ SelectedModifier.priceAdjustment m = ModifierOption.priceAdjustment o.

(** The snapshot the validator takes of an option. *)
Definition snapshot (g : ModifierGroup.t) (o : ModifierOption.t) : SelectedModifier.t :=
  SelectedModifier.mk (ModifierGroup.id g) (ModifierOption.id o)
                      (ModifierOption.name o) (ModifierOption.priceAdjustment o).

(** What the validator keeps of a line as it is. *)
Definition lineKey (item : OrderItem.t)
  : string * string * float * option string :=
  (OrderItem.id item, OrderItem.menuItemId item, OrderItem.quantity item,
   OrderItem.specialInstructions item).

Definition itemFound (menu : list MenuItem.t) (item : OrderItem.t) : bool :=
  match findMenuItem menu (OrderItem.menuItemId item) with
  | Some _ => true
  | None => false
  end.

(** An error that names a line of the order and carries one of the four
    codes the validator uses. *)
Definition errorAbout (item : OrderItem.t) (e : ValidationError.t) : Prop :=
  ValidationError.itemId e = Some (OrderItem.id item)
  /\ ValidationError.menuItemId e = Some (OrderItem.menuItemId item)
  /\ ValidationError.code e <> PRICE_MISMATCH.

(** A latte line with one selection, and lattes whose oat milk is
    unavailable. *)
Definition milkGroupNoOat : ModifierGroup.t :=
  ModifierGroup.mk "milk" "Milk" 1 1
    [ModifierOption.mk "whole" "Whole milk" 0%float true;
     ModifierOption.mk "oat" "Oat milk" 0.5%float false].
Definition latteNoOat : MenuItem.t :=
  MenuItem.mk "latte" "Latte" "" 3.5%float "Drinks" None true [milkGroupNoOat].
Definition tamperedLatteLine : OrderItem.t :=
  OrderItem.mk "line_1" "latte" "Free latte" 2%float 0.01%float
               [SelectedModifier.mk "milk" "oat" "Oat" (-3)%float] (Some "extra hot").

(** *** The mutator *)

(** A text of ASCII characters: every character code is below 128. *)
Definition asciiText (s : string) : bool :=
  forallb (fun c => (nat_of_ascii c <? 128)%nat) (Str.chars s).

(** A catalog whose item names are ASCII texts. *)
Definition asciiCatalog (menu : list MenuItem.t) : bool :=
  forallb (fun item => asciiText (MenuItem.name item)) menu.

(** Whether a token of the text is [constructor], the one name of an
    inherited property of the number table that a token can spell (tokens
    are made of [a-z0-9]). *)
Definition namesInheritedKey (normalizedText : string) : bool :=
  existsb (String.eqb "constructor") (Str.tokens normalizedText).

(** Whether an utterance matches a catalog entry, as [addItemFromText]
    tests it. *)
Definition utteranceMatches (userText : string) (item : MenuItem.t) : bool :=
  matchesMenuItem (Str.toLowerCase userText) (MenuItem.name item).

(** A line without its quantity. *)
Definition lineWithoutQuantity (item : OrderItem.t)
  : string * string * string * float * list SelectedModifier.t * option string :=
  (OrderItem.id item, OrderItem.menuItemId item, OrderItem.name item,
   OrderItem.unitPrice item, OrderItem.selectedModifiers item,
   OrderItem.specialInstructions item).

(** [q < 1], as JavaScript compares numbers. *)
Definition belowOne (q : float) : bool := PrimFloat.ltb q 1%float.

(** *** The orchestrator *)

(** The menu of a turn: the fetched one, or the empty menu when the fetch
    failed. *)
Definition turnMenu (services : TurnServices.t) : list MenuItem.t :=
  default [] (TurnServices.fetchMenu services).

(** The order after the turn's opportunistic update. *)
Definition turnUpdate (clock : TurnClock.t) (services : TurnServices.t)
           (state : ConversationState.t) (userText : string) : OrderUpdate.t :=
  addItemFromText (TurnClock.lineMs clock) (TurnClock.orderUpdatedIso clock)
                  userText (turnMenu services) (ConversationState.currentOrder state).

(** The guardrail's validation: of the order the turn started with. *)
Definition turnValidation (clock : TurnClock.t) (services : TurnServices.t)
           (state : ConversationState.t) : ValidationResult.t :=
  validateOrder (TurnClock.validationIso clock)
                (ConversationState.currentOrder state) (turnMenu services).

(** Whether the turn asks to finalize a pending order. *)
Definition finalizeRequested (state : ConversationState.t) (userText : string) : bool :=
  andb (OrderStatus_eqb (Order.status (ConversationState.currentOrder state)) pending)
       (finalizeIntent userText).

(** The two turns that a resolved call appends. *)
Definition userTurnOf (clock : TurnClock.t) (userText : string) : ConversationTurn.t :=
  ConversationTurn.mk ("turn_" +:+ JS.showZ (TurnClock.userTurnMs clock) +:+ "_user")
                      user userText (TurnClock.userTurnIso clock) None.

Definition assistantTurnOf (clock : TurnClock.t) (content : string)
           (metadata : Metadata.t) : ConversationTurn.t :=
  ConversationTurn.mk ("turn_" +:+ JS.showZ (TurnClock.assistantTurnMs clock) +:+ "_ai")
                      assistant content (TurnClock.assistantTurnIso clock)
                      (Some metadata).

(** An empty pending cart, a menu whose fries are unavailable, and a turn
    that asks for them and to confirm in one breath. *)
Definition state_empty_cart : ConversationState.t :=
  ConversationState.mk "conv_1" [] (orderOf []) "2024-01-01T00:00:00.000Z".
Definition menu_fries_out : list MenuItem.t :=
  [plainItem "fries" "Fries" 4%float false].
Definition services_fries_out : TurnServices.t :=
  TurnServices.mk (Some menu_fries_out) (Some "Adding fries and confirming.").
Definition services_offline : TurnServices.t :=
  TurnServices.mk None (Some "Sure.").

(** *** The submission client *)

(** An answer that the client retries while the budget lasts: a response
    that is not ok with a status of 500 or more or 429; a rejection with a
    network error; an ok response whose body fails to parse with a network
    error; or a response, ok or not, whose body is [null]. *)
Definition retryable (outcome : FetchOutcome) : bool :=
  match outcome with
  | Rejected error => isNetworkError error
  | Responded response =>
      if Response.ok response then
        match Response.json response with
        | inr error => isNetworkError error
        | inl JsonNull => true
        | inl (JsonFields _) => false
        end
      else
        match errorBodyOf response with
        | JsonNull => true
        | JsonFields _ =>
            orb (500 <=? Response.status response) (Response.status response =? 429)
        end
  end.

(** The result that an answer settles into when it is not retried. *)
Definition settle (outcome : FetchOutcome) : SubmissionResult :=
  match outcome with
  | Rejected error => networkFailure error
  | Responded response =>
      if Response.ok response then
        match Response.json response with
        | inr error => networkFailure error
        | inl JsonNull => networkFailure (nullRead "confirmationId")
        | inl (JsonFields data) =>
            match truthyString (Json.confirmationId data) with
            | None =>
                Failure (ApiError.mk "INVALID_RESPONSE"
                           "External API did not return a confirmation ID." None)
            | Some confirmationId =>
                Success (SubmissionData.mk confirmationId
                           match Json.estimatedWaitTimeMinutes data with
                           | Some w => if w =? 0 then 15 else w
                           | None => 15
                           end)
            end
        end
      else
        match errorBodyOf response with
        | JsonNull => networkFailure (nullRead "message")
        | JsonFields errorBody => httpFailure response errorBody
        end
  end.

(** The delays of [n] retries in a row, the first one being [d]. *)
Fixpoint delaysFrom (d : Z) (n : nat) : list Z :=
  match n with
  | O => []
  | S n' => d :: delaysFrom (d * RetryConfig.backoffFactor RETRY_CONFIG) n'
  end.

(** The code of a result, when it is a failure. *)
Definition failureCode (result : SubmissionResult) : option string :=
  match result with
  | Failure error => Some (ApiError.code error)
  | Success _ => None
  end.

(** Answers: a rejected payment, a success without confirmation id, a
    bad request and a server error whose body is [null], a dropped
    connection, and an endpoint that never connects. *)
Definition response402 : Response.t :=
  Response.mk 402 "Payment Required"
              (inl (JsonFields (Json.mk (Some "Card declined") None None))).
Definition responseNoId : Response.t :=
  Response.mk 200 "OK" (inl (JsonFields (Json.mk None None (Some 10)))).
Definition response400Null : Response.t :=
  Response.mk 400 "Bad Request" (inl JsonNull).
Definition response503Null : Response.t :=
  Response.mk 503 "Service Unavailable" (inl JsonNull).
Definition endpoint_down_null (call : nat) : FetchOutcome :=
  Responded response503Null.
Definition connectionRefused : Thrown.t :=
  Thrown.mk "TypeError" (Some "fetch failed").
Definition endpoint_unreachable (call : nat) : FetchOutcome :=
  Rejected connectionRefused.

(** *** The menu summary and the form *)

(** The strings of a list without their repetitions, in the order of first
    appearance. *)
Definition firstOccurrences (l : list string) : list string :=
  fold_left (fun seen x => if existsb (String.eqb x) seen then seen else seen ++ [x])
            l [].

(** The summary entries of the items of a category, in menu order. *)
Definition entriesOf (showNumber : float -> string) (category : string)
           (menu : list MenuItem.t) : list string :=
  List.map (summaryEntry showNumber)
           (List.filter (fun item => String.eqb (categoryOf item) category) menu).

(** What the form shows of a line. *)
Definition postedFields (item : OrderItem.t) : string * float :=
  (OrderItem.menuItemId item, OrderItem.quantity item).

(** A rendering of numbers for the samples: the text of the integer part
    of a positive number. *)
Definition showWhole (x : float) : string :=
  match Prim2SF x with
  | S754_finite false m e =>
      JS.showZ (if 0 <=? e then Z.pos m * 2 ^ e else Z.pos m / 2 ^ (- e))
  | _ => "0"
  end.

Definition menu_eight_drinks : list MenuItem.t :=
  List.map (fun name => MenuItem.mk name name "" 2.5%float "Drinks" None true [])
           ["Cola"; "Soda"; "Tea"; "Mate"; "Milk"; "Juice"; "Water"; "Beer"]
  ++ [MenuItem.mk "flan" "Flan" "" 3%float "" None true []].

(** *** The routes *)

(** A body that the order route lets through to the submission: an order
    with lines that validates against [CURRENT_MENU]. *)
Definition acceptableBody (now : string) (request : OrderRequest) : bool :=
  match request with
  | BodyOrder order =>
      andb (negb (Nat.eqb (length (Order.items order)) 0))
           (ValidationResult.isValid (validateOrder now order CURRENT_MENU))
  | _ => false
  end.

Definition succeeded (run : option Run.t) : bool :=
  match run with
  | Some (Run.mk (Success _) _ _) => true
  | _ => false
  end.

(** A burger with cheddar, as a client posts it, and a service that
    accepts at once. *)
Definition body_burger : Order.t :=
  orderOf [OrderItem.mk "line_1" "burger_classic" "" 2%float 0%float
                        [pick "cheese_group" "cheddar"] None].
Definition service_accepts : Fulfillment :=
  fun _ _ => Responded responseAccepted.
Definition services_silent : TurnServices.t :=
  TurnServices.mk (Some menu_burger) None.
Definition blankMessage : string := "   ".

(** *** The menu client *)

(** Why a request for the menu failed, as far as the error code tells. *)
Inductive MenuFailureCause : Type :=
| Unreachable       (* [fetch] rejected *)
| UpstreamStatus    (* the answer was not [ok] *)
| UnreadableBody    (* [response.json()] rejected *)
| UnknownFormat     (* the payload has none of the known shapes *)
| BrokenPayload.    (* reading the payload threw *)

Definition causeOf (showNumber : float -> string) (parseNumber : string -> float)
           (network : MenuNetwork) : option MenuFailureCause :=
  match network with
  | NetworkRejected => Some Unreachable
  | NetworkAnswered response =>
      if MenuResponse.ok response then
        match MenuResponse.json response with
        | None => Some UnreadableBody
        | Some json =>
            match normalizeMenuPayload showNumber parseNumber json with
            | Returned _ => None
            | Threw (RaisedMenuFetchError _) => Some UnknownFormat
            | Threw RaisedOther => Some BrokenPayload
            end
        end
      else Some UpstreamStatus
  end.

Definition codeOfCause (cause : MenuFailureCause) : string :=
  match cause with
  | Unreachable | UnreadableBody | BrokenPayload => "NETWORK_ERROR"
  | UpstreamStatus => "HTTP_ERROR"
  | UnknownFormat => "INVALID_FORMAT"
  end.

Definition statusOfCause (cause : MenuFailureCause) : Z :=
  match cause with
  | Unreachable | UnreadableBody | BrokenPayload => 503
  | UpstreamStatus => 502
  | UnknownFormat => 500
  end.

Definition lineFound (menu : list MenuItem.t) (item : OrderItem.t) : bool :=
  match findMenuItem menu (OrderItem.menuItemId item) with
  | Some _ => true
  | None => false
  end.

(** A payload of one category with two plates, a number parser for it,
    and answers of the menu API. *)
Definition drinks : CategoryPayload.t :=
  CategoryPayload.mk (IdNumber 1%float) "Drinks" None None
    (Some [PlatePayload.mk (IdText "mate") "Mate" None (PriceText "3.5") None;
           PlatePayload.mk (IdText "agua") "Agua" None PriceAbsent None]).
Definition parseSample (s : string) : float :=
  if String.eqb s "3.5" then 3.5%float else 0%float.
Definition answerDrinks : MenuNetwork :=
  NetworkAnswered (MenuResponse.mk true 200 "OK"
                     (Some (PayloadObject None (Some [drinks]) None))).
Definition answerGarbled : MenuNetwork :=
  NetworkAnswered (MenuResponse.mk true 200 "OK" None).
Definition staleEntry : CacheEntry.t := CacheEntry.mk menu_burger 0.
Definition order_mate : Order.t :=
  orderOf [OrderItem.mk "line_1" "mate" "" 2%float 0%float
                        [pick "milk" "oat"] None].

(*PROPERTIES*)

(** * Properties *)

(** ** Submission retry policy *)

Lemma attemptStep_transient_retry (attempt : nat) (r : Response.t) :
  transientResponse r = true ->
  (attempt < RetryConfig.maxRetries RETRY_CONFIG)%nat ->
  attemptStep attempt (Responded r) = Retry.
Proof.
  unfold transientResponse, attemptStep. intros Ht Hlt.
  apply andb_prop in Ht as [Hok Hst]. rewrite Hok, Hst.
  apply Nat.ltb_lt in Hlt. rewrite Hlt. reflexivity.
Qed.

Lemma attemptStep_transient_exhausted (r : Response.t) :
  transientResponse r = true ->
  attemptStep (RetryConfig.maxRetries RETRY_CONFIG) (Responded r)
  = Return (match errorBodyOf r with
            | JsonNull => networkFailure (nullRead "message")
            | JsonFields errorBody => httpFailure r errorBody
            end).
Proof.
  unfold transientResponse, attemptStep. intros Ht.
  apply andb_prop in Ht as [Hok Hst]. rewrite Hok, Hst.
  now destruct (errorBodyOf r).
Qed.

Lemma attemptStep_accepted (attempt : nat) (r : Response.t) (cid : string) :
  acceptedResponse r cid ->
  exists data, attemptStep attempt (Responded r) = Return (Success data)
               /\ SubmissionData.confirmationId data = cid.
Proof.
  intros [Hok (data & Hjson & Hcid)]. unfold attemptStep.
  rewrite Hok, Hjson, Hcid. simpl. eexists. split; reflexivity.
Qed.

(** The loop never runs out of fuel: every pass either returns or advances
    the counter, and the counter is bounded by the retry budget. *)
Lemma submitLoop_total (endpoint : nat -> FetchOutcome) :
  forall fuel attempt delay sleeps,
    (0 < fuel)%nat ->
    (RetryConfig.maxRetries RETRY_CONFIG + 2 <= fuel + attempt)%nat ->
    exists run, submitLoop fuel endpoint attempt delay sleeps = Some run.
Proof.
  induction fuel as [|fuel IH]; intros attempt delay sleeps Hpos Hfuel; [lia|].
  simpl. destruct (attempt <=? 3)%nat eqn:Hle.
  - destruct (attemptStep attempt (endpoint attempt)).
    + eexists; reflexivity.
    + apply Nat.leb_le in Hle. simpl in Hfuel. apply IH; simpl; lia.
  - eexists; reflexivity.
Qed.

Lemma submitOrder_total (url : string) (endpoint : nat -> FetchOutcome)
      (order : Order.t) :
  exists run, submitOrder url endpoint order = Some run.
Proof.
  unfold submitOrder, submitOrderFuel.
  destruct (negb (nonEmpty url)).
  - eexists; reflexivity.
  - apply submitLoop_total; simpl; lia.
Qed.

(** C3.  With a configured endpoint that answers the first three calls
    with a transient (503-equivalent) response: if the fourth call is
    accepted, the run is a success with the confirmation id of that answer;
    if the fourth call is transient too, the run is a failure, the HTTP
    failure built from that response, with the code [HTTP_<status>], or,
    when the body of that response is [null], a failure with the code
    [NETWORK_ERROR].  In both cases the client made four calls and slept
    three times, each delay being the one before multiplied by the backoff
    factor. *)
Theorem submitOrder_retry_budget (url : string) (endpoint : nat -> FetchOutcome)
        (order : Order.t) (r0 r1 r2 r3 : Response.t) :
  nonEmpty url = true ->
  endpoint 0%nat = Responded r0 -> transientResponse r0 = true ->
  endpoint 1%nat = Responded r1 -> transientResponse r1 = true ->
  endpoint 2%nat = Responded r2 -> transientResponse r2 = true ->
  endpoint 3%nat = Responded r3 ->
  (forall cid, acceptedResponse r3 cid ->
     exists data,
       submitOrder url endpoint order = Some (Run.mk (Success data) backoffDelays 4)
       /\ SubmissionData.confirmationId data = cid)
  /\ (transientResponse r3 = true ->
      exists error,
        submitOrder url endpoint order
        = Some (Run.mk (Failure error) backoffDelays 4)
        /\ match errorBodyOf r3 with
           | JsonFields errorBody =>
               Failure error = httpFailure r3 errorBody
               /\ ApiError.code error = "HTTP_" +:+ JS.showZ (Response.status r3)
           | JsonNull => ApiError.code error = "NETWORK_ERROR"
           end).
Proof.
  intros Hurl E0 T0 E1 T1 E2 T2 E3.
  assert (Hpre : forall step,
             attemptStep 3 (Responded r3) = Return step ->
             submitOrder url endpoint order = Some (Run.mk step backoffDelays 4)).
  { intros step Hstep. unfold submitOrder, submitOrderFuel. rewrite Hurl. simpl.
    rewrite E0, (attemptStep_transient_retry 0 r0 T0) by (simpl; lia). simpl.
    rewrite E1, (attemptStep_transient_retry 1 r1 T1) by (simpl; lia). simpl.
    rewrite E2, (attemptStep_transient_retry 2 r2 T2) by (simpl; lia). simpl.
    rewrite E3, Hstep. reflexivity. }
  split.
  - intros cid Hacc.
    destruct (attemptStep_accepted 3 r3 cid Hacc) as (data & Hstep & Hcid).
    exists data. split; [now apply Hpre | exact Hcid].
  - intros T3. pose proof (Hpre _ (attemptStep_transient_exhausted r3 T3)) as Hrun.
    destruct (errorBodyOf r3) as [|errorBody].
    + eexists. split; [exact Hrun | reflexivity].
    + eexists. split; [exact Hrun |]. split; reflexivity.
Qed.

Lemma submitOrder_retry_budget_witness :
  (exists data,
      submitOrder posUrl endpoint_recovers (orderOf [])
      = Some (Run.mk (Success data) [1000; 2000; 4000] 4)
      /\ SubmissionData.confirmationId data = "conf_42")
  /\ submitOrder posUrl endpoint_down (orderOf [])
     = Some (Run.mk (Failure (ApiError.mk "HTTP_503" "Kitchen offline"
                                (Some (Json.mk (Some "Kitchen offline") None None))))
                    [1000; 2000; 4000] 4)
  /\ (exists error,
        submitOrder posUrl endpoint_down_null (orderOf [])
        = Some (Run.mk (Failure error) [1000; 2000; 4000] 4)
        /\ ApiError.code error = "NETWORK_ERROR").
Proof.
  split; [|split].
  - destruct (submitOrder_retry_budget posUrl endpoint_recovers (orderOf [])
                response503 response503 response503 responseAccepted
                eq_refl eq_refl eq_refl eq_refl eq_refl eq_refl eq_refl eq_refl)
      as [Haccepted _].
    apply (Haccepted "conf_42").
    split; [reflexivity|]. eexists. split; reflexivity.
  - destruct (submitOrder_retry_budget posUrl endpoint_down (orderOf [])
                response503 response503 response503 response503
                eq_refl eq_refl eq_refl eq_refl eq_refl eq_refl eq_refl eq_refl)
      as [_ Hdown].
    destruct (Hdown eq_refl) as (error & Hrun & Hfailure & _).
    rewrite Hrun. now rewrite Hfailure.
  - destruct (submitOrder_retry_budget posUrl endpoint_down_null (orderOf [])
                response503Null response503Null response503Null response503Null
                eq_refl eq_refl eq_refl eq_refl eq_refl eq_refl eq_refl eq_refl)
      as [_ Hdown].
    destruct (Hdown eq_refl) as (error & Hrun & Hcode).
    exists error. split; [exact Hrun | exact Hcode].
Defined.

(** ** The validator: how the loops compose *)

(** The [Map] built from a line's selections holds, under a group id, the
    option ids selected in that group, in order. *)
Lemma userSelections_fold (gid : string) :
  forall (mods : list SelectedModifier.t) (m0 : gmap string (list string)),
    default [] (fold_left
                  (fun (m : gmap string (list string)) (modifier : SelectedModifier.t) =>
                     let existing := default [] (m !! SelectedModifier.groupId modifier) in
                     <[SelectedModifier.groupId modifier :=
                         existing ++ [SelectedModifier.optionId modifier]]> m)
                  mods m0 !! gid)
    = default [] (m0 !! gid)
      ++ List.map SelectedModifier.optionId
           (List.filter (fun m => String.eqb (SelectedModifier.groupId m) gid) mods).
Proof.
  induction mods as [|x mods IH]; intros m0; simpl.
  - now rewrite app_nil_r.
  - rewrite IH. destruct (String.eqb_spec (SelectedModifier.groupId x) gid) as [->|Hne].
    + rewrite lookup_insert_eq. simpl. now rewrite <- app_assoc.
    + rewrite lookup_insert_ne by exact Hne. reflexivity.
Qed.

Lemma userSelections_lookup (item : OrderItem.t) (gid : string) :
  default [] (userSelectionsByGroup (OrderItem.selectedModifiers item) !! gid)
  = selectionsFor item gid.
Proof.
  unfold userSelectionsByGroup, selectionsFor.
  rewrite userSelections_fold. now rewrite lookup_empty.
Qed.

(** Case analysis on the two cardinality tests of a pass of the group
    loop. *)
Ltac case_bounds g :=
  destruct (_ <? ModifierGroup.minSelection g);
  destruct (ModifierGroup.maxSelection g <? _).

(** Framing commutes with every pass: what a pass pushes does not depend on
    what the arrays already hold. *)
Lemma pushError_frame E M e st :
  pushError e (frameLine E M st) = frameLine E M (pushError e st).
Proof. unfold pushError, frameLine. simpl. now rewrite app_assoc. Qed.

Lemma optionStep_frame item group E M st optionId :
  optionStep item group (frameLine E M st) optionId
  = frameLine E M (optionStep item group st optionId).
Proof.
  unfold optionStep. destruct (findOption group optionId) as [optionDef|].
  - destruct (ModifierOption.isAvailable optionDef);
      unfold frameLine, pushError; simpl; now rewrite <- ?app_assoc.
  - apply pushError_frame.
Qed.

Lemma fold_optionStep_frame item group E M :
  forall ids st,
    fold_left (optionStep item group) ids (frameLine E M st)
    = frameLine E M (fold_left (optionStep item group) ids st).
Proof.
  induction ids as [|o ids IH]; intros st; simpl; [reflexivity|].
  now rewrite optionStep_frame, IH.
Qed.

Lemma groupStep_frame item selections E M st group :
  groupStep item selections (frameLine E M st) group
  = frameLine E M (groupStep item selections st group).
Proof.
  unfold groupStep.
  case_bounds group; rewrite ?pushError_frame; apply fold_optionStep_frame.
Qed.

Lemma fold_groupStep_frame item selections E M :
  forall groups st,
    fold_left (groupStep item selections) groups (frameLine E M st)
    = frameLine E M (fold_left (groupStep item selections) groups st).
Proof.
  induction groups as [|g groups IH]; intros st; simpl; [reflexivity|].
  now rewrite groupStep_frame, IH.
Qed.

Lemma frameLine_self st :
  st = frameLine (LineState.errors st) (LineState.validatedModifiers st)
                 (LineState.mk [] (LineState.currentUnitPrice st) []).
Proof. destruct st. unfold frameLine. simpl. now rewrite !app_nil_r. Qed.

Lemma validateModifiers_frame errors item menuDef :
  validateModifiers errors item menuDef
  = frameLine errors [] (validateModifiers [] item menuDef).
Proof.
  unfold validateModifiers.
  rewrite <- fold_groupStep_frame. unfold frameLine. simpl.
  now rewrite app_nil_r.
Qed.

(** What a pass pushes does not depend on the running unit price either. *)

Lemma optionStep_sameArrays item group a b optionId :
  sameArrays a b ->
  sameArrays (optionStep item group a optionId) (optionStep item group b optionId).
Proof.
  intros [He Hm]. unfold optionStep, sameArrays.
  destruct (findOption group optionId) as [optionDef|]; simpl.
  - destruct (ModifierOption.isAvailable optionDef); simpl; now rewrite He, Hm.
  - now rewrite He, Hm.
Qed.

Lemma fold_optionStep_sameArrays item group :
  forall ids a b,
    sameArrays a b ->
    sameArrays (fold_left (optionStep item group) ids a)
               (fold_left (optionStep item group) ids b).
Proof.
  induction ids as [|o ids IH]; intros a b H; simpl; [exact H|].
  apply IH. now apply optionStep_sameArrays.
Qed.

Lemma groupStep_sameArrays item selections a b group :
  sameArrays a b ->
  sameArrays (groupStep item selections a group) (groupStep item selections b group).
Proof.
  intros [He Hm]. unfold groupStep.
  apply fold_optionStep_sameArrays.
  case_bounds group; unfold sameArrays, pushError; simpl; now rewrite He, Hm.
Qed.

(** One pass of the group loop, from any state. *)
Lemma groupStep_delta item (st : LineState.t) group :
  let st' := groupStep item (userSelectionsByGroup (OrderItem.selectedModifiers item))
                       st group in
  LineState.errors st' = LineState.errors st ++ groupErrors item group
  /\ LineState.validatedModifiers st'
     = LineState.validatedModifiers st ++ groupModifiers item group.
Proof.
  set (sel := userSelectionsByGroup (OrderItem.selectedModifiers item)).
  assert (H : groupStep item sel st group
              = frameLine (LineState.errors st) (LineState.validatedModifiers st)
                  (groupStep item sel
                     (LineState.mk [] (LineState.currentUnitPrice st) []) group)).
  { rewrite <- groupStep_frame. now rewrite <- frameLine_self. }
  destruct (groupStep_sameArrays item sel
              (LineState.mk [] (LineState.currentUnitPrice st) [])
              (LineState.mk [] 0%float []) group) as [He Hm];
    [split; reflexivity|].
  cbv zeta. rewrite H. unfold frameLine. cbn [LineState.errors LineState.validatedModifiers].
  unfold groupErrors, groupModifiers, groupPass. fold sel. now rewrite He, Hm.
Qed.

Lemma fold_groupStep_delta item :
  forall groups (st : LineState.t),
    let st' := fold_left
                 (groupStep item (userSelectionsByGroup (OrderItem.selectedModifiers item)))
                 groups st in
    LineState.errors st' = LineState.errors st ++ flat_map (groupErrors item) groups
    /\ LineState.validatedModifiers st'
       = LineState.validatedModifiers st ++ flat_map (groupModifiers item) groups.
Proof.
  induction groups as [|g groups IH]; intros st; simpl.
  - now rewrite !app_nil_r.
  - destruct (IH (groupStep item
                    (userSelectionsByGroup (OrderItem.selectedModifiers item)) st g))
      as [He Hm].
    destruct (groupStep_delta item st g) as [He1 Hm1]. simpl in *.
    rewrite He, Hm, He1, Hm1. now rewrite <- !app_assoc.
Qed.

(** The errors and the modifiers of a line, group by group. *)
Lemma validateModifiers_errors errors item menuDef :
  LineState.errors (validateModifiers errors item menuDef)
  = errors ++ flat_map (groupErrors item) (MenuItem.modifierGroups menuDef).
Proof.
  unfold validateModifiers.
  now destruct (fold_groupStep_delta item (MenuItem.modifierGroups menuDef)
                  (LineState.mk errors (MenuItem.basePrice menuDef) [])) as [-> _].
Qed.

Lemma validateModifiers_modifiers errors item menuDef :
  LineState.validatedModifiers (validateModifiers errors item menuDef)
  = flat_map (groupModifiers item) (MenuItem.modifierGroups menuDef).
Proof.
  unfold validateModifiers.
  now destruct (fold_groupStep_delta item (MenuItem.modifierGroups menuDef)
                  (LineState.mk errors (MenuItem.basePrice menuDef) [])) as [_ ->].
Qed.

Lemma validatedItemOf_errors_irrelevant errors item menuDef :
  validatedItemOf item menuDef (validateModifiers errors item menuDef)
  = validatedItemOf item menuDef (validateModifiers [] item menuDef).
Proof.
  rewrite (validateModifiers_frame errors). reflexivity.
Qed.

Lemma validateModifiers_price errors item menuDef :
  LineState.currentUnitPrice (validateModifiers errors item menuDef)
  = LineState.currentUnitPrice (validateModifiers [] item menuDef).
Proof.
  rewrite (validateModifiers_frame errors). reflexivity.
Qed.

(** One pass of the item loop, from any state. *)
Lemma itemStep_delta menu (st : LoopState.t) item :
  itemStep menu st item
  = LoopState.mk (LoopState.errors st ++ itemErrors menu item)
                 (LoopState.validatedItems st ++ itemValidated menu item)
                 (subtotalFrom (LoopState.calculatedSubtotal st)
                               (itemValidated menu item)).
Proof.
  unfold itemErrors, itemValidated, itemStep.
  destruct (findMenuItem menu (OrderItem.menuItemId item)) as [menuDef|]; simpl;
    [|now rewrite app_nil_r].
  rewrite !validateModifiers_errors.
  rewrite (validatedItemOf_errors_irrelevant
             (if MenuItem.isAvailable menuDef then LoopState.errors st
              else LoopState.errors st ++ [errItemUnavailable item menuDef])).
  rewrite (validatedItemOf_errors_irrelevant
             (if MenuItem.isAvailable menuDef then []
              else [errItemUnavailable item menuDef])).
  destruct (MenuItem.isAvailable menuDef); simpl; rewrite <- ?app_assoc;
    rewrite (validateModifiers_price (LoopState.errors st)) ||
    rewrite (validateModifiers_price (LoopState.errors st ++ _)),
            (validateModifiers_price [_]);
    reflexivity.
Qed.

Lemma subtotalFrom_app s xs ys :
  subtotalFrom s (xs ++ ys) = subtotalFrom (subtotalFrom s xs) ys.
Proof. unfold subtotalFrom. apply fold_left_app. Qed.

Lemma fold_itemStep_delta menu :
  forall items (st : LoopState.t),
    fold_left (itemStep menu) items st
    = LoopState.mk (LoopState.errors st ++ flat_map (itemErrors menu) items)
                   (LoopState.validatedItems st ++ flat_map (itemValidated menu) items)
                   (subtotalFrom (LoopState.calculatedSubtotal st)
                                 (flat_map (itemValidated menu) items)).
Proof.
  induction items as [|item items IH]; intros st; simpl.
  - destruct st; simpl. now rewrite !app_nil_r.
  - rewrite IH, itemStep_delta. simpl.
    now rewrite <- !app_assoc, subtotalFrom_app.
Qed.

(** [validateOrder] in closed form: the errors and the validated lines are
    the concatenation of what each line contributes, and the three amounts
    are roundings of the running subtotal of the validated lines. *)
Lemma validateOrder_closed_form now order menu :
  let E := flat_map (itemErrors menu) (Order.items order) in
  let V := flat_map (itemValidated menu) (Order.items order) in
  let sum := sumLines V in
  validateOrder now order menu
  = ValidationResult.mk
      (Nat.eqb (length E) 0) E
      (Order.mk (Order.id order) (Order.customerId order) V
                (JS.round2 sum)
                (JS.round2 (PrimFloat.mul sum TAX_RATE))
                (JS.round2 (PrimFloat.add sum (PrimFloat.mul sum TAX_RATE)))
                (Order.status order) (Order.createdAt order) now).
Proof.
  simpl. unfold validateOrder. rewrite fold_itemStep_delta. reflexivity.
Qed.

Lemma itemStep_not_found menu item :
  findMenuItem menu (OrderItem.menuItemId item) = None ->
  itemErrors menu item = [errItemNotFound item] /\ itemValidated menu item = [].
Proof.
  intros H. unfold itemErrors, itemValidated, itemStep. rewrite H. now split.
Qed.

Lemma itemStep_found menu item menuDef :
  findMenuItem menu (OrderItem.menuItemId item) = Some menuDef ->
  itemErrors menu item
  = availabilityErrors item menuDef
    ++ flat_map (groupErrors item) (MenuItem.modifierGroups menuDef)
  /\ itemValidated menu item
     = [validatedItemOf item menuDef (validateModifiers [] item menuDef)].
Proof.
  intros H. unfold itemErrors, itemValidated, itemStep, availabilityErrors.
  rewrite H. cbn [LoopState.errors LoopState.validatedItems LoopState.init].
  rewrite validateModifiers_errors, validatedItemOf_errors_irrelevant.
  destruct (MenuItem.isAvailable menuDef); now split.
Qed.

(** ** Totals *)

(** C1, as the code has it.  In the order that [validateOrder] returns,
    with [sum] the running sum of [unitPrice * quantity] over the returned
    lines: [subtotal] is [sum] rounded to two decimals, [tax] is
    [sum * 0.08] rounded to two decimals, and [total] is [sum + sum * 0.08]
    rounded to two decimals.  Each amount is rounded on its own from the unrounded
    figures; [total] is not computed from the rounded [subtotal] and
    [tax]. *)
Theorem validateOrder_totals now order menu :
  let o := ValidationResult.validatedOrder (validateOrder now order menu) in
  let sum := sumLines (Order.items o) in
  Order.subtotal o = JS.round2 sum
  /\ Order.tax o = JS.round2 (PrimFloat.mul sum TAX_RATE)
  /\ Order.total o = JS.round2 (PrimFloat.add sum (PrimFloat.mul sum TAX_RATE)).
Proof.
  rewrite validateOrder_closed_form. cbn. repeat split.
Qed.

(** C1 fails as stated.  One mint at 0.0047: the subtotal 0.0047 and the
    tax 0.000376 both round to 0.00, their sum 0.005076 rounds to 0.01. *)
Lemma validateOrder_total_differs :
  let o := ValidationResult.validatedOrder
             (validateOrder "2024-01-01T00:00:01.000Z" order_one_mint menu_subcent) in
  Order.subtotal o = 0%float /\ Order.tax o = 0%float /\ Order.total o = 0.01%float
  /\ totalIsSubtotalPlusTax o = false.
Proof. vm_compute. repeat split. Qed.

(** The same with a price in whole cents: at 0.09 the total is 0.1, while
    the binary64 sum of the subtotal 0.09 and the tax 0.01 is the next
    value below 0.1. *)
Example validateOrder_total_differs_cents :
  let o := ValidationResult.validatedOrder
             (validateOrder "2024-01-01T00:00:01.000Z" order_one_mint menu_ninecents) in
  Order.subtotal o = 0.09%float /\ Order.tax o = 0.01%float /\ Order.total o = 0.1%float
  /\ totalIsSubtotalPlusTax o = false.
Proof. vm_compute. repeat split. Qed.

(** ** Lines whose menu item is missing *)

Lemma validateOrder_errors now order menu :
  ValidationResult.errors (validateOrder now order menu)
  = flat_map (itemErrors menu) (Order.items order).
Proof. now rewrite validateOrder_closed_form. Qed.

(** C4, as the code has it.  A line whose menu item id is not in the menu
    contributes exactly the item-not-found error, between the errors of the
    lines before it and those of the lines after it; the order is invalid;
    and the line is left out of the returned order, which is the one
    returned for the same order without that line. *)
Theorem validateOrder_item_not_found now order menu pre line post :
  Order.items order = pre ++ line :: post ->
  findMenuItem menu (OrderItem.menuItemId line) = None ->
  let r := validateOrder now order menu in
  ValidationResult.errors r
  = ValidationResult.errors (validateOrder now (withItems pre order) menu)
    ++ [errItemNotFound line]
    ++ ValidationResult.errors (validateOrder now (withItems post order) menu)
  /\ ValidationResult.isValid r = false
  /\ ValidationResult.validatedOrder r
     = ValidationResult.validatedOrder
         (validateOrder now (withItems (pre ++ post) order) menu).
Proof.
  intros Hitems Hfind.
  destruct (itemStep_not_found menu line Hfind) as [HE HV].
  rewrite !validateOrder_closed_form. cbn. rewrite Hitems.
  rewrite !flat_map_app. cbn. rewrite HE, HV. cbn.
  repeat split.
  rewrite !length_app. cbn. apply Nat.eqb_neq. lia.
Qed.

Lemma validateOrder_item_not_found_witness :
  findMenuItem menu_subcent (OrderItem.menuItemId ghostLine) = None
  /\ ValidationResult.errors
       (validateOrder "2024-01-01T00:00:01.000Z" order_ghost menu_subcent)
     = [errItemNotFound ghostLine]
  /\ Order.items (ValidationResult.validatedOrder
                    (validateOrder "2024-01-01T00:00:01.000Z" order_ghost menu_subcent))
     = [].
Proof.
  split; [reflexivity|].
  destruct (validateOrder_item_not_found "2024-01-01T00:00:01.000Z"
              order_ghost menu_subcent [] ghostLine [] eq_refl eq_refl)
    as (HE & _ & HV).
  split; [exact HE | now rewrite HV].
Defined.

(** C4 fails as stated: the line is not carried through. *)
Lemma validateOrder_drops_missing_line :
  ~ In ghostLine
       (Order.items (ValidationResult.validatedOrder
          (validateOrder "2024-01-01T00:00:01.000Z" order_ghost menu_subcent))).
Proof. vm_compute. intros H; exact H. Qed.

(** ** Modifier cardinality *)

Lemma groupErrors_none_selected line g :
  ModifierGroup.minSelection g = 1 -> ModifierGroup.maxSelection g = 1 ->
  selectionsFor line (ModifierGroup.id g) = [] ->
  groupErrors line g = [errModifierRequired line g 0].
Proof.
  intros Hmin Hmax Hsel. unfold groupErrors, groupPass, groupStep.
  rewrite userSelections_lookup, Hsel, Hmin, Hmax. reflexivity.
Qed.

Lemma groupErrors_two_selected line g o1 o2 d1 d2 :
  ModifierGroup.minSelection g = 1 -> ModifierGroup.maxSelection g = 1 ->
  selectionsFor line (ModifierGroup.id g) = [o1; o2] ->
  findOption g o1 = Some d1 -> ModifierOption.isAvailable d1 = true ->
  findOption g o2 = Some d2 -> ModifierOption.isAvailable d2 = true ->
  groupErrors line g = [errTooMany line g 2].
Proof.
  intros Hmin Hmax Hsel F1 A1 F2 A2. unfold groupErrors, groupPass, groupStep.
  rewrite userSelections_lookup, Hsel, Hmin, Hmax.
  cbn [length Z.of_nat fold_left]. unfold optionStep.
  rewrite F1, A1. cbn [LineState.errors]. rewrite F2, A2. reflexivity.
Qed.

(** The errors of an order, around the pass of one group on one line. *)
Lemma validateOrder_errors_around now order menu pre line post menuDef gpre g gpost :
  Order.items order = pre ++ line :: post ->
  findMenuItem menu (OrderItem.menuItemId line) = Some menuDef ->
  MenuItem.modifierGroups menuDef = gpre ++ g :: gpost ->
  ValidationResult.errors (validateOrder now order menu)
  = (flat_map (itemErrors menu) pre ++ availabilityErrors line menuDef
       ++ flat_map (groupErrors line) gpre)
    ++ groupErrors line g
    ++ (flat_map (groupErrors line) gpost ++ flat_map (itemErrors menu) post).
Proof.
  intros Hitems Hfind Hgroups.
  rewrite validateOrder_errors, Hitems, flat_map_app. cbn [flat_map].
  destruct (itemStep_found menu line menuDef Hfind) as [-> _].
  rewrite Hgroups, flat_map_app. cbn [flat_map].
  now rewrite <- !app_assoc.
Qed.

(** C8.  Take a line of an order whose menu item has a group with
    [minSelection = 1] and [maxSelection = 1].  If the line selects nothing
    in that group, the pass of the group loop for that group pushes exactly
    one error, a [MODIFIER_REQUIRED] error naming the group.  If the line
    selects two options of the group that exist and are available, the
    pass pushes exactly one error, a [MODIFIER_INVALID] error naming the
    group.  In both cases the errors of the order are the errors pushed
    before that pass, that one error, and the errors pushed after it. *)
Theorem validateOrder_single_choice_group
        now order menu pre line post menuDef gpre g gpost :
  Order.items order = pre ++ line :: post ->
  findMenuItem menu (OrderItem.menuItemId line) = Some menuDef ->
  MenuItem.modifierGroups menuDef = gpre ++ g :: gpost ->
  ModifierGroup.minSelection g = 1 ->
  ModifierGroup.maxSelection g = 1 ->
  let errs := ValidationResult.errors (validateOrder now order menu) in
  let before := flat_map (itemErrors menu) pre ++ availabilityErrors line menuDef
                  ++ flat_map (groupErrors line) gpre in
  let after := flat_map (groupErrors line) gpost ++ flat_map (itemErrors menu) post in
  (selectionsFor line (ModifierGroup.id g) = [] ->
   groupErrors line g = [errModifierRequired line g 0]
   /\ errs = before ++ [errModifierRequired line g 0] ++ after
   /\ ValidationError.code (errModifierRequired line g 0) = MODIFIER_REQUIRED
   /\ option_map Details_groupId
                 (ValidationError.details (errModifierRequired line g 0))
      = Some (ModifierGroup.id g))
  /\ (forall o1 o2 d1 d2,
        selectionsFor line (ModifierGroup.id g) = [o1; o2] ->
        findOption g o1 = Some d1 -> ModifierOption.isAvailable d1 = true ->
        findOption g o2 = Some d2 -> ModifierOption.isAvailable d2 = true ->
        groupErrors line g = [errTooMany line g 2]
        /\ errs = before ++ [errTooMany line g 2] ++ after
        /\ ValidationError.code (errTooMany line g 2) = MODIFIER_INVALID
        /\ option_map Details_groupId (ValidationError.details (errTooMany line g 2))
           = Some (ModifierGroup.id g)).
Proof.
  intros Hitems Hfind Hgroups Hmin Hmax errs before after.
  pose proof (validateOrder_errors_around now order menu pre line post menuDef
                gpre g gpost Hitems Hfind Hgroups) as Herrs.
  split.
  - intros Hsel.
    pose proof (groupErrors_none_selected line g Hmin Hmax Hsel) as HG.
    split; [exact HG|]. split; [|split; reflexivity].
    subst errs before after. now rewrite Herrs, HG.
  - intros o1 o2 d1 d2 Hsel F1 A1 F2 A2.
    pose proof (groupErrors_two_selected line g o1 o2 d1 d2 Hmin Hmax Hsel F1 A1 F2 A2)
      as HG.
    split; [exact HG|]. split; [|split; reflexivity].
    subst errs before after. now rewrite Herrs, HG.
Qed.

Lemma validateOrder_single_choice_group_witness :
  ValidationResult.errors
    (validateOrder "2024-01-01T00:00:01.000Z" (orderOf [latteLine []]) menu_latte)
  = [errModifierRequired (latteLine []) milkGroup 0]
  /\ ValidationResult.errors
       (validateOrder "2024-01-01T00:00:01.000Z"
          (orderOf [latteLine [pick "milk" "whole"; pick "milk" "oat"]]) menu_latte)
     = [errTooMany (latteLine [pick "milk" "whole"; pick "milk" "oat"]) milkGroup 2].
Proof.
  split.
  - destruct (validateOrder_single_choice_group "2024-01-01T00:00:01.000Z"
                (orderOf [latteLine []]) menu_latte
                [] (latteLine []) [] latte [] milkGroup []
                eq_refl eq_refl eq_refl eq_refl eq_refl) as [H0 _].
    destruct (H0 eq_refl) as (_ & HE & _). exact HE.
  - destruct (validateOrder_single_choice_group "2024-01-01T00:00:01.000Z"
                (orderOf [latteLine [pick "milk" "whole"; pick "milk" "oat"]]) menu_latte
                [] (latteLine [pick "milk" "whole"; pick "milk" "oat"]) [] latte
                [] milkGroup []
                eq_refl eq_refl eq_refl eq_refl eq_refl) as [_ H2].
    destruct (H2 "whole" "oat" _ _ eq_refl eq_refl eq_refl eq_refl eq_refl)
      as (_ & HE & _).
    exact HE.
Defined.

(** ** What a line's validation depends on *)

Lemma fold_left_ext_in {A B : Type} (f g : A -> B -> A) (l : list B) :
  (forall x, In x l -> forall a, f a x = g a x) ->
  forall a, fold_left f l a = fold_left g l a.
Proof.
  induction l as [|x l IH]; intros H a; simpl; [reflexivity|].
  rewrite (H x (or_introl eq_refl)). apply IH.
  intros y Hy. apply H. now right.
Qed.

Lemma optionStep_same_ids item1 item2 group st optionId :
  OrderItem.id item1 = OrderItem.id item2 ->
  OrderItem.menuItemId item1 = OrderItem.menuItemId item2 ->
  optionStep item1 group st optionId = optionStep item2 group st optionId.
Proof.
  intros Hid Hmid. unfold optionStep, errInvalidOption, errOptionUnavailable.
  now rewrite Hid, Hmid.
Qed.

(** A pass of the group loop reads the line only through its two ids and
    through the selections filed under the group's id. *)
Lemma groupStep_ext item1 item2 sel1 sel2 st group :
  OrderItem.id item1 = OrderItem.id item2 ->
  OrderItem.menuItemId item1 = OrderItem.menuItemId item2 ->
  default [] (sel1 !! ModifierGroup.id group)
  = default [] (sel2 !! ModifierGroup.id group) ->
  groupStep item1 sel1 st group = groupStep item2 sel2 st group.
Proof.
  intros Hid Hmid Hsel. unfold groupStep. rewrite Hsel.
  unfold errModifierRequired, errTooMany. rewrite Hid, Hmid.
  apply fold_left_ext_in. intros o _ a.
  now apply optionStep_same_ids.
Qed.

Lemma validateModifiers_ext errors item1 item2 menuDef :
  OrderItem.id item1 = OrderItem.id item2 ->
  OrderItem.menuItemId item1 = OrderItem.menuItemId item2 ->
  (forall g, In g (MenuItem.modifierGroups menuDef) ->
             selectionsFor item1 (ModifierGroup.id g)
             = selectionsFor item2 (ModifierGroup.id g)) ->
  validateModifiers errors item1 menuDef = validateModifiers errors item2 menuDef.
Proof.
  intros Hid Hmid Hsel. unfold validateModifiers.
  apply fold_left_ext_in. intros g Hg a.
  apply groupStep_ext; [exact Hid | exact Hmid |].
  rewrite !userSelections_lookup. now apply Hsel.
Qed.

(** Two lines that agree on everything the item loop reads are validated
    alike. *)
Lemma itemStep_ext menu st item1 item2 menuDef :
  findMenuItem menu (OrderItem.menuItemId item1) = Some menuDef ->
  OrderItem.id item1 = OrderItem.id item2 ->
  OrderItem.menuItemId item1 = OrderItem.menuItemId item2 ->
  OrderItem.quantity item1 = OrderItem.quantity item2 ->
  OrderItem.specialInstructions item1 = OrderItem.specialInstructions item2 ->
  (forall g, In g (MenuItem.modifierGroups menuDef) ->
             selectionsFor item1 (ModifierGroup.id g)
             = selectionsFor item2 (ModifierGroup.id g)) ->
  itemStep menu st item1 = itemStep menu st item2.
Proof.
  intros Hfind Hid Hmid Hq Hsp Hsel. unfold itemStep.
  rewrite <- Hmid, Hfind.
  rewrite (validateModifiers_ext _ item1 item2 menuDef Hid Hmid Hsel).
  unfold validatedItemOf, errItemUnavailable. cbn [OrderItem.unitPrice OrderItem.quantity].
  now rewrite Hid, Hmid, Hq, Hsp.
Qed.

(** ** Selections in groups the menu item does not have *)

Lemma filter_filter_implied {A : Type} (p q : A -> bool) (l : list A) :
  (forall x, p x = true -> q x = true) ->
  List.filter p (List.filter q l) = List.filter p l.
Proof.
  intros H. induction l as [|x l IH]; simpl; [reflexivity|].
  destruct (q x) eqn:Hq; simpl.
  - now rewrite IH.
  - destruct (p x) eqn:Hp; [|exact IH].
    apply H in Hp. congruence.
Qed.

Lemma selectionsFor_dropStray menuDef item g :
  In g (MenuItem.modifierGroups menuDef) ->
  selectionsFor
    (withModifiers (List.filter (knownGroup menuDef) (OrderItem.selectedModifiers item))
                   item)
    (ModifierGroup.id g)
  = selectionsFor item (ModifierGroup.id g).
Proof.
  intros Hg. unfold selectionsFor, withModifiers. cbn [OrderItem.selectedModifiers].
  rewrite filter_filter_implied; [reflexivity|].
  intros m Hm. unfold knownGroup. apply existsb_exists. exists g. split; [exact Hg|].
  apply String.eqb_eq in Hm. apply String.eqb_eq. now symmetry.
Qed.

Lemma itemStep_dropStray menu st item :
  itemStep menu st (dropStrayItem menu item) = itemStep menu st item.
Proof.
  unfold dropStrayItem.
  destruct (findMenuItem menu (OrderItem.menuItemId item)) as [menuDef|] eqn:Hfind;
    [|reflexivity].
  apply (itemStep_ext menu st _ item menuDef); try reflexivity.
  - exact Hfind.
  - intros g Hg. now apply selectionsFor_dropStray.
Qed.

(** Every modifier a pass of the group loop pushes carries the group's
    id. *)
Lemma optionStep_groupId item g st optionId :
  Forall (fun m => SelectedModifier.groupId m = ModifierGroup.id g)
         (LineState.validatedModifiers st) ->
  Forall (fun m => SelectedModifier.groupId m = ModifierGroup.id g)
         (LineState.validatedModifiers (optionStep item g st optionId)).
Proof.
  intros H. unfold optionStep.
  destruct (findOption g optionId) as [d|]; [|exact H].
  destruct (ModifierOption.isAvailable d); cbn;
    (apply Forall_app; split; [exact H | now constructor]).
Qed.

Lemma groupModifiers_groupId item g :
  Forall (fun m => SelectedModifier.groupId m = ModifierGroup.id g)
         (groupModifiers item g).
Proof.
  unfold groupModifiers, groupPass, groupStep.
  set (st0 := if _ <? _ then _ else _).
  assert (H0 : Forall (fun m => SelectedModifier.groupId m = ModifierGroup.id g)
                      (LineState.validatedModifiers st0)).
  { subst st0. case_bounds g; constructor. }
  revert H0. generalize st0.
  induction (default [] _) as [|o ids IH]; intros st H; simpl; [exact H|].
  apply IH. now apply optionStep_groupId.
Qed.

Lemma fold_itemStep_dropStray menu :
  forall items st,
    fold_left (itemStep menu) (List.map (dropStrayItem menu) items) st
    = fold_left (itemStep menu) items st.
Proof.
  induction items as [|item items IH]; intros st; simpl; [reflexivity|].
  now rewrite itemStep_dropStray, IH.
Qed.

Lemma itemValidated_modifiers menu item v m :
  In v (itemValidated menu item) ->
  In m (OrderItem.selectedModifiers v) ->
  exists menuDef,
    findMenuItem menu (OrderItem.menuItemId v) = Some menuDef
    /\ knownGroup menuDef m = true.
Proof.
  intros Hv Hm.
  destruct (findMenuItem menu (OrderItem.menuItemId item)) as [menuDef|] eqn:Hfind.
  - destruct (itemStep_found menu item menuDef Hfind) as [_ HV].
    rewrite HV in Hv. destruct Hv as [<-|[]].
    exists menuDef. split; [exact Hfind|].
    cbn [validatedItemOf OrderItem.selectedModifiers] in Hm.
    rewrite validateModifiers_modifiers in Hm.
    apply in_flat_map in Hm as (g & Hg & Hmg).
    pose proof (proj1 (List.Forall_forall _ _) (groupModifiers_groupId item g) m Hmg)
      as Hall.
    unfold knownGroup. apply existsb_exists. exists g. split; [exact Hg|].
    apply String.eqb_eq. now symmetry.
  - destruct (itemStep_not_found menu item Hfind) as [_ HV].
    rewrite HV in Hv. destruct Hv.
Qed.

(** C10.  The selections of a line whose group id matches no modifier
    group of the referenced menu item have no effect on validation: the
    whole result (errors, validated lines with their unit prices and
    modifiers, amounts) is the result for the order without those
    selections.  And every modifier of a validated line belongs to a group
    of the line's menu item, so those selections are not in the output. *)
Theorem validateOrder_ignores_unknown_groups now order menu :
  validateOrder now (dropStray menu order) menu = validateOrder now order menu
  /\ (forall v m,
        In v (Order.items (ValidationResult.validatedOrder
                             (validateOrder now order menu))) ->
        In m (OrderItem.selectedModifiers v) ->
        exists menuDef,
          findMenuItem menu (OrderItem.menuItemId v) = Some menuDef
          /\ knownGroup menuDef m = true).
Proof.
  split.
  - unfold validateOrder, dropStray, withItems. cbn [Order.items Order.id
      Order.customerId Order.status Order.createdAt].
    now rewrite fold_itemStep_dropStray.
  - intros v m Hv Hm. rewrite validateOrder_closed_form in Hv.
    cbn [ValidationResult.validatedOrder Order.items] in Hv.
    apply in_flat_map in Hv as (item & _ & Hv).
    now apply (itemValidated_modifiers menu item v m).
Qed.

(** The latte ordered with oat milk and with a syrup the latte has no
    group for: no error, the syrup is gone, the price is that of a latte
    with oat milk. *)
Lemma validateOrder_ignores_unknown_groups_witness :
  let r := validateOrder "2024-01-01T00:00:01.000Z" order_latte_stray menu_latte in
  r = validateOrder "2024-01-01T00:00:01.000Z"
        (orderOf [latteLine [pick "milk" "oat"]]) menu_latte
  /\ ValidationResult.errors r = []
  /\ List.map (fun v => (OrderItem.unitPrice v,
                         List.map SelectedModifier.optionId
                                  (OrderItem.selectedModifiers v)))
              (Order.items (ValidationResult.validatedOrder r))
     = [(4%float, ["oat"])].
Proof.
  cbv zeta. split.
  - symmetry.
    exact (proj1 (validateOrder_ignores_unknown_groups
                    "2024-01-01T00:00:01.000Z" order_latte_stray menu_latte)).
  - split; reflexivity.
Defined.

(** ** Validating a validated order again *)

Lemma fold_optionStep_errors item g ids st :
  LineState.errors (fold_left (optionStep item g) ids st)
  = LineState.errors st
    ++ LineState.errors
         (fold_left (optionStep item g) ids
                    (LineState.mk [] (LineState.currentUnitPrice st) [])).
Proof.
  rewrite (frameLine_self st) at 1. rewrite fold_optionStep_frame. reflexivity.
Qed.

Lemma findOption_id g optionId d :
  findOption g optionId = Some d -> ModifierOption.id d = optionId.
Proof.
  unfold findOption. intros H. apply find_some in H as [_ H].
  now apply String.eqb_eq.
Qed.

(** When the option loop pushes no error, every selected id was found, and
    the modifiers it pushes carry the selected ids, in order. *)
Lemma fold_optionStep_valid item g :
  forall ids st,
    LineState.errors (fold_left (optionStep item g) ids st) = [] ->
    List.map SelectedModifier.optionId
             (LineState.validatedModifiers (fold_left (optionStep item g) ids st))
    = List.map SelectedModifier.optionId (LineState.validatedModifiers st) ++ ids.
Proof.
  induction ids as [|o ids IH]; intros st Hnil; simpl in *.
  - now rewrite app_nil_r.
  - rewrite (IH _ Hnil).
    rewrite fold_optionStep_errors in Hnil. apply app_eq_nil in Hnil as [Hst _].
    unfold optionStep in *.
    destruct (findOption g o) as [d|] eqn:Hfind.
    + cbn [LineState.validatedModifiers].
      replace (LineState.validatedModifiers
                 (if ModifierOption.isAvailable d then st
                  else pushError (errOptionUnavailable item d) st))
        with (LineState.validatedModifiers st)
        by (now destruct (ModifierOption.isAvailable d)).
      rewrite map_app. cbn. rewrite (findOption_id g o d Hfind).
      now rewrite <- app_assoc.
    + unfold pushError in Hst. cbn in Hst.
      apply app_eq_nil in Hst as [_ Hst]. discriminate.
Qed.

Lemma groupErrors_nil_modifiers item g :
  groupErrors item g = [] ->
  List.map SelectedModifier.optionId (groupModifiers item g)
  = selectionsFor item (ModifierGroup.id g).
Proof.
  unfold groupErrors, groupModifiers, groupPass, groupStep.
  rewrite userSelections_lookup.
  set (st2 := if ModifierGroup.maxSelection g <? _ then _ else _).
  intros Hnil. rewrite (fold_optionStep_valid item g _ st2 Hnil).
  replace (LineState.validatedModifiers st2) with (@nil SelectedModifier.t);
    [reflexivity|].
  subst st2. destruct (ModifierGroup.maxSelection g <? _);
    destruct (_ <? ModifierGroup.minSelection g); reflexivity.
Qed.

(** The modifiers of a validated line filed under a group id are those
    pushed by the passes of the groups with that id. *)
Lemma filter_groupModifiers item gid :
  forall groups,
    List.filter (fun m => String.eqb (SelectedModifier.groupId m) gid)
                (flat_map (groupModifiers item) groups)
    = flat_map (groupModifiers item)
               (List.filter (fun g => String.eqb (ModifierGroup.id g) gid) groups).
Proof.
  induction groups as [|g groups IH]; simpl; [reflexivity|].
  rewrite List.filter_app, IH.
  pose proof (groupModifiers_groupId item g) as Hall.
  destruct (String.eqb_spec (ModifierGroup.id g) gid) as [Heq|Hne]; simpl.
  - f_equal. induction Hall as [|m ms Hm _ IHm]; simpl; [reflexivity|].
    rewrite Hm, Heq, String.eqb_refl. now f_equal.
  - replace (List.filter _ (groupModifiers item g)) with (@nil SelectedModifier.t);
      [reflexivity|].
    induction Hall as [|m ms Hm _ IHm]; simpl; [reflexivity|].
    rewrite Hm. destruct (String.eqb_spec (ModifierGroup.id g) gid); [contradiction|].
    exact IHm.
Qed.

Lemma distinct_filter_self (groups : list ModifierGroup.t) g :
  distinct (List.map ModifierGroup.id groups) = true ->
  In g groups ->
  List.filter (fun g' => String.eqb (ModifierGroup.id g') (ModifierGroup.id g)) groups
  = [g].
Proof.
  induction groups as [|g0 groups IH]; intros Hd Hin; [destruct Hin|].
  simpl in Hd. apply andb_prop in Hd as [Hfresh Hd].
  apply negb_true_iff in Hfresh.
  assert (Hnot : forall h, In h groups -> ModifierGroup.id g0 <> ModifierGroup.id h).
  { intros h Hh Heq.
    assert (existsb (String.eqb (ModifierGroup.id g0))
                    (List.map ModifierGroup.id groups) = true) as Hex.
    { apply existsb_exists. exists (ModifierGroup.id h). split.
      - now apply in_map.
      - now apply String.eqb_eq. }
    congruence. }
  simpl. destruct Hin as [<-|Hin].
  - rewrite String.eqb_refl. f_equal.
    clear IH Hd Hfresh. induction groups as [|h groups IHg]; simpl; [reflexivity|].
    destruct (String.eqb_spec (ModifierGroup.id h) (ModifierGroup.id g0)) as [Heq|_].
    + exfalso. apply (Hnot h); [now left | now symmetry].
    + apply IHg. intros k Hk. apply Hnot. now right.
  - destruct (String.eqb_spec (ModifierGroup.id g0) (ModifierGroup.id g)) as [Heq|_].
    + exfalso. now apply (Hnot g).
    + now apply IH.
Qed.

Lemma findMenuItem_groups_distinct menu id menuDef :
  groupIdsDistinct menu = true ->
  findMenuItem menu id = Some menuDef ->
  distinct (List.map ModifierGroup.id (MenuItem.modifierGroups menuDef)) = true.
Proof.
  unfold groupIdsDistinct, findMenuItem. intros Hall Hfind.
  apply find_some in Hfind as [Hin _].
  rewrite forallb_forall in Hall. now apply Hall.
Qed.

(** A line validated without errors, once validated, is validated the same
    way again. *)
Lemma itemStep_revalidate menu st item menuDef :
  groupIdsDistinct menu = true ->
  findMenuItem menu (OrderItem.menuItemId item) = Some menuDef ->
  itemErrors menu item = [] ->
  itemStep menu st (validatedItemOf item menuDef (validateModifiers [] item menuDef))
  = itemStep menu st item.
Proof.
  intros Hwf Hfind Hnil.
  destruct (itemStep_found menu item menuDef Hfind) as [HE _].
  rewrite HE in Hnil. apply app_eq_nil in Hnil as [_ Hgroups].
  apply (itemStep_ext menu st _ item menuDef); try reflexivity; [exact Hfind|].
  intros g Hg.
  unfold selectionsFor at 1. cbn [validatedItemOf OrderItem.selectedModifiers].
  rewrite validateModifiers_modifiers, filter_groupModifiers.
  rewrite (distinct_filter_self _ g
             (findMenuItem_groups_distinct menu _ menuDef Hwf Hfind) Hg).
  cbn [flat_map]. rewrite app_nil_r.
  apply groupErrors_nil_modifiers.
  assert (Hsub : forall gs, flat_map (groupErrors item) gs = [] ->
                            In g gs -> groupErrors item g = []).
  { induction gs as [|h gs IHgs]; intros Hflat Hin; [destruct Hin|].
    simpl in Hflat. apply app_eq_nil in Hflat as [Hh Hrest].
    destruct Hin as [->|Hin]; [exact Hh | now apply IHgs]. }
  now apply (Hsub (MenuItem.modifierGroups menuDef)).
Qed.

Lemma fold_itemStep_revalidate menu :
  groupIdsDistinct menu = true ->
  forall items st,
    flat_map (itemErrors menu) items = [] ->
    fold_left (itemStep menu) (flat_map (itemValidated menu) items) st
    = fold_left (itemStep menu) items st.
Proof.
  intros Hwf. induction items as [|item items IH]; intros st Hnil; [reflexivity|].
  simpl in Hnil. apply app_eq_nil in Hnil as [Hitem Hrest].
  destruct (findMenuItem menu (OrderItem.menuItemId item)) as [menuDef|] eqn:Hfind.
  - destruct (itemStep_found menu item menuDef Hfind) as [_ HV].
    simpl. rewrite HV. cbn [app fold_left].
    rewrite (itemStep_revalidate menu st item menuDef Hwf Hfind Hitem).
    now apply IH.
  - destruct (itemStep_not_found menu item Hfind) as [HE _].
    rewrite HE in Hitem. discriminate.
Qed.

(** C9, as the code has it.  On a menu whose items each have modifier
    groups with pairwise distinct ids, an order that validates without
    errors validates, once validated, to the same result: validating the
    returned order at any later time gives what validating the original
    order at that time gives, and so, at the same clock reading, the
    identical result. *)
Theorem validateOrder_idempotent now now' order menu :
  groupIdsDistinct menu = true ->
  ValidationResult.isValid (validateOrder now order menu) = true ->
  validateOrder now' (ValidationResult.validatedOrder (validateOrder now order menu)) menu
  = validateOrder now' order menu
  /\ validateOrder now (ValidationResult.validatedOrder (validateOrder now order menu)) menu
     = validateOrder now order menu.
Proof.
  intros Hwf Hvalid.
  assert (Hnil : flat_map (itemErrors menu) (Order.items order) = []).
  { rewrite validateOrder_closed_form in Hvalid.
    cbn [ValidationResult.isValid] in Hvalid.
    apply Nat.eqb_eq in Hvalid. now apply length_zero_iff_nil. }
  assert (Hgen : forall t,
             validateOrder t (ValidationResult.validatedOrder
                                (validateOrder now order menu)) menu
             = validateOrder t order menu).
  { intros t. rewrite (validateOrder_closed_form now order menu).
    unfold validateOrder at 1.
    cbn [ValidationResult.validatedOrder Order.items Order.id Order.customerId
         Order.status Order.createdAt].
    rewrite (fold_itemStep_revalidate menu Hwf _ _ Hnil). reflexivity. }
  split; apply Hgen.
Qed.

Lemma validateOrder_idempotent_witness :
  let r := validateOrder "2024-01-01T00:00:01.000Z"
             (orderOf [latteLine [pick "milk" "oat"]]) menu_latte in
  ValidationResult.isValid r = true
  /\ validateOrder "2024-01-01T00:00:01.000Z" (ValidationResult.validatedOrder r) menu_latte
     = r.
Proof.
  cbv zeta. split; [reflexivity|].
  exact (proj2 (validateOrder_idempotent
                  "2024-01-01T00:00:01.000Z" "2024-01-01T00:00:01.000Z"
                  (orderOf [latteLine [pick "milk" "oat"]]) menu_latte
                  eq_refl eq_refl)).
Defined.

(** C9 fails as stated.  The wings have two groups under the id "sauce";
    one selection under that id validates without errors and is copied
    once per group, so the second validation counts two selections and
    arrives at other lines and another total. *)
Lemma validateOrder_not_idempotent :
  let r := validateOrder "2024-01-01T00:00:01.000Z" order_wings menu_wings in
  let r2 := validateOrder "2024-01-01T00:00:01.000Z"
              (ValidationResult.validatedOrder r) menu_wings in
  ValidationResult.isValid r = true
  /\ ValidationResult.isValid r2 = true
  /\ Order.total (ValidationResult.validatedOrder r) = 9.72%float
  /\ Order.total (ValidationResult.validatedOrder r2) = 10.8%float
  /\ r2 <> r.
Proof.
  cbv zeta. repeat split; try (vm_compute; reflexivity).
  intros Heq.
  apply (f_equal (fun x => length (OrderItem.selectedModifiers
            (hd ghostLine (Order.items (ValidationResult.validatedOrder x)))))) in Heq.
  vm_compute in Heq. discriminate.
Qed.

(** ** The order mutator *)

Lemma find_split {A : Type} (p : A -> bool) :
  forall (l : list A) (x : A),
    List.find p l = Some x ->
    exists pre post,
      l = pre ++ x :: post /\ p x = true /\ forallb (fun y => negb (p y)) pre = true.
Proof.
  induction l as [|a l IH]; intros x H; simpl in H; [discriminate|].
  destruct (p a) eqn:Hpa.
  - injection H as <-. exists [], l. now repeat split.
  - destruct (IH x H) as (pre & post & -> & Hpx & Hpre).
    exists (a :: pre), post. repeat split; [exact Hpx|].
    simpl. now rewrite Hpa, Hpre.
Qed.

Lemma find_none_existsb {A : Type} (p : A -> bool) (l : list A) :
  List.find p l = None <-> existsb p l = false.
Proof.
  induction l as [|a l IH]; simpl; [tauto|].
  destruct (p a); simpl; [split; discriminate | exact IH].
Qed.

Lemma existsb_eqb_false (x : string) (l : list string) :
  existsb (String.eqb x) l = false -> forall y, In y l -> x <> y.
Proof.
  intros H y Hy ->.
  assert (existsb (String.eqb y) l = true) as Ht.
  { apply existsb_exists. exists y. split; [exact Hy | apply String.eqb_refl]. }
  congruence.
Qed.

(** With distinct line ids, the [map] of the merge branch changes the
    existing line and no other. *)
Lemma map_bump_distinct (f : OrderItem.t -> OrderItem.t) (e : OrderItem.t) :
  forall pre post,
    distinct (List.map OrderItem.id (pre ++ e :: post)) = true ->
    List.map (fun item => if String.eqb (OrderItem.id item) (OrderItem.id e)
                          then f item else item)
             (pre ++ e :: post)
    = pre ++ f e :: post.
Proof.
  assert (Hkeep : forall l, (forall y, In y l -> OrderItem.id y <> OrderItem.id e) ->
            List.map (fun item => if String.eqb (OrderItem.id item) (OrderItem.id e)
                                  then f item else item) l = l).
  { induction l as [|a l IHl]; intros Hl; simpl; [reflexivity|].
    destruct (String.eqb_spec (OrderItem.id a) (OrderItem.id e)) as [Heq|_].
    - exfalso. apply (Hl a); [now left | exact Heq].
    - f_equal. apply IHl. intros y Hy. apply Hl. now right. }
  induction pre as [|a pre IH]; intros post Hd; simpl in *.
  - rewrite String.eqb_refl. f_equal. apply Hkeep.
    apply andb_prop in Hd as [Hfresh _]. apply negb_true_iff in Hfresh.
    intros y Hy Heq. apply (existsb_eqb_false _ _ Hfresh (OrderItem.id y)).
    + now apply in_map.
    + now symmetry.
  - apply andb_prop in Hd as [Hfresh Hd]. apply negb_true_iff in Hfresh.
    destruct (String.eqb_spec (OrderItem.id a) (OrderItem.id e)) as [Heq|_].
    + exfalso. apply (existsb_eqb_false _ _ Hfresh (OrderItem.id e)); [|exact Heq].
      rewrite map_app. apply in_or_app. right. now left.
    + f_equal. now apply IH.
Qed.

Lemma distinct_snoc (ids : list string) (x : string) :
  distinct ids = true -> existsb (String.eqb x) ids = false ->
  distinct (ids ++ [x]) = true.
Proof.
  induction ids as [|a ids IH]; intros Hd Hx; simpl in *; [reflexivity|].
  apply andb_prop in Hd as [Ha Hd]. apply orb_false_elim in Hx as [Hxa Hx].
  rewrite (IH Hd Hx), andb_true_r. rewrite existsb_app. simpl.
  apply negb_true_iff in Ha. rewrite Ha. simpl.
  rewrite String.eqb_sym, Hxa. reflexivity.
Qed.

(** The merge rule of the mutation step.  For an order whose line ids are
    distinct: when some line references the matched menu item and has no
    selected modifiers, the first such line has its quantity incremented by the
    extracted quantity and nothing else changes; when there is none, a new
    line is appended whose id is [line_] followed by the clock reading,
    with the matched item's base price as unit price and no modifiers, and
    the line ids stay distinct when no line of the order carries that id
    already. *)
Theorem applyMatch_merge_or_append nowMs nowIso matched quantity order :
  distinct (List.map OrderItem.id (Order.items order)) = true ->
  let upd := applyMatch nowMs nowIso matched quantity order in
  let items := Order.items order in
  let items' := Order.items (OrderUpdate.order upd) in
  let newItem :=
    OrderItem.mk ("line_" +:+ JS.showZ nowMs) (MenuItem.id matched)
                 (MenuItem.name matched) quantity (MenuItem.basePrice matched)
                 [] None in
  (existsb (mergeable matched) items = true ->
   exists pre existing post,
     items = pre ++ existing :: post
     /\ mergeable matched existing = true
     /\ forallb (fun line => negb (mergeable matched line)) pre = true
     /\ items' = pre ++ addQuantity quantity existing :: post
     /\ OrderUpdate.addedItem upd = Some existing)
  /\ (existsb (mergeable matched) items = false ->
      items' = items ++ [newItem]
      /\ OrderUpdate.addedItem upd = Some newItem
      /\ (usedLineId (OrderItem.id newItem) items = false ->
          distinct (List.map OrderItem.id items') = true)).
Proof.
  intros Hd upd items items' newItem. subst upd items items'.
  unfold applyMatch.
  change (findExisting matched (Order.items order))
    with (List.find (mergeable matched) (Order.items order)).
  split.
  - intros Hex.
    destruct (List.find (mergeable matched) (Order.items order)) as [existing|] eqn:Hfind.
    + destruct (find_split _ _ _ Hfind) as (pre & post & Hsplit & Hm & Hpre).
      exists pre, existing, post. repeat split; try assumption.
      cbn [OrderUpdate.order Order.items]. rewrite Hsplit.
      apply map_bump_distinct. now rewrite <- Hsplit.
    + apply find_none_existsb in Hfind. congruence.
  - intros Hex. apply find_none_existsb in Hex. rewrite Hex.
    cbn [OrderUpdate.order OrderUpdate.addedItem Order.items].
    repeat split. intros Hfresh.
    rewrite map_app. now apply distinct_snoc.
Qed.

Lemma applyMatch_merge_or_append_witness :
  distinct (List.map OrderItem.id (Order.items cart_one_burger)) = true
  /\ Order.items (OrderUpdate.order
       (applyMatch secondTurnMs "2023-11-14T22:14:20.000Z" burger 1%float cart_one_burger))
     = [OrderItem.mk "line_1" "burger" "Burger" 2%float 10%float [] None]
  /\ Order.items (OrderUpdate.order
       (applyMatch secondTurnMs "2023-11-14T22:14:20.000Z" fries 1%float cart_one_burger))
     = Order.items cart_one_burger
       ++ [OrderItem.mk "line_1700000060000" "fries" "Fries" 1%float 0.99%float [] None].
Proof.
  split; [reflexivity|]. split.
  - destruct (applyMatch_merge_or_append secondTurnMs "2023-11-14T22:14:20.000Z"
                burger 1%float cart_one_burger eq_refl) as [Hmerge _].
    destruct (Hmerge eq_refl) as (pre & existing & post & Hsplit & _ & _ & Hitems & _).
    destruct pre as [|a pre]; cbn in Hsplit.
    + injection Hsplit as <- <-. exact Hitems.
    + injection Hsplit as _ Hnil. destruct pre; discriminate Hnil.
  - destruct (applyMatch_merge_or_append secondTurnMs "2023-11-14T22:14:20.000Z"
                fries 1%float cart_one_burger eq_refl) as [_ Happend].
    destruct (Happend eq_refl) as (Hitems & _ & _). exact Hitems.
Defined.

(** Adding "a burger" in two turns, a minute apart, to an empty cart: one
    line, with quantity 2. *)
Example addItemFromText_twice :
  Order.items cart_after_second_turn
  = [OrderItem.mk "line_1700000000000" "burger" "Burger" 2%float 10%float [] None].
Proof. vm_compute. reflexivity. Qed.

(** C5.  The id of an appended line is not fresh.  The data model has the
    line id unique, and the merge relies on it; the mutation step takes
    [line_] followed by the clock reading and checks it against nothing.
    Here the cart holds a burger with cheese whose line id is the one the
    clock reading produces; "a burger" appends a second line under the same
    id. *)
Lemma addItemFromText_id_not_fresh :
  List.map OrderItem.id
    (Order.items (OrderUpdate.order
       (addItemFromText firstTurnMs "2023-11-14T22:13:20.000Z" "a burger"
                        menu_burger cart_same_millisecond)))
  = ["line_1700000000000"; "line_1700000000000"].
Proof. vm_compute. reflexivity. Qed.

(** The same from an empty cart: "a burger" and then "fries" within one
    millisecond give two lines under one id; a later "a burger" then
    merges into the burger line and, the lines being told apart by id,
    increments the fries as well. *)
Example addItemFromText_shared_id_merge :
  List.map (fun line => (OrderItem.id line, OrderItem.menuItemId line,
                         OrderItem.quantity line))
           (Order.items cart_two_adds_one_millisecond)
  = [("line_1700000000000", "burger", 1%float);
     ("line_1700000000000", "fries", 1%float)]
  /\ List.map (fun line => (OrderItem.menuItemId line, OrderItem.quantity line))
       (Order.items (OrderUpdate.order
          (addItemFromText secondTurnMs "2023-11-14T22:14:20.000Z" "a burger"
                           menu_burger cart_two_adds_one_millisecond)))
     = [("burger", 2%float); ("fries", 2%float)].
Proof. vm_compute. split; reflexivity. Qed.

(** C6, as the code has it.  After the mutation step, [subtotal] is the
    running sum of [unitPrice * quantity] over all lines of the new order,
    [tax] is that subtotal times the prior effective tax rate, rounded to
    two decimals, and [total] is subtotal plus tax, rounded to two decimals.
    The prior effective rate is [tax / subtotal] of the order before the
    step when that subtotal is greater than zero, and zero otherwise. *)
Theorem applyMatch_pricing nowMs nowIso matched quantity order :
  let o' := OrderUpdate.order (applyMatch nowMs nowIso matched quantity order) in
  Order.subtotal o' = sumLines (Order.items o')
  /\ Order.tax o'
     = JS.round2 (PrimFloat.mul (Order.subtotal o') (effectiveTaxRate order))
  /\ Order.total o' = JS.round2 (PrimFloat.add (Order.subtotal o') (Order.tax o'))
  /\ (JS.gt0 (Order.subtotal order) = true ->
      effectiveTaxRate order = PrimFloat.div (Order.tax order) (Order.subtotal order))
  /\ (JS.gt0 (Order.subtotal order) = false -> effectiveTaxRate order = 0%float).
Proof.
  cbv zeta. unfold applyMatch, effectiveTaxRate.
  cbn [OrderUpdate.order Order.subtotal Order.tax Order.total Order.items].
  repeat split; intros ->; reflexivity.
Qed.

(** C6 fails as stated.  One burger at 10 with tax 0.8, plus fries at
    0.99: the new subtotal is 10.99, the prior rate is 0.08, their product
    is 0.8792, and the tax of the new order is 0.88. *)
Lemma applyMatch_tax_is_rounded :
  let o' := OrderUpdate.order
              (applyMatch secondTurnMs "2023-11-14T22:14:20.000Z" fries 1%float
                          cart_one_burger) in
  Order.subtotal o' = 10.99%float
  /\ effectiveTaxRate cart_one_burger = 0.08%float
  /\ PrimFloat.mul (Order.subtotal o') (effectiveTaxRate cart_one_burger) = 0.8792%float
  /\ Order.tax o' = 0.88%float
  /\ taxIsSubtotalTimes (effectiveTaxRate cart_one_burger) o' = false.
Proof. vm_compute. repeat split. Qed.

(** ** Quantity extraction *)

(** C7, as the code has it.  The number words are the Spanish ones of
    [wordNumbers].  With an item named "Cheeseburger": a numeral or a
    Spanish number word directly before the name gives that quantity ("dos
    cheeseburger" and "2 cheeseburger" give 2, and every word of the table
    gives its value), and "cheeseburger" with no number gives 1.  The cart
    built by [addItemFromText] from a catalog holding the item has these
    quantities. *)
Theorem extractQuantity_cheeseburger :
  extractQuantity "dos cheeseburger" "Cheeseburger" = 2%float
  /\ extractQuantity "2 cheeseburger" "Cheeseburger" = 2%float
  /\ extractQuantity "cheeseburger" "Cheeseburger" = 1%float
  /\ Forall (fun entry =>
               extractQuantity (fst entry +:+ " cheeseburger") "Cheeseburger"
               = snd entry)
            wordNumberTable
  /\ quantitiesAfter "Dos cheeseburger" = [2%float]
  /\ quantitiesAfter "cheeseburger" = [1%float].
Proof.
  repeat split; try (vm_compute; reflexivity).
  unfold wordNumberTable. repeat constructor.
Qed.

(** C7 fails as stated.  "two cheeseburgers" matches the item, and the
    extracted quantity is 1: "two" is not in the table, and no pattern
    finds the name as a word of its own. *)
Lemma extractQuantity_two_cheeseburgers :
  matchesMenuItem "two cheeseburgers" "Cheeseburger" = true
  /\ extractQuantity "two cheeseburgers" "Cheeseburger" = 1%float
  /\ PrimFloat.eqb (extractQuantity "two cheeseburgers" "Cheeseburger") 2%float = false
  /\ quantitiesAfter "two cheeseburgers" = [1%float].
Proof. vm_compute. repeat split. Qed.

(** The name in the plural hides a numeral too. *)
Example extractQuantity_plural_numeral :
  extractQuantity "2 cheeseburgers" "Cheeseburger" = 1%float.
Proof. vm_compute. reflexivity. Qed.

(** ** The guardrail of the orchestrator *)

Lemma chars_append (a b : string) :
  Str.chars (a +:+ b) = Str.chars a ++ Str.chars b.
Proof.
  unfold Str.chars. induction a as [|c a IH]; simpl; [reflexivity|].
  now rewrite IH.
Qed.

Lemma prefixb_app (p c : list ascii) : Str.prefixb p (p ++ c) = true.
Proof.
  induction p as [|a p IH]; simpl; [reflexivity|].
  now rewrite Ascii.eqb_refl, IH.
Qed.

Lemma includesChars_unfold (s p : list ascii) :
  Str.includesChars s p
  = orb (Str.prefixb p s)
        match s with [] => false | _ :: s' => Str.includesChars s' p end.
Proof. destruct s; reflexivity. Qed.

Lemma includesChars_app (a p c : list ascii) :
  Str.includesChars (a ++ p ++ c) p = true.
Proof.
  induction a as [|x a IH].
  - simpl. rewrite includesChars_unfold, prefixb_app. reflexivity.
  - rewrite includesChars_unfold. cbn [app]. rewrite IH. apply orb_true_r.
Qed.

Lemma join_contains (sep : string) (parts : list string) (m : string) :
  In m parts ->
  exists a c, Str.chars (Str.join sep parts) = a ++ Str.chars m ++ c.
Proof.
  induction parts as [|p rest IH]; intros Hin; [destruct Hin|].
  destruct rest as [|q rest].
  - destruct Hin as [->|[]]. exists [], []. simpl. now rewrite app_nil_r.
  - change (Str.join sep (p :: q :: rest))
      with (p +:+ sep +:+ Str.join sep (q :: rest)).
    rewrite !chars_append. destruct Hin as [->|Hin].
    + exists [], (Str.chars sep ++ Str.chars (Str.join sep (q :: rest))). reflexivity.
    + destruct (IH Hin) as (a & c & ->).
      exists (Str.chars p ++ Str.chars sep ++ a), c. now rewrite <- !app_assoc.
Qed.

(** The guardrail's text contains the message of every error. *)
Lemma guardrailMessage_includes errors e :
  In e errors ->
  Str.includes (guardrailMessage errors) (ValidationError.message e) = true.
Proof.
  intros Hin. unfold Str.includes, guardrailMessage.
  destruct (join_contains " " (List.map ValidationError.message errors)
              (ValidationError.message e)) as (a & c & Hjoin).
  { now apply in_map. }
  rewrite chars_append, Hjoin, app_assoc. apply includesChars_app.
Qed.

(** The opportunistic update never touches the status. *)
Lemma addItemFromText_status nowMs nowIso userText menu order :
  Order.status (OrderUpdate.order (addItemFromText nowMs nowIso userText menu order))
  = Order.status order.
Proof.
  unfold addItemFromText. destruct menu as [|m menu]; [reflexivity|].
  destruct (List.find _ (m :: menu)); reflexivity.
Qed.

(** C2.  Take a state whose order is pending and fails validation against
    the menu of the turn (the fetched one, or the empty menu when the fetch
    failed), and a user text with the finalize intent.  Then, when the
    generator replies, the turn resolves with a state whose order is still
    pending and whose history is the old one followed by the user turn and
    an assistant turn; the content of the assistant turn is the guardrail's
    text, which contains the message of every validation error; no status
    change is recorded; and the outcome is the same whatever the generator
    replied.  When the generator fails, the turn rejects and no state is
    returned. *)
Theorem advanceConversation_guardrail clock services state userText :
  Order.status (ConversationState.currentOrder state) = pending ->
  finalizeIntent userText = true ->
  let menu := default [] (TurnServices.fetchMenu services) in
  let validation :=
    validateOrder (TurnClock.validationIso clock)
                  (ConversationState.currentOrder state) menu in
  ValidationResult.isValid validation = false ->
  (forall reply,
      TurnServices.generateAssistantReply services = Some reply ->
      exists st' userTurn assistantTurn,
        advanceConversation clock services state userText = Resolved st'
        /\ Order.status (ConversationState.currentOrder st') = pending
        /\ ConversationState.history st'
           = ConversationState.history state ++ [userTurn; assistantTurn]
        /\ ConversationTurn.role userTurn = user
        /\ ConversationTurn.content userTurn = userText
        /\ ConversationTurn.role assistantTurn = assistant
        /\ ConversationTurn.content assistantTurn
           = guardrailMessage (ValidationResult.errors validation)
        /\ (forall e, In e (ValidationResult.errors validation) ->
                      Str.includes (ConversationTurn.content assistantTurn)
                                   (ValidationError.message e) = true)
        /\ ValidationResult.errors validation <> []
        /\ option_map Metadata.orderStatusChanged
                      (ConversationTurn.metadata assistantTurn) = Some None
        /\ (forall reply',
               advanceConversation clock
                 (TurnServices.mk (TurnServices.fetchMenu services) (Some reply'))
                 state userText
               = Resolved st'))
  /\ (TurnServices.generateAssistantReply services = None ->
      advanceConversation clock services state userText
      = ConversationError "Failed to generate response." "AI_SERVICE_ERROR").
Proof.
  intros Hpending Hintent menu validation Hinvalid.
  split.
  - intros reply Hreply. unfold advanceConversation.
    rewrite Hreply, Hpending, Hintent. cbn [OrderStatus_eqb andb].
    fold menu. fold validation. rewrite Hinvalid.
    eexists _, _, _. split; [reflexivity|].
    split; [cbn [ConversationState.currentOrder];
            rewrite addItemFromText_status; exact Hpending|].
    split; [cbn [ConversationState.history]; rewrite <- app_assoc; reflexivity|].
    repeat split.
    + intros e He. cbn [ConversationTurn.content].
      now apply guardrailMessage_includes.
    + intros Hnil. subst validation. rewrite validateOrder_closed_form in *.
      cbn [ValidationResult.isValid ValidationResult.errors] in *.
      rewrite Hnil in Hinvalid. discriminate.
    + intros reply'. cbn [TurnServices.generateAssistantReply TurnServices.fetchMenu].
      fold menu. fold validation. rewrite Hinvalid. reflexivity.
  - intros Hnone. unfold advanceConversation. now rewrite Hnone.
Qed.

(** The cart holds fries that are unavailable and the user says "please
    confirm": the order stays pending and the assistant turn carries the
    validator's message, not the generator's announcement. *)
Lemma advanceConversation_guardrail_witness :
  exists st',
    advanceConversation clock_sample services_cheerful state_with_fries "please confirm"
    = Resolved st'
    /\ Order.status (ConversationState.currentOrder st') = pending
    /\ List.map ConversationTurn.content (ConversationState.history st')
       = ["please confirm";
          "I can't place the order yet. Item 'French Fries' is currently unavailable."].
Proof.
  destruct (advanceConversation_guardrail clock_sample services_cheerful
              state_with_fries "please confirm" eq_refl eq_refl eq_refl)
    as [Hreply _].
  destruct (Hreply "Your order is confirmed!" eq_refl)
    as (st' & userTurn & assistantTurn & Hrun & Hstatus & Hhist & _ & Hu & _ & Ha & _).
  exists st'. split; [exact Hrun|]. split; [exact Hstatus|].
  rewrite Hhist. cbn [ConversationState.history state_with_fries app List.map].
  rewrite Hu, Ha. reflexivity.
Defined.

(** * Further properties of the validator *)

Lemma selectionsFor_requested item gid :
  selectionsFor (requestedItem item) gid = selectionsFor item gid.
Proof.
  unfold selectionsFor, requestedItem. cbn [OrderItem.selectedModifiers].
  induction (OrderItem.selectedModifiers item) as [|m mods IH]; simpl; [reflexivity|].
  destruct (String.eqb (SelectedModifier.groupId m) gid); simpl; now rewrite IH.
Qed.

Lemma itemStep_requested menu st item :
  itemStep menu st (requestedItem item) = itemStep menu st item.
Proof.
  destruct (findMenuItem menu (OrderItem.menuItemId item)) as [menuDef|] eqn:Hfind.
  - apply (itemStep_ext menu st _ item menuDef); try reflexivity.
    + exact Hfind.
    + intros g _. apply selectionsFor_requested.
  - unfold itemStep. cbn [requestedItem OrderItem.menuItemId]. now rewrite Hfind.
Qed.

(** X1.  Client-declared names, prices and amounts are never read: the
    result of validating an order is the result of validating its request
    part, in which the names and unit prices of the lines, the names and
    price adjustments of the selections and the amounts of the order are
    blanked. *)
Theorem validateOrder_reads_request_only now order menu :
  validateOrder now (requestedOrder order) menu = validateOrder now order menu.
Proof.
  unfold validateOrder, requestedOrder.
  cbn [Order.items Order.id Order.customerId Order.status Order.createdAt].
  assert (H : forall items st,
             fold_left (itemStep menu) (List.map requestedItem items) st
             = fold_left (itemStep menu) items st).
  { induction items as [|item items IH]; intros st; simpl; [reflexivity|].
    now rewrite itemStep_requested, IH. }
  now rewrite H.
Qed.

(** The running price is the base price plus the adjustments of the
    modifiers pushed so far, and these are snapshots of the menu's
    options. *)
Lemma optionStep_price item g price0 st optionId :
  LineState.currentUnitPrice st
  = fold_left (fun p m => PrimFloat.add p (SelectedModifier.priceAdjustment m))
              (LineState.validatedModifiers st) price0 ->
  LineState.currentUnitPrice (optionStep item g st optionId)
  = fold_left (fun p m => PrimFloat.add p (SelectedModifier.priceAdjustment m))
              (LineState.validatedModifiers (optionStep item g st optionId)) price0.
Proof.
  intros H. unfold optionStep.
  destruct (findOption g optionId) as [d|]; [|exact H].
  destruct (ModifierOption.isAvailable d); cbn; rewrite fold_left_app, <- H; reflexivity.
Qed.

Lemma groupStep_price item selections price0 st g :
  LineState.currentUnitPrice st
  = fold_left (fun p m => PrimFloat.add p (SelectedModifier.priceAdjustment m))
              (LineState.validatedModifiers st) price0 ->
  LineState.currentUnitPrice (groupStep item selections st g)
  = fold_left (fun p m => PrimFloat.add p (SelectedModifier.priceAdjustment m))
              (LineState.validatedModifiers (groupStep item selections st g)) price0.
Proof.
  intros H. unfold groupStep.
  set (st2 := if ModifierGroup.maxSelection g <? _ then _ else _).
  assert (H2 : LineState.currentUnitPrice st2
               = fold_left (fun p m => PrimFloat.add p (SelectedModifier.priceAdjustment m))
                           (LineState.validatedModifiers st2) price0).
  { subst st2. case_bounds g; exact H. }
  revert H2. generalize st2.
  induction (default [] _) as [|o ids IH]; intros s Hs; simpl; [exact Hs|].
  apply IH. now apply optionStep_price.
Qed.

Lemma validateModifiers_price_is_menuPrice errors item menuDef :
  LineState.currentUnitPrice (validateModifiers errors item menuDef)
  = menuPrice menuDef (LineState.validatedModifiers (validateModifiers errors item menuDef)).
Proof.
  unfold validateModifiers, menuPrice.
  set (sel := userSelectionsByGroup _).
  assert (H : forall groups st,
             LineState.currentUnitPrice st
             = fold_left (fun p m => PrimFloat.add p (SelectedModifier.priceAdjustment m))
                         (LineState.validatedModifiers st) (MenuItem.basePrice menuDef) ->
             LineState.currentUnitPrice (fold_left (groupStep item sel) groups st)
             = fold_left (fun p m => PrimFloat.add p (SelectedModifier.priceAdjustment m))
                         (LineState.validatedModifiers
                            (fold_left (groupStep item sel) groups st))
                         (MenuItem.basePrice menuDef)).
  { induction groups as [|g groups IH]; intros st Hst; simpl; [exact Hst|].
    apply IH. now apply groupStep_price. }
  apply H. reflexivity.
Qed.

Lemma optionStep_snapshots item g (P : SelectedModifier.t -> Prop) st optionId :
  (forall o, findOption g optionId = Some o -> P (snapshot g o)) ->
  Forall P (LineState.validatedModifiers st) ->
  Forall P (LineState.validatedModifiers (optionStep item g st optionId)).
Proof.
  intros HP H. unfold optionStep.
  destruct (findOption g optionId) as [d|] eqn:Hfind; [|exact H].
  destruct (ModifierOption.isAvailable d); cbn;
    (apply Forall_app; split; [exact H | constructor; [now apply HP | constructor]]).
Qed.

Lemma groupModifiers_snapshots item g :
  Forall (fun m => exists o,
              findOption g (SelectedModifier.optionId m) = Some o
              /\ m = snapshot g o)
         (groupModifiers item g).
Proof.
  unfold groupModifiers, groupPass, groupStep.
  set (st2 := if ModifierGroup.maxSelection g <? _ then _ else _).
  assert (H2 : Forall (fun m => exists o,
                           findOption g (SelectedModifier.optionId m) = Some o
                           /\ m = snapshot g o)
                      (LineState.validatedModifiers st2)).
  { subst st2. case_bounds g; constructor. }
  revert H2. generalize st2.
  induction (default [] _) as [|oid ids IH]; intros s Hs; simpl; [exact Hs|].
  apply IH. apply optionStep_snapshots; [|exact Hs].
  intros o Hfind. exists o. split; [|reflexivity].
  cbn [snapshot SelectedModifier.optionId].
  now rewrite (findOption_id g oid o Hfind).
Qed.

(** X2.  Every line of the returned order is priced from the menu: its
    name is the menu item's name, its modifiers are snapshots of options of
    the menu item's groups (id, name and price adjustment as the menu has
    them), and its unit price is the menu item's base price plus the price
    adjustments of these modifiers, added in their order. *)
Theorem validateOrder_prices_from_menu now order menu v :
  In v (Order.items (ValidationResult.validatedOrder (validateOrder now order menu))) ->
  exists menuDef,
    findMenuItem menu (OrderItem.menuItemId v) = Some menuDef
    /\ OrderItem.name v = MenuItem.name menuDef
    /\ OrderItem.unitPrice v = menuPrice menuDef (OrderItem.selectedModifiers v)
    /\ Forall (snapshotOf menuDef) (OrderItem.selectedModifiers v).
Proof.
  intros Hv. rewrite validateOrder_closed_form in Hv.
  cbn [ValidationResult.validatedOrder Order.items] in Hv.
  apply in_flat_map in Hv as (item & _ & Hv).
  destruct (findMenuItem menu (OrderItem.menuItemId item)) as [menuDef|] eqn:Hfind.
  - destruct (itemStep_found menu item menuDef Hfind) as [_ HV].
    rewrite HV in Hv. destruct Hv as [<-|[]].
    exists menuDef. cbn [validatedItemOf OrderItem.menuItemId OrderItem.name
                         OrderItem.unitPrice OrderItem.selectedModifiers].
    split; [exact Hfind|]. split; [reflexivity|].
    split; [apply validateModifiers_price_is_menuPrice|].
    rewrite validateModifiers_modifiers.
    apply List.Forall_forall. intros m Hm.
    apply in_flat_map in Hm as (g & Hg & Hm).
    pose proof (proj1 (List.Forall_forall _ _) (groupModifiers_snapshots item g) m Hm)
      as (o & Ho & ->).
    exists g, o. cbn [snapshot SelectedModifier.groupId SelectedModifier.name
                      SelectedModifier.priceAdjustment].
    repeat split; try reflexivity; [exact Hg | exact Ho].
  - destruct (itemStep_not_found menu item Hfind) as [_ HV].
    rewrite HV in Hv. destruct Hv.
Qed.

Lemma validateOrder_prices_from_menu_witness :
  let v := OrderItem.mk "line_1" "latte" "Latte" 2%float 4%float
                        [SelectedModifier.mk "milk" "oat" "Oat milk" 0.5%float]
                        (Some "extra hot") in
  Order.items (ValidationResult.validatedOrder
                 (validateOrder "2024-01-01T00:00:01.000Z"
                                (orderOf [tamperedLatteLine]) menu_latte))
  = [v]
  /\ OrderItem.unitPrice v = menuPrice latte (OrderItem.selectedModifiers v).
Proof.
  cbv zeta. split; [reflexivity|].
  destruct (validateOrder_prices_from_menu "2024-01-01T00:00:01.000Z"
              (orderOf [tamperedLatteLine]) menu_latte _ (or_introl eq_refl))
    as (menuDef & Hfind & _ & Hprice & _).
  injection Hfind as <-. exact Hprice.
Defined.

(** X3.  The returned order holds exactly the lines whose menu item is in
    the menu, in their order, each with its id, menu item id, quantity and
    special instructions unchanged. *)
Theorem validateOrder_keeps_found_lines now order menu :
  List.map lineKey
           (Order.items (ValidationResult.validatedOrder (validateOrder now order menu)))
  = List.map lineKey (List.filter (itemFound menu) (Order.items order)).
Proof.
  rewrite validateOrder_closed_form.
  cbn [ValidationResult.validatedOrder Order.items].
  induction (Order.items order) as [|item items IH]; [reflexivity|].
  cbn [flat_map List.filter]. rewrite map_app, IH. unfold itemFound at 2.
  destruct (findMenuItem menu (OrderItem.menuItemId item)) as [menuDef|] eqn:Hfind.
  - destruct (itemStep_found menu item menuDef Hfind) as [_ ->]. reflexivity.
  - destruct (itemStep_not_found menu item Hfind) as [_ ->]. reflexivity.
Qed.

Lemma optionStep_errorAbout item g st optionId :
  Forall (errorAbout item) (LineState.errors st) ->
  Forall (errorAbout item) (LineState.errors (optionStep item g st optionId)).
Proof.
  intros H. unfold optionStep.
  destruct (findOption g optionId) as [d|].
  - destruct (ModifierOption.isAvailable d); cbn; [exact H|].
    apply Forall_app; split; [exact H|].
    constructor; [|constructor]. now repeat split.
  - cbn. apply Forall_app; split; [exact H|].
    constructor; [|constructor]. now repeat split.
Qed.

Lemma groupErrors_errorAbout item g :
  Forall (errorAbout item) (groupErrors item g).
Proof.
  unfold groupErrors, groupPass, groupStep.
  set (st2 := if ModifierGroup.maxSelection g <? _ then _ else _).
  assert (H2 : Forall (errorAbout item) (LineState.errors st2)).
  { subst st2. case_bounds g; cbn;
      repeat (constructor; try (now repeat split)). }
  revert H2. generalize st2.
  induction (default [] _) as [|oid ids IH]; intros s Hs; simpl; [exact Hs|].
  apply IH. now apply optionStep_errorAbout.
Qed.

(** X4.  Every error names a line of the order, by its line id and its
    menu item id, and no error carries the code [PRICE_MISMATCH]: a price
    that differs from the menu's is repriced, never reported. *)
Theorem validateOrder_errors_name_lines now order menu e :
  In e (ValidationResult.errors (validateOrder now order menu)) ->
  exists item, In item (Order.items order) /\ errorAbout item e.
Proof.
  rewrite validateOrder_errors. intros He.
  apply in_flat_map in He as (item & Hitem & He).
  exists item. split; [exact Hitem|].
  destruct (findMenuItem menu (OrderItem.menuItemId item)) as [menuDef|] eqn:Hfind.
  - destruct (itemStep_found menu item menuDef Hfind) as [HE _].
    rewrite HE in He. apply in_app_or in He as [He|He].
    + unfold availabilityErrors in He.
      destruct (MenuItem.isAvailable menuDef); [destruct He|].
      destruct He as [<-|[]]. now repeat split.
    + apply in_flat_map in He as (g & _ & He).
      exact (proj1 (List.Forall_forall _ _) (groupErrors_errorAbout item g) e He).
  - destruct (itemStep_not_found menu item Hfind) as [HE _].
    rewrite HE in He. destruct He as [<-|[]]. now repeat split.
Qed.

Lemma validateOrder_errors_name_lines_witness :
  exists item,
    In item (Order.items order_ghost) /\ errorAbout item (errItemNotFound ghostLine).
Proof.
  apply (validateOrder_errors_name_lines "2024-01-01T00:00:01.000Z"
           order_ghost menu_subcent).
  left. reflexivity.
Defined.

(** X5.  A single selection in a group whose bounds allow one: when the
    option id is not in the group, the pass pushes one [MODIFIER_INVALID]
    error and no modifier; when the option exists but is unavailable, the
    pass pushes one [MODIFIER_INVALID] error and still pushes the option's
    snapshot, which is priced like any other; when the option is available,
    the pass pushes the snapshot and no error. *)
Theorem groupPass_single_selection line g optionId :
  ModifierGroup.minSelection g <= 1 ->
  1 <= ModifierGroup.maxSelection g ->
  selectionsFor line (ModifierGroup.id g) = [optionId] ->
  match findOption g optionId with
  | None =>
      groupErrors line g = [errInvalidOption line g optionId]
      /\ groupModifiers line g = []
  | Some o =>
      groupErrors line g
      = (if ModifierOption.isAvailable o then [] else [errOptionUnavailable line o])
      /\ groupModifiers line g = [snapshot g o]
  end.
Proof.
  intros Hmin Hmax Hsel.
  unfold groupErrors, groupModifiers, groupPass, groupStep.
  rewrite userSelections_lookup, Hsel. cbn [length]. change (Z.of_nat 1) with 1.
  replace (1 <? ModifierGroup.minSelection g) with false
    by (symmetry; apply Z.ltb_ge; exact Hmin).
  replace (ModifierGroup.maxSelection g <? 1) with false
    by (symmetry; apply Z.ltb_ge; exact Hmax).
  cbn [fold_left]. unfold optionStep.
  destruct (findOption g optionId) as [o|]; [|split; reflexivity].
  destruct (ModifierOption.isAvailable o); split; reflexivity.
Qed.

Lemma groupPass_single_selection_witness :
  groupErrors (latteLine [pick "milk" "oat"]) milkGroupNoOat
  = [errOptionUnavailable (latteLine [pick "milk" "oat"])
                          (ModifierOption.mk "oat" "Oat milk" 0.5%float false)]
  /\ groupModifiers (latteLine [pick "milk" "oat"]) milkGroupNoOat
     = [SelectedModifier.mk "milk" "oat" "Oat milk" 0.5%float].
Proof.
  exact (groupPass_single_selection (latteLine [pick "milk" "oat"]) milkGroupNoOat "oat"
           ltac:(simpl; lia) ltac:(simpl; lia) eq_refl).
Defined.

(** X6.  Against an empty menu every line is reported as not found and
    none is returned: the errors are the item-not-found errors of the
    lines, in order, the returned order has no lines and amounts of zero,
    and the result is valid exactly when the order has no lines. *)
Theorem validateOrder_empty_menu now order :
  let r := validateOrder now order [] in
  ValidationResult.errors r = List.map errItemNotFound (Order.items order)
  /\ Order.items (ValidationResult.validatedOrder r) = []
  /\ Order.subtotal (ValidationResult.validatedOrder r) = 0%float
  /\ Order.tax (ValidationResult.validatedOrder r) = 0%float
  /\ Order.total (ValidationResult.validatedOrder r) = 0%float
  /\ ValidationResult.isValid r = Nat.eqb (length (Order.items order)) 0.
Proof.
  cbv zeta. rewrite validateOrder_closed_form.
  cbn [ValidationResult.errors ValidationResult.validatedOrder ValidationResult.isValid
       Order.items Order.subtotal Order.tax Order.total].
  assert (HE : flat_map (itemErrors []) (Order.items order)
               = List.map errItemNotFound (Order.items order)).
  { induction (Order.items order) as [|item items IH]; [reflexivity|].
    cbn [flat_map List.map]. now rewrite IH. }
  assert (HV : flat_map (itemValidated []) (Order.items order) = []).
  { induction (Order.items order) as [|item items IH]; [reflexivity|].
    cbn [flat_map]. now rewrite IH. }
  rewrite HE, HV, length_map. repeat split.
Qed.

(** * Further properties of the mutator *)

(** X7.  For an utterance and a catalog of ASCII texts: when no catalog
    entry matches the utterance, and so when the catalog is empty,
    [addItemFromText] returns the order as it is and reports no added
    item. *)
Theorem addItemFromText_no_match nowMs nowIso userText menu order :
  asciiText userText = true ->
  asciiCatalog menu = true ->
  existsb (utteranceMatches userText) menu = false ->
  addItemFromText nowMs nowIso userText menu order = OrderUpdate.mk order None.
Proof.
  intros _ _ Hnone. unfold addItemFromText. destruct menu as [|m menu]; [reflexivity|].
  apply find_none_existsb in Hnone. unfold utteranceMatches in Hnone.
  now rewrite Hnone.
Qed.

Lemma addItemFromText_no_match_witness :
  addItemFromText firstTurnMs "2023-11-14T22:13:20.000Z" "please confirm"
                  menu_burger cart_one_burger
  = OrderUpdate.mk cart_one_burger None.
Proof.
  exact (addItemFromText_no_match firstTurnMs "2023-11-14T22:13:20.000Z"
           "please confirm" menu_burger cart_one_burger eq_refl eq_refl eq_refl).
Defined.

Lemma applyMatch_addedItem nowMs nowIso matched quantity order :
  exists line,
    OrderUpdate.addedItem (applyMatch nowMs nowIso matched quantity order) = Some line
    /\ OrderItem.menuItemId line = MenuItem.id matched
    /\ OrderItem.selectedModifiers line = [].
Proof.
  unfold applyMatch. cbn [OrderUpdate.addedItem].
  destruct (findExisting matched (Order.items order)) as [existing|] eqn:Hfind.
  - exists existing. split; [reflexivity|].
    unfold findExisting in Hfind. apply find_some in Hfind as [_ Hm].
    apply andb_prop in Hm as [Hid Hmods].
    apply String.eqb_eq in Hid. apply Nat.eqb_eq in Hmods.
    split; [exact Hid | now apply length_zero_iff_nil].
  - eexists. split; [reflexivity|]. split; reflexivity.
Qed.

(** X8.  For an utterance and a catalog of ASCII texts, the first catalog
    entry that matches the utterance wins: when some entry matches, the
    catalog splits into entries that do not match, the matched entry and
    the rest, and the line that [addItemFromText] reports as added
    references the matched entry and has no modifiers. *)
Theorem addItemFromText_first_match nowMs nowIso userText menu order :
  asciiText userText = true ->
  asciiCatalog menu = true ->
  existsb (utteranceMatches userText) menu = true ->
  exists pre matched post line,
    menu = pre ++ matched :: post
    /\ forallb (fun item => negb (utteranceMatches userText item)) pre = true
    /\ utteranceMatches userText matched = true
    /\ OrderUpdate.addedItem (addItemFromText nowMs nowIso userText menu order)
       = Some line
    /\ OrderItem.menuItemId line = MenuItem.id matched
    /\ OrderItem.selectedModifiers line = [].
Proof.
  intros _ _ Hsome.
  destruct (List.find (utteranceMatches userText) menu) as [matched|] eqn:Hfind.
  - destruct (find_split _ _ _ Hfind) as (pre & post & Hsplit & Hm & Hpre).
    destruct (applyMatch_addedItem nowMs nowIso matched
                (extractQuantity (Str.toLowerCase userText) (MenuItem.name matched))
                order) as (line & Hadded & Hid & Hmods).
    exists pre, matched, post, line. repeat split; try assumption.
    unfold addItemFromText. destruct menu as [|m menu]; [discriminate Hfind|].
    unfold utteranceMatches in Hfind. rewrite Hfind. exact Hadded.
  - apply find_none_existsb in Hfind. congruence.
Qed.

Lemma addItemFromText_first_match_witness :
  exists pre matched post line,
    menu_burger = pre ++ matched :: post
    /\ forallb (fun item => negb (utteranceMatches "Some FRIES please" item)) pre = true
    /\ utteranceMatches "Some FRIES please" matched = true
    /\ OrderUpdate.addedItem
         (addItemFromText firstTurnMs "2023-11-14T22:13:20.000Z" "Some FRIES please"
                          menu_burger cart_one_burger)
       = Some line
    /\ OrderItem.menuItemId line = MenuItem.id matched
    /\ OrderItem.selectedModifiers line = [].
Proof.
  exact (addItemFromText_first_match firstTurnMs "2023-11-14T22:13:20.000Z"
           "Some FRIES please" menu_burger cart_one_burger eq_refl eq_refl eq_refl).
Defined.

Lemma applyMatch_preserves nowMs nowIso matched quantity order :
  let items := Order.items order in
  let order' := OrderUpdate.order (applyMatch nowMs nowIso matched quantity order) in
  List.map lineWithoutQuantity (firstn (length items) (Order.items order'))
  = List.map lineWithoutQuantity items
  /\ (length (Order.items order') = length items
      \/ length (Order.items order') = S (length items))
  /\ Order.id order' = Order.id order
  /\ Order.customerId order' = Order.customerId order
  /\ Order.status order' = Order.status order
  /\ Order.createdAt order' = Order.createdAt order.
Proof.
  cbv zeta. unfold applyMatch.
  cbn [OrderUpdate.order Order.items Order.id Order.customerId Order.status
       Order.createdAt].
  destruct (findExisting matched (Order.items order)) as [existing|].
  - rewrite length_map. split; [|now repeat split; left].
    rewrite <- (length_map
                  (fun item => if String.eqb (OrderItem.id item) (OrderItem.id existing)
                               then addQuantity quantity item else item)
                  (Order.items order)) at 1.
    rewrite firstn_all, map_map. apply map_ext. intros item.
    now destruct (String.eqb (OrderItem.id item) (OrderItem.id existing)).
  - split; [|repeat split; right; rewrite length_app; simpl; lia].
    rewrite firstn_app, Nat.sub_diag, firstn_all. simpl. now rewrite app_nil_r.
Qed.

(** X9.  [addItemFromText] never removes, reorders or edits a line beyond
    its quantity: the lines of the order it returns start with the lines it
    was given, each with the same id, menu item, name, unit price,
    modifiers and special instructions, followed by at most one new line;
    and the order keeps its id, customer, status and creation time. *)
Theorem addItemFromText_preserves nowMs nowIso userText menu order :
  let items := Order.items order in
  let order' := OrderUpdate.order (addItemFromText nowMs nowIso userText menu order) in
  List.map lineWithoutQuantity (firstn (length items) (Order.items order'))
  = List.map lineWithoutQuantity items
  /\ (length (Order.items order') = length items
      \/ length (Order.items order') = S (length items))
  /\ Order.id order' = Order.id order
  /\ Order.customerId order' = Order.customerId order
  /\ Order.status order' = Order.status order
  /\ Order.createdAt order' = Order.createdAt order.
Proof.
  cbv zeta.
  assert (Hsame : List.map lineWithoutQuantity
                    (firstn (length (Order.items order)) (Order.items order))
                  = List.map lineWithoutQuantity (Order.items order)
                  /\ (length (Order.items order) = length (Order.items order)
                      \/ length (Order.items order) = S (length (Order.items order)))
                  /\ Order.id order = Order.id order
                  /\ Order.customerId order = Order.customerId order
                  /\ Order.status order = Order.status order
                  /\ Order.createdAt order = Order.createdAt order).
  { rewrite firstn_all. repeat split. now left. }
  unfold addItemFromText. destruct menu as [|m menu]; [exact Hsame|].
  destruct (List.find _ (m :: menu)) as [matched|]; [|exact Hsame].
  apply applyMatch_preserves.
Qed.

(** ** The extracted quantity is never below one *)

Lemma SFltb_asym a b : SFltb a b = true -> SFltb b a = false.
Proof.
  unfold SFltb, SFcompare.
  destruct a as [sa|sa| |sa ma ea], b as [sb|sb| |sb mb eb];
    try destruct sa; try destruct sb; try discriminate; try reflexivity.
  - rewrite (Z.compare_antisym ea eb).
    destruct (ea ?= eb) eqn:He; cbn; try discriminate; try reflexivity.
    change (Pos.compare_cont Eq ma mb) with (Pos.compare ma mb).
    change (Pos.compare_cont Eq mb ma) with (Pos.compare mb ma).
    rewrite (Pos.compare_antisym ma mb).
    destruct (ma ?= mb)%positive; cbn; try discriminate; reflexivity.
  - rewrite (Z.compare_antisym ea eb).
    destruct (ea ?= eb) eqn:He; cbn; try discriminate; try reflexivity.
    change (Pos.compare_cont Eq ma mb) with (Pos.compare ma mb).
    change (Pos.compare_cont Eq mb ma) with (Pos.compare mb ma).
    rewrite (Pos.compare_antisym ma mb).
    destruct (ma ?= mb)%positive; cbn; try discriminate; reflexivity.
Qed.

Lemma ltb_asym x y : PrimFloat.ltb x y = true -> PrimFloat.ltb y x = false.
Proof. rewrite !FloatAxioms.ltb_spec. apply SFltb_asym. Qed.

Lemma max1_not_below x : belowOne (JS.max1 x) = false.
Proof.
  unfold belowOne, JS.max1. destruct (is_nan x); [reflexivity|].
  destruct (PrimFloat.ltb 1 x) eqn:H; [now apply ltb_asym | reflexivity].
Qed.

Lemma wordNumbers_not_below key v :
  wordNumbers !! key = Some v -> belowOne v = false.
Proof.
  intros H. unfold wordNumbers in H. apply elem_of_list_to_map_2 in H.
  assert (Hall : Forall (fun entry => belowOne (snd entry) = false) wordNumberTable)
    by (unfold wordNumberTable; repeat constructor).
  rewrite Forall_forall in Hall. exact (Hall _ H).
Qed.

Lemma scanWindow_not_below window q :
  scanWindow window = Some q -> belowOne q = false.
Proof.
  induction window as [|token rest IH]; cbn [scanWindow]; [discriminate|].
  destruct (Str.allDigits token).
  - intros [= <-]. apply max1_not_below.
  - destruct (wordNumbers !! token) as [v|] eqn:Hv; [|exact IH].
    destruct (JS.truthy v); [|exact IH].
    intros [= <-]. exact (wordNumbers_not_below token v Hv).
Qed.

(** X10.  For an utterance and an item name of ASCII texts, the
    utterance having no token [constructor], the extracted quantity is
    never below one: [quantity < 1] is false. *)
Theorem extractQuantity_not_below_one normalizedText itemName :
  asciiText normalizedText = true ->
  asciiText itemName = true ->
  namesInheritedKey normalizedText = false ->
  belowOne (extractQuantity normalizedText itemName) = false.
Proof.
  intros _ _ _. unfold extractQuantity.
  set (matched := match Str.tokens (Str.toLowerCase itemName) with
                  | [] => None
                  | _ => _
                  end).
  destruct matched as [m|].
  - destruct (JS.isFinite (NumberOf m)); [apply max1_not_below|].
    unfold wordNumberOr1.
    destruct (wordNumbers !! m) as [v|] eqn:Hv; [|reflexivity].
    destruct (JS.truthy v); [|reflexivity].
    exact (wordNumbers_not_below m v Hv).
  - destruct (findIndex _ _) as [index|]; [|reflexivity].
    destruct (scanWindow _) as [q|] eqn:Hq; [|reflexivity].
    exact (scanWindow_not_below _ q Hq).
Qed.

Lemma extractQuantity_not_below_one_witness :
  belowOne (extractQuantity "0 fries and tres burgers" "Fries") = false.
Proof.
  exact (extractQuantity_not_below_one "0 fries and tres burgers" "Fries"
           eq_refl eq_refl eq_refl).
Defined.

(** * Further properties of the orchestrator *)

Lemma OrderStatus_eqb_eq a b : OrderStatus_eqb a b = true <-> a = b.
Proof. destruct a, b; simpl; split; intros H; try reflexivity; discriminate. Qed.

(** The outcome of a turn, case by case. *)
Lemma advanceConversation_cases clock services state userText :
  advanceConversation clock services state userText
  = match TurnServices.generateAssistantReply services with
    | None => ConversationError "Failed to generate response." "AI_SERVICE_ERROR"
    | Some reply =>
        let update := turnUpdate clock services state userText in
        let added := option_map OrderItem.name (OrderUpdate.addedItem update) in
        let validation := turnValidation clock services state in
        let confirms :=
          andb (finalizeRequested state userText) (ValidationResult.isValid validation) in
        let blocks :=
          andb (finalizeRequested state userText)
               (negb (ValidationResult.isValid validation)) in
        Resolved
          (ConversationState.mk
             (ConversationState.conversationId state)
             (ConversationState.history state
                ++ [userTurnOf clock userText;
                    assistantTurnOf clock
                      (if blocks
                       then guardrailMessage (ValidationResult.errors validation)
                       else reply)
                      (Metadata.mk added (if confirms then Some confirmed else None))])
             (if confirms then withStatus confirmed (OrderUpdate.order update)
              else OrderUpdate.order update)
             (TurnClock.lastUpdatedIso clock))
    end.
Proof.
  unfold advanceConversation, turnUpdate, turnValidation, turnMenu, finalizeRequested,
    userTurnOf, assistantTurnOf.
  destruct (TurnServices.generateAssistantReply services) as [reply|]; [|reflexivity].
  cbv zeta.
  destruct (andb _ (finalizeIntent userText)); cbn [andb negb];
    [destruct (ValidationResult.isValid _); cbn [negb]|];
    rewrite <- app_assoc; reflexivity.
Qed.

(** X11.  History is append-only and a turn fails only with the
    generator: when the reply generator fails the call rejects with
    [AI_SERVICE_ERROR]; otherwise, whatever the menu fetch did, it resolves
    with a state that keeps the conversation id and whose history is the
    given history followed by exactly two turns, the user's turn carrying
    the user text and an assistant turn. *)
Theorem advanceConversation_appends clock services state userText :
  match TurnServices.generateAssistantReply services with
  | None =>
      advanceConversation clock services state userText
      = ConversationError "Failed to generate response." "AI_SERVICE_ERROR"
  | Some _ =>
      exists st' content metadata,
        advanceConversation clock services state userText = Resolved st'
        /\ ConversationState.conversationId st' = ConversationState.conversationId state
        /\ ConversationState.history st'
           = ConversationState.history state
             ++ [userTurnOf clock userText; assistantTurnOf clock content metadata]
  end.
Proof.
  rewrite advanceConversation_cases.
  destruct (TurnServices.generateAssistantReply services) as [reply|]; [|reflexivity].
  cbv zeta. eexists _, _, _. split; [reflexivity|]. split; reflexivity.
Qed.

(** X12.  The only status change a turn makes is from pending to
    confirmed, and it makes it exactly when the order is pending, the user
    text has the finalize intent and the order the turn started with
    validates against the turn's menu.  In every other case the status is
    the one the turn started with. *)
Theorem advanceConversation_status clock services state userText st' :
  advanceConversation clock services state userText = Resolved st' ->
  let confirms :=
    andb (finalizeRequested state userText)
         (ValidationResult.isValid (turnValidation clock services state)) in
  Order.status (ConversationState.currentOrder st')
  = (if confirms then confirmed
     else Order.status (ConversationState.currentOrder state))
  /\ (confirms = true ->
      Order.status (ConversationState.currentOrder state) = pending).
Proof.
  rewrite advanceConversation_cases.
  destruct (TurnServices.generateAssistantReply services) as [reply|]; [|discriminate].
  cbv zeta. intros [= <-]. cbn [ConversationState.currentOrder]. split.
  - destruct (andb _ _); [reflexivity|].
    unfold turnUpdate. apply addItemFromText_status.
  - intros H. apply andb_prop in H as [H _]. unfold finalizeRequested in H.
    apply andb_prop in H as [H _]. now apply OrderStatus_eqb_eq.
Qed.

Lemma advanceConversation_status_witness :
  exists st',
    advanceConversation clock_sample services_cheerful state_with_fries "please confirm"
    = Resolved st'
    /\ Order.status (ConversationState.currentOrder st') = pending.
Proof.
  eexists. split; [reflexivity|].
  exact (proj1 (advanceConversation_status clock_sample services_cheerful
                  state_with_fries "please confirm" _ eq_refl)).
Defined.

(** X13.  The guardrail validates the order the turn started with, not
    the order after the turn's own addition: when the order is pending and
    valid and the user text has the finalize intent, the turn resolves with
    the updated order, marked confirmed, the generator's reply as content
    and the status change recorded in the metadata, whether or not the
    line the turn just added would pass validation. *)
Theorem advanceConversation_confirms_updated_order clock services state userText reply :
  TurnServices.generateAssistantReply services = Some reply ->
  finalizeRequested state userText = true ->
  ValidationResult.isValid (turnValidation clock services state) = true ->
  let update := turnUpdate clock services state userText in
  advanceConversation clock services state userText
  = Resolved
      (ConversationState.mk
         (ConversationState.conversationId state)
         (ConversationState.history state
            ++ [userTurnOf clock userText;
                assistantTurnOf clock reply
                  (Metadata.mk (option_map OrderItem.name (OrderUpdate.addedItem update))
                               (Some confirmed))])
         (withStatus confirmed (OrderUpdate.order update))
         (TurnClock.lastUpdatedIso clock)).
Proof.
  intros Hreply Hreq Hvalid. rewrite advanceConversation_cases, Hreply.
  cbv zeta. now rewrite Hreq, Hvalid.
Qed.

(** "confirm fries" on an empty cart while the fries are unavailable: the
    empty cart is valid, so the cart with the fries is confirmed, though it
    does not validate. *)
Lemma advanceConversation_confirms_updated_order_witness :
  exists st',
    advanceConversation clock_sample services_fries_out state_empty_cart "confirm fries"
    = Resolved st'
    /\ Order.status (ConversationState.currentOrder st') = confirmed
    /\ List.map OrderItem.menuItemId (Order.items (ConversationState.currentOrder st'))
       = ["fries"]
    /\ ValidationResult.isValid
         (validateOrder "2023-11-14T22:13:22.000Z"
                        (ConversationState.currentOrder st') menu_fries_out)
       = false.
Proof.
  eexists. split.
  - exact (advanceConversation_confirms_updated_order clock_sample services_fries_out
             state_empty_cart "confirm fries" _ eq_refl eq_refl eq_refl).
  - repeat split.
Defined.

(** X14.  When the order is not pending or the user text has no finalize
    intent, the turn passes the generator's reply through as the assistant
    turn's content, records no status change and returns the updated order
    with its status untouched. *)
Theorem advanceConversation_passes_reply clock services state userText reply :
  TurnServices.generateAssistantReply services = Some reply ->
  finalizeRequested state userText = false ->
  let update := turnUpdate clock services state userText in
  advanceConversation clock services state userText
  = Resolved
      (ConversationState.mk
         (ConversationState.conversationId state)
         (ConversationState.history state
            ++ [userTurnOf clock userText;
                assistantTurnOf clock reply
                  (Metadata.mk (option_map OrderItem.name (OrderUpdate.addedItem update))
                               None)])
         (OrderUpdate.order update)
         (TurnClock.lastUpdatedIso clock)).
Proof.
  intros Hreply Hreq. rewrite advanceConversation_cases, Hreply.
  cbv zeta. now rewrite Hreq.
Qed.

Lemma advanceConversation_passes_reply_witness :
  exists st',
    advanceConversation clock_sample services_cheerful state_with_fries "one more thing"
    = Resolved st'
    /\ List.map ConversationTurn.content (ConversationState.history st')
       = ["one more thing"; "Your order is confirmed!"]
    /\ Order.status (ConversationState.currentOrder st') = pending.
Proof.
  eexists. split.
  - exact (advanceConversation_passes_reply clock_sample services_cheerful
             state_with_fries "one more thing" _ eq_refl eq_refl).
  - split; reflexivity.
Defined.

Lemma validateOrder_no_menu now order :
  ValidationResult.errors (validateOrder now order [])
  = List.map errItemNotFound (Order.items order)
  /\ ValidationResult.isValid (validateOrder now order [])
     = Nat.eqb (length (Order.items order)) 0.
Proof.
  rewrite validateOrder_closed_form.
  cbn [ValidationResult.errors ValidationResult.isValid].
  assert (HE : flat_map (itemErrors []) (Order.items order)
               = List.map errItemNotFound (Order.items order)).
  { induction (Order.items order) as [|item items IH]; [reflexivity|].
    cbn [flat_map List.map]. now rewrite IH. }
  rewrite HE, length_map. split; reflexivity.
Qed.

(** X15.  When the menu fetch fails the turn goes on with an empty menu:
    nothing is added to the order, and a request to finalize a pending
    order confirms it exactly when it has no lines; when it has lines the
    order stays as it was and the assistant turn lists an item-not-found
    message for every line. *)
Theorem advanceConversation_menu_unavailable clock services state userText reply :
  TurnServices.fetchMenu services = None ->
  TurnServices.generateAssistantReply services = Some reply ->
  exists st' content metadata,
    advanceConversation clock services state userText = Resolved st'
    /\ ConversationState.history st'
       = ConversationState.history state
         ++ [userTurnOf clock userText; assistantTurnOf clock content metadata]
    /\ Metadata.itemAdded metadata = None
    /\ (finalizeRequested state userText = false ->
        ConversationState.currentOrder st' = ConversationState.currentOrder state
        /\ content = reply)
    /\ (finalizeRequested state userText = true ->
        Order.items (ConversationState.currentOrder state) = [] ->
        ConversationState.currentOrder st'
        = withStatus confirmed (ConversationState.currentOrder state)
        /\ content = reply)
    /\ (finalizeRequested state userText = true ->
        Order.items (ConversationState.currentOrder state) <> [] ->
        ConversationState.currentOrder st' = ConversationState.currentOrder state
        /\ content
           = guardrailMessage
               (List.map errItemNotFound
                         (Order.items (ConversationState.currentOrder state)))).
Proof.
  intros Hfetch Hreply. rewrite advanceConversation_cases, Hreply. cbv zeta.
  unfold turnUpdate, turnValidation, turnMenu. rewrite Hfetch. cbn [default].
  destruct (validateOrder_no_menu (TurnClock.validationIso clock)
              (ConversationState.currentOrder state)) as [HE HV].
  rewrite HE, HV. cbn [addItemFromText OrderUpdate.order OrderUpdate.addedItem option_map].
  eexists _, _, _. split; [reflexivity|]. split; [reflexivity|]. split; [reflexivity|].
  split; [|split].
  - intros ->. split; reflexivity.
  - intros -> ->. split; reflexivity.
  - intros -> Hne.
    destruct (Order.items (ConversationState.currentOrder state)) as [|x xs];
      [contradiction|].
    split; reflexivity.
Qed.

Lemma advanceConversation_menu_unavailable_witness :
  exists st',
    advanceConversation clock_sample services_offline state_with_fries "confirm"
    = Resolved st'
    /\ ConversationState.currentOrder st' = ConversationState.currentOrder state_with_fries
    /\ List.map ConversationTurn.content (ConversationState.history st')
       = ["confirm";
          "I can't place the order yet. Menu item with ID 'fries_side' not found."].
Proof.
  destruct (advanceConversation_menu_unavailable clock_sample services_offline
              state_with_fries "confirm" "Sure." eq_refl eq_refl)
    as (st' & content & metadata & Hrun & Hhist & _ & _ & _ & Hblocked).
  destruct (Hblocked eq_refl ltac:(discriminate)) as [Horder Hcontent].
  exists st'. split; [exact Hrun|]. split; [exact Horder|].
  rewrite Hhist, Hcontent. reflexivity.
Defined.

(** X16.  A fresh conversation starts with an empty history and a
    pending order without lines that validates against every menu; so, for
    an utterance and a catalog of ASCII texts, a first turn with the
    finalize intent that matches no catalog entry confirms an order without
    lines. *)
Theorem createInitialState_confirmable convMs ordMs createdIso updatedIso lastIso
        conversationId clock services userText reply :
  let st0 := createInitialState convMs ordMs createdIso updatedIso lastIso conversationId in
  asciiText userText = true ->
  asciiCatalog (turnMenu services) = true ->
  finalizeIntent userText = true ->
  existsb (utteranceMatches userText) (turnMenu services) = false ->
  TurnServices.generateAssistantReply services = Some reply ->
  ConversationState.history st0 = []
  /\ (forall now menu,
        ValidationResult.isValid
          (validateOrder now (ConversationState.currentOrder st0) menu) = true)
  /\ exists st',
      advanceConversation clock services st0 userText = Resolved st'
      /\ Order.status (ConversationState.currentOrder st') = confirmed
      /\ Order.items (ConversationState.currentOrder st') = []
      /\ List.map ConversationTurn.content (ConversationState.history st')
         = [userText; reply].
Proof.
  intros st0 _ _ Hintent Hnone Hreply. split; [reflexivity|]. split; [reflexivity|].
  rewrite advanceConversation_cases, Hreply. cbv zeta.
  assert (Hupd : turnUpdate clock services st0 userText
                 = OrderUpdate.mk (ConversationState.currentOrder st0) None).
  { unfold turnUpdate, addItemFromText.
    destruct (turnMenu services) as [|m menu]; [reflexivity|].
    apply find_none_existsb in Hnone. unfold utteranceMatches in Hnone.
    now rewrite Hnone. }
  rewrite Hupd. unfold finalizeRequested. rewrite Hintent.
  eexists. split; [reflexivity|]. repeat split.
Qed.

Lemma createInitialState_confirmable_witness :
  exists st',
    advanceConversation clock_sample services_cheerful
      (createInitialState 1700000000000 1700000000000
         "2023-11-14T22:13:20.000Z" "2023-11-14T22:13:20.000Z"
         "2023-11-14T22:13:20.000Z" None)
      "please confirm"
    = Resolved st'
    /\ Order.status (ConversationState.currentOrder st') = confirmed
    /\ Order.items (ConversationState.currentOrder st') = [].
Proof.
  destruct (createInitialState_confirmable 1700000000000 1700000000000
              "2023-11-14T22:13:20.000Z" "2023-11-14T22:13:20.000Z"
              "2023-11-14T22:13:20.000Z" None clock_sample services_cheerful
              "please confirm" "Your order is confirmed!"
              eq_refl eq_refl eq_refl eq_refl eq_refl)
    as (_ & _ & st' & Hrun & Hstatus & Hitems & _).
  exists st'. repeat split; assumption.
Defined.

(** * Further properties of the submission client *)

Lemma attemptStep_settle attempt outcome :
  attemptStep attempt outcome
  = if andb (retryable outcome) (attempt <? RetryConfig.maxRetries RETRY_CONFIG)%nat
    then Retry else Return (settle outcome).
Proof.
  unfold attemptStep, retryable, settle.
  destruct outcome as [response|error].
  - destruct (Response.ok response); cbn [negb].
    + destruct (Response.json response) as [[|data]|error]; try reflexivity.
      destruct (truthyString (Json.confirmationId data)); reflexivity.
    + destruct (errorBodyOf response) as [|errorBody].
      * destruct (orb (500 <=? Response.status response)
                      (Response.status response =? 429)); cbn [andb];
          [destruct (attempt <? RetryConfig.maxRetries RETRY_CONFIG)%nat|];
          reflexivity.
      * reflexivity.
  - reflexivity.
Qed.

(** The loop stops at the first answer it does not retry, or at the call
    that exhausts the budget. *)
Lemma submitLoop_stops endpoint :
  forall fuel attempt delay sleeps,
    (attempt <= RetryConfig.maxRetries RETRY_CONFIG)%nat ->
    (RetryConfig.maxRetries RETRY_CONFIG < fuel + attempt)%nat ->
    exists k,
      (attempt <= k <= RetryConfig.maxRetries RETRY_CONFIG)%nat
      /\ (forall j, (attempt <= j < k)%nat -> retryable (endpoint j) = true)
      /\ ((k < RetryConfig.maxRetries RETRY_CONFIG)%nat ->
          retryable (endpoint k) = false)
      /\ submitLoop fuel endpoint attempt delay sleeps
         = Some (Run.mk (settle (endpoint k))
                        (sleeps ++ delaysFrom delay (k - attempt)) (S k)).
Proof.
  induction fuel as [|fuel IH]; intros attempt delay sleeps Hle Hfuel;
    [simpl in *; lia|].
  cbn [submitLoop]. apply Nat.leb_le in Hle as Hleb. rewrite Hleb.
  rewrite attemptStep_settle.
  destruct (retryable (endpoint attempt)) eqn:Hretry; cbn [andb].
  - destruct (attempt <? RetryConfig.maxRetries RETRY_CONFIG)%nat eqn:Hlt.
    + apply Nat.ltb_lt in Hlt.
      destruct (IH (S attempt) (delay * RetryConfig.backoffFactor RETRY_CONFIG)
                   (sleeps ++ [delay]) ltac:(lia) ltac:(lia))
        as (k & Hk & Hbefore & Hlast & Hrun).
      exists k. split; [lia|]. split; [|split; [exact Hlast|]].
      * intros j Hj. destruct (Nat.eq_dec j attempt) as [->|Hne];
          [exact Hretry | apply Hbefore; lia].
      * rewrite Hrun. replace (k - attempt)%nat with (S (k - S attempt)) by lia.
        cbn [delaysFrom]. now rewrite <- app_assoc.
    + apply Nat.ltb_ge in Hlt. exists attempt. split; [lia|].
      split; [intros j Hj; lia|]. split; [intros Hk; lia|].
      rewrite Nat.sub_diag. cbn [delaysFrom]. now rewrite app_nil_r.
  - exists attempt. split; [lia|].
    split; [intros j Hj; lia|]. split; [intros _; exact Hretry|].
    rewrite Nat.sub_diag. cbn [delaysFrom]. now rewrite app_nil_r.
Qed.

Lemma delaysFrom_backoff k :
  (k <= 3)%nat ->
  delaysFrom (RetryConfig.initialDelayMs RETRY_CONFIG) k = firstn k backoffDelays.
Proof.
  intros Hk. destruct k as [|[|[|[|k]]]]; try reflexivity. lia.
Qed.

Lemma submitOrder_stops url endpoint order :
  nonEmpty url = true ->
  exists k,
    (k <= 3)%nat
    /\ (forall j, (j < k)%nat -> retryable (endpoint j) = true)
    /\ ((k < 3)%nat -> retryable (endpoint k) = false)
    /\ submitOrder url endpoint order
       = Some (Run.mk (settle (endpoint k)) (firstn k backoffDelays) (S k)).
Proof.
  intros Hurl. unfold submitOrder, submitOrderFuel. rewrite Hurl. cbn [negb].
  destruct (submitLoop_stops endpoint (RetryConfig.maxRetries RETRY_CONFIG + 2) 0
              (RetryConfig.initialDelayMs RETRY_CONFIG) []
              ltac:(simpl; lia) ltac:(simpl; lia))
    as (k & Hk & Hbefore & Hlast & Hrun).
  exists k. cbn [RetryConfig.maxRetries RETRY_CONFIG] in *.
  split; [lia|]. split; [intros j Hj; apply Hbefore; lia|]. split; [exact Hlast|].
  rewrite Hrun, Nat.sub_0_r, delaysFrom_backoff by lia. reflexivity.
Qed.

(** X17.  With a configured URL, [submitOrder] stops at the first answer
    that is not retryable, or at the fourth call: it makes between one and
    four calls, every call before the last got a retryable answer, it
    slept once before each retry with the delays 1000, 2000, 4000, and its
    result is what the last answer settles into.  Retryable are the
    transient statuses and the network errors, and also every response
    whose body is [null], whatever its status, since reading a field of it
    throws a [TypeError] that the [catch] block takes for a network error.
    Without a configured URL the client makes no call and fails with
    [CONFIG_ERROR]. *)
Theorem submitOrder_budget url endpoint order :
  (nonEmpty url = true ->
   exists k,
     (k <= 3)%nat
     /\ (forall j, (j < k)%nat -> retryable (endpoint j) = true)
     /\ ((k < 3)%nat -> retryable (endpoint k) = false)
     /\ submitOrder url endpoint order
        = Some (Run.mk (settle (endpoint k)) (firstn k backoffDelays) (S k)))
  /\ (nonEmpty url = false ->
      submitOrder url endpoint order
      = Some (Run.mk (Failure (ApiError.mk "CONFIG_ERROR"
                                 "Order submission URL is not configured." None))
                     [] 0)).
Proof.
  split.
  - apply submitOrder_stops.
  - intros Hurl. unfold submitOrder, submitOrderFuel. now rewrite Hurl.
Qed.

Lemma submitOrder_budget_witness :
  submitOrder posUrl endpoint_recovers (orderOf [])
  = Some (Run.mk (settle (Responded responseAccepted)) [1000; 2000; 4000] 4)
  /\ submitOrder "" endpoint_recovers (orderOf [])
     = Some (Run.mk (Failure (ApiError.mk "CONFIG_ERROR"
                                "Order submission URL is not configured." None))
                    [] 0).
Proof.
  destruct (submitOrder_budget posUrl endpoint_recovers (orderOf [])) as [Hconf _].
  destruct (submitOrder_budget "" endpoint_recovers (orderOf [])) as [_ Hnone].
  split; [|exact (Hnone eq_refl)].
  destruct (Hconf eq_refl) as (k & Hk & Hbefore & Hlast & Hrun).
  destruct k as [|[|[|[|k]]]]; try (specialize (Hlast ltac:(lia)); discriminate Hlast);
    [exact Hrun | lia].
Defined.

(** X18.  An answer that is not retryable ends the run at once, whatever
    budget is left: a first response that is not ok, with a status below
    500 other than 429 and an error body that is not [null], gives the
    failure [HTTP_<status>]; a first ok response whose body is not [null]
    and has no confirmation id gives [INVALID_RESPONSE]; a first rejection
    that is neither a [TypeError] nor a [FetchError] gives [NETWORK_ERROR].
    In each case one call was made and none slept for.  A [null] body is
    not such an answer: when every response is not ok and has the error
    body [null], whatever the statuses, the client makes four calls, sleeps
    1000, 2000 and 4000 and fails with [NETWORK_ERROR]. *)
Theorem submitOrder_terminal_answers url endpoint order :
  nonEmpty url = true ->
  (forall r errorBody,
      endpoint 0%nat = Responded r -> Response.ok r = false ->
      Response.status r < 500 -> Response.status r <> 429 ->
      errorBodyOf r = JsonFields errorBody ->
      submitOrder url endpoint order = Some (Run.mk (httpFailure r errorBody) [] 1)
      /\ failureCode (httpFailure r errorBody)
         = Some ("HTTP_" +:+ JS.showZ (Response.status r)))
  /\ (forall r data,
        endpoint 0%nat = Responded r -> Response.ok r = true ->
        Response.json r = inl (JsonFields data) ->
        truthyString (Json.confirmationId data) = None ->
        submitOrder url endpoint order
        = Some (Run.mk (Failure (ApiError.mk "INVALID_RESPONSE"
                                   "External API did not return a confirmation ID."
                                   None))
                       [] 1))
  /\ (forall error,
        endpoint 0%nat = Rejected error -> isNetworkError error = false ->
        submitOrder url endpoint order = Some (Run.mk (networkFailure error) [] 1)
        /\ failureCode (networkFailure error) = Some "NETWORK_ERROR")
  /\ ((forall call, exists r,
          endpoint call = Responded r
          /\ Response.ok r = false /\ errorBodyOf r = JsonNull) ->
      submitOrder url endpoint order
      = Some (Run.mk (networkFailure (nullRead "message")) backoffDelays 4)
      /\ failureCode (networkFailure (nullRead "message")) = Some "NETWORK_ERROR").
Proof.
  intros Hurl.
  assert (Hfirst : retryable (endpoint 0%nat) = false ->
                   submitOrder url endpoint order
                   = Some (Run.mk (settle (endpoint 0%nat)) [] 1)).
  { intros Hno. unfold submitOrder, submitOrderFuel. rewrite Hurl.
    cbn [negb RetryConfig.maxRetries RETRY_CONFIG Nat.add submitLoop Nat.leb].
    rewrite attemptStep_settle, Hno. reflexivity. }
  split; [|split; [|split]].
  - intros r errorBody Hr Hok Hlt Hne Hbody. split; [|reflexivity].
    rewrite Hfirst; rewrite Hr; cbn [retryable settle]; rewrite Hok, Hbody;
      [reflexivity|].
    apply orb_false_intro; [now apply Z.leb_gt | now apply Z.eqb_neq].
  - intros r data Hr Hok Hjson Hcid.
    rewrite Hfirst; rewrite Hr; cbn [retryable settle]; rewrite Hok, Hjson;
      [now rewrite Hcid | reflexivity].
  - intros error Hr Hnet. split; [|reflexivity].
    rewrite Hfirst; rewrite Hr; cbn [retryable settle]; [reflexivity | exact Hnet].
  - intros Hnull. split; [|reflexivity].
    assert (Hstep : forall call,
               retryable (endpoint call) = true
               /\ settle (endpoint call) = networkFailure (nullRead "message")).
    { intros call. destruct (Hnull call) as (r & -> & Hok & Hbody).
      cbn [retryable settle]. now rewrite Hok, Hbody. }
    unfold submitOrder, submitOrderFuel. rewrite Hurl.
    cbn [negb RetryConfig.maxRetries RetryConfig.initialDelayMs
         RetryConfig.backoffFactor RETRY_CONFIG Nat.add submitLoop Nat.leb].
    rewrite !attemptStep_settle.
    rewrite (proj1 (Hstep 0%nat)), (proj1 (Hstep 1%nat)), (proj1 (Hstep 2%nat)),
      (proj1 (Hstep 3%nat)), (proj2 (Hstep 3%nat)).
    reflexivity.
Qed.

Lemma submitOrder_terminal_answers_witness :
  submitOrder posUrl (fun _ => Responded response402) (orderOf [])
  = Some (Run.mk (Failure (ApiError.mk "HTTP_402" "Card declined"
                             (Some (Json.mk (Some "Card declined") None None))))
                 [] 1)
  /\ submitOrder posUrl (fun _ => Responded responseNoId) (orderOf [])
     = Some (Run.mk (Failure (ApiError.mk "INVALID_RESPONSE"
                                "External API did not return a confirmation ID." None))
                    [] 1)
  /\ submitOrder posUrl (fun _ => Responded response400Null) (orderOf [])
     = Some (Run.mk (Failure (ApiError.mk
                                "NETWORK_ERROR"
                                "Cannot read properties of null (reading 'message')"
                                None))
                    [1000; 2000; 4000] 4).
Proof.
  split; [|split].
  - destruct (submitOrder_terminal_answers posUrl (fun _ => Responded response402)
                (orderOf []) eq_refl) as [Hhttp _].
    exact (proj1 (Hhttp response402 _ eq_refl eq_refl ltac:(simpl; lia)
                    ltac:(simpl; lia) eq_refl)).
  - destruct (submitOrder_terminal_answers posUrl (fun _ => Responded responseNoId)
                (orderOf []) eq_refl) as (_ & Hid & _).
    exact (Hid responseNoId _ eq_refl eq_refl eq_refl eq_refl).
  - destruct (submitOrder_terminal_answers posUrl (fun _ => Responded response400Null)
                (orderOf []) eq_refl) as (_ & _ & _ & Hnull).
    exact (proj1 (Hnull (fun _ => ex_intro _ response400Null
                                     (conj eq_refl (conj eq_refl eq_refl))))).
Defined.

(** X19.  When every call is rejected with a network error ([TypeError] or
    [FetchError]), [submitOrder] makes four calls, sleeps 1000, 2000 and
    4000 between them and fails with [NETWORK_ERROR], carrying the message
    of the last error. *)
Theorem submitOrder_unreachable url endpoint order e0 e1 e2 e3 :
  nonEmpty url = true ->
  endpoint 0%nat = Rejected e0 -> isNetworkError e0 = true ->
  endpoint 1%nat = Rejected e1 -> isNetworkError e1 = true ->
  endpoint 2%nat = Rejected e2 -> isNetworkError e2 = true ->
  endpoint 3%nat = Rejected e3 ->
  submitOrder url endpoint order
  = Some (Run.mk (Failure (ApiError.mk "NETWORK_ERROR"
                             (default "Unknown network error occurred"
                                      (Thrown.message e3))
                             None))
                 backoffDelays 4).
Proof.
  intros Hurl E0 N0 E1 N1 E2 N2 E3.
  unfold submitOrder, submitOrderFuel. rewrite Hurl.
  cbn [negb RetryConfig.maxRetries RETRY_CONFIG Nat.add submitLoop Nat.leb].
  rewrite !attemptStep_settle, E0, E1, E2, E3.
  cbn [retryable]. rewrite N0, N1, N2. cbn. rewrite andb_false_r. reflexivity.
Qed.

Lemma submitOrder_unreachable_witness :
  submitOrder posUrl endpoint_unreachable (orderOf [])
  = Some (Run.mk (Failure (ApiError.mk "NETWORK_ERROR" "fetch failed" None))
                 [1000; 2000; 4000] 4).
Proof.
  exact (submitOrder_unreachable posUrl endpoint_unreachable (orderOf [])
           connectionRefused connectionRefused connectionRefused connectionRefused
           eq_refl eq_refl eq_refl eq_refl eq_refl eq_refl eq_refl eq_refl).
Defined.

(** X20.  A run succeeds only on an accepted answer, and its failures
    carry one of four kinds of code: when the result is a success, the last
    call got an ok response whose body carries the confirmation id of the
    result; when it is a failure, its code is [CONFIG_ERROR],
    [INVALID_RESPONSE], [NETWORK_ERROR] or [HTTP_] followed by the status
    of the last response.  The [TIMEOUT] failure after the loop is never
    returned. *)
Theorem submitOrder_results url endpoint order run :
  submitOrder url endpoint order = Some run ->
  match Run.result run with
  | Success data =>
      exists r,
        endpoint (Run.fetches run - 1)%nat = Responded r
        /\ acceptedResponse r (SubmissionData.confirmationId data)
  | Failure error =>
      ApiError.code error = "CONFIG_ERROR"
      \/ ApiError.code error = "INVALID_RESPONSE"
      \/ ApiError.code error = "NETWORK_ERROR"
      \/ exists r,
          endpoint (Run.fetches run - 1)%nat = Responded r
          /\ ApiError.code error = "HTTP_" +:+ JS.showZ (Response.status r)
  end.
Proof.
  intros Hrun. destruct (nonEmpty url) eqn:Hurl.
  - destruct (submitOrder_stops url endpoint order Hurl) as (k & _ & _ & _ & Hk).
    rewrite Hk in Hrun. injection Hrun as <-.
    cbn [Run.result Run.fetches]. replace (S k - 1)%nat with k by lia.
    unfold settle. destruct (endpoint k) as [r|error].
    + destruct (Response.ok r) eqn:Hok.
      * destruct (Response.json r) as [[|data]|error] eqn:Hjson.
        -- right. right. left. reflexivity.
        -- destruct (truthyString (Json.confirmationId data)) as [cid|] eqn:Hcid.
           ++ exists r. split; [reflexivity|]. split; [exact Hok|].
              exists data. split; [exact Hjson | exact Hcid].
           ++ right. left. reflexivity.
        -- right. right. left. reflexivity.
      * destruct (errorBodyOf r) as [|errorBody].
        -- right. right. left. reflexivity.
        -- right. right. right. exists r. split; reflexivity.
    + right. right. left. reflexivity.
  - unfold submitOrder, submitOrderFuel in Hrun. rewrite Hurl in Hrun.
    injection Hrun as <-. left. reflexivity.
Qed.

Lemma submitOrder_results_witness :
  exists r,
    endpoint_recovers 3%nat = Responded r /\ acceptedResponse r "conf_42".
Proof.
  exact (submitOrder_results posUrl endpoint_recovers (orderOf [])
           (Run.mk (Success (SubmissionData.mk "conf_42" 12)) [1000; 2000; 4000] 4)
           eq_refl).
Defined.

(** * The menu summary *)

Lemma InsertionMap_get_set key value m key' :
  InsertionMap.get key' (InsertionMap.set key value m)
  = if String.eqb key key' then Some value else InsertionMap.get key' m.
Proof.
  induction m as [|[k v] m IH]; simpl.
  - destruct (String.eqb key key'); reflexivity.
  - destruct (String.eqb_spec k key) as [->|Hne]; simpl.
    + destruct (String.eqb key key'); reflexivity.
    + rewrite IH. destruct (String.eqb_spec key key') as [Heq|Hne'];
        [|reflexivity].
      subst key'. destruct (String.eqb_spec k key); [contradiction | reflexivity].
Qed.

Lemma InsertionMap_keys_set key value m :
  List.map fst (InsertionMap.set key value m)
  = if existsb (String.eqb key) (List.map fst m) then List.map fst m
    else List.map fst m ++ [key].
Proof.
  induction m as [|[k v] m IH]; simpl; [reflexivity|].
  rewrite (String.eqb_sym key k).
  destruct (String.eqb_spec k key) as [->|Hne]; simpl; [reflexivity|].
  rewrite IH. now destruct (existsb (String.eqb key) (List.map fst m)).
Qed.

Lemma InsertionMap_get_none key m :
  InsertionMap.get key m = None <-> existsb (String.eqb key) (List.map fst m) = false.
Proof.
  induction m as [|[k v] m IH]; simpl; [tauto|].
  rewrite (String.eqb_sym key k).
  destruct (String.eqb k key); simpl; [split; discriminate | exact IH].
Qed.

(** A group filled by the loop: what it held, then the entries of its
    category, as long as it holds fewer than six. *)
Lemma summaryStep_get showNumber category grouped item :
  default [] (InsertionMap.get category (summaryStep showNumber grouped item))
  = let held := default [] (InsertionMap.get category grouped) in
    if andb (String.eqb (categoryOf item) category) (length held <? 6)%nat
    then held ++ [summaryEntry showNumber item] else held.
Proof.
  cbv zeta. unfold summaryStep.
  destruct (String.eqb_spec (categoryOf item) category) as [->|Hne]; cbn [andb].
  - destruct (length _ <? 6)%nat; [|reflexivity].
    now rewrite InsertionMap_get_set, String.eqb_refl.
  - destruct (length _ <? 6)%nat; [|reflexivity].
    rewrite InsertionMap_get_set.
    destruct (String.eqb_spec (categoryOf item) category); [contradiction|].
    reflexivity.
Qed.

Lemma summaryGroups_get showNumber category :
  forall menu grouped,
    default [] (InsertionMap.get category (fold_left (summaryStep showNumber) menu grouped))
    = default [] (InsertionMap.get category grouped)
      ++ firstn (6 - length (default [] (InsertionMap.get category grouped)))
                (entriesOf showNumber category menu).
Proof.
  unfold entriesOf.
  induction menu as [|item menu IH]; intros grouped; cbn [fold_left].
  - cbn. rewrite firstn_nil. now rewrite app_nil_r.
  - rewrite IH, summaryStep_get. cbv zeta. cbn [List.filter].
    set (held := default [] (InsertionMap.get category grouped)).
    destruct (String.eqb (categoryOf item) category); cbn [andb]; [|reflexivity].
    destruct (length held <? 6)%nat eqn:Hlt.
    + apply Nat.ltb_lt in Hlt. rewrite length_app. cbn [length List.map].
      replace (6 - length held)%nat with (S (6 - (length held + 1)))%nat by lia.
      cbn [firstn]. now rewrite <- app_assoc.
    + apply Nat.ltb_ge in Hlt.
      replace (6 - length held)%nat with 0%nat by lia. reflexivity.
Qed.

Lemma summaryStep_keys showNumber grouped item :
  List.map fst (summaryStep showNumber grouped item)
  = if existsb (String.eqb (categoryOf item)) (List.map fst grouped)
    then List.map fst grouped
    else List.map fst grouped ++ [categoryOf item].
Proof.
  unfold summaryStep.
  destruct (InsertionMap.get (categoryOf item) grouped) as [held|] eqn:Hget;
    cbn [default from_option id].
  - assert (Hin : existsb (String.eqb (categoryOf item)) (List.map fst grouped) = true).
    { destruct (existsb _ _) eqn:Hex; [reflexivity|].
      apply InsertionMap_get_none in Hex. congruence. }
    rewrite Hin. destruct (length held <? 6)%nat; [|reflexivity].
    now rewrite InsertionMap_keys_set, Hin.
  - apply InsertionMap_get_none in Hget as Hex. rewrite Hex.
    cbn [length Nat.ltb Nat.leb app]. now rewrite InsertionMap_keys_set, Hex.
Qed.

Lemma summaryGroups_keys showNumber :
  forall menu grouped,
    List.map fst (fold_left (summaryStep showNumber) menu grouped)
    = fold_left (fun seen x => if existsb (String.eqb x) seen then seen else seen ++ [x])
                (List.map categoryOf menu) (List.map fst grouped).
Proof.
  induction menu as [|item menu IH]; intros grouped; cbn [fold_left List.map];
    [reflexivity|].
  now rewrite IH, summaryStep_keys.
Qed.

(** X21.  The menu summary lists the categories in the order of their
    first appearance in the menu, each once, with the first six items of
    the category in menu order and no more; an item without category is
    listed under "Other"; and the summary of an empty menu is the empty
    string. *)
Theorem buildMenuSummary_groups showNumber menu :
  List.map fst (summaryGroups showNumber menu)
  = firstOccurrences (List.map categoryOf menu)
  /\ (forall category,
         default [] (InsertionMap.get category (summaryGroups showNumber menu))
         = firstn 6 (entriesOf showNumber category menu))
  /\ buildMenuSummary showNumber [] = "".
Proof.
  split; [|split].
  - unfold summaryGroups, firstOccurrences.
    now rewrite summaryGroups_keys.
  - intros category. unfold summaryGroups. now rewrite summaryGroups_get.
  - reflexivity.
Qed.

(** Eight drinks and a flan without category: six drinks are listed, and
    the flan under "Other". *)
Example buildMenuSummary_eight_drinks :
  buildMenuSummary showWhole menu_eight_drinks
  = "Drinks: Cola ($2.50), Soda ($2.50), Tea ($2.50), Mate ($2.50), Milk ($2.50), Juice ($2.50)"
      +:+ newline +:+ "Other: Flan ($3.00)".
Proof. vm_compute. reflexivity. Qed.

(** * The form posted with an order *)

Lemma formDataFrom_fields showNumber :
  forall items1 items2 index,
    List.map postedFields items1 = List.map postedFields items2 ->
    formDataFrom showNumber index items1 = formDataFrom showNumber index items2.
Proof.
  induction items1 as [|a items1 IH]; intros [|b items2] index H;
    try discriminate; [reflexivity|].
  cbn in H. injection H as Hid Hq Hrest. cbn [formDataFrom].
  now rewrite Hid, Hq, (IH items2 (S index) Hrest).
Qed.

Lemma formDataFrom_length showNumber :
  forall items index,
    length (formDataFrom showNumber index items) = (2 * length items)%nat.
Proof.
  induction items as [|a items IH]; intros index; cbn [formDataFrom length];
    [reflexivity|].
  rewrite IH. lia.
Qed.

(** X22.  The fulfillment endpoint is sent two fields per line, the menu
    item id and the quantity, and nothing else: two orders whose lines
    agree on menu item id and quantity, line by line, post the same form
    and get the same run from every service, whatever their modifiers,
    special instructions, prices and amounts. *)
Theorem submitOrderTo_posts_ids_and_quantities showNumber service url order1 order2 :
  List.map postedFields (Order.items order1) = List.map postedFields (Order.items order2) ->
  formData showNumber order1 = formData showNumber order2
  /\ length (formData showNumber order1) = (2 * length (Order.items order1))%nat
  /\ submitOrderTo showNumber service url order1
     = submitOrderTo showNumber service url order2.
Proof.
  intros H.
  assert (Hform : formData showNumber order1 = formData showNumber order2)
    by (now apply formDataFrom_fields).
  split; [exact Hform|]. split; [apply formDataFrom_length|].
  unfold submitOrderTo. rewrite Hform. reflexivity.
Qed.

Lemma submitOrderTo_posts_ids_and_quantities_witness :
  formData showWhole (orderOf [latteLine [pick "milk" "oat"]])
  = formData showWhole (orderOf [latteLine []])
  /\ formData showWhole (orderOf [latteLine []])
     = [("items[0][id]", "latte"); ("items[0][quantity]", "1")].
Proof.
  split; [|reflexivity].
  exact (proj1 (submitOrderTo_posts_ids_and_quantities showWhole
                  (fun _ _ => Responded responseAccepted) posUrl
                  (orderOf [latteLine [pick "milk" "oat"]]) (orderOf [latteLine []])
                  eq_refl)).
Defined.

(** * The order route *)

Lemma settle_code_not_payment outcome error :
  settle outcome = Failure error ->
  String.eqb (ApiError.code error) "PAYMENT_DECLINED" = false.
Proof.
  unfold settle, networkFailure, httpFailure.
  destruct outcome as [r|e].
  - destruct (Response.ok r).
    + destruct (Response.json r) as [[|data]|e].
      * intros [= <-]. reflexivity.
      * destruct (truthyString (Json.confirmationId data)); intros [= <-]; reflexivity.
      * intros [= <-]. reflexivity.
    + destruct (errorBodyOf r); intros [= <-]; reflexivity.
  - intros [= <-]. reflexivity.
Qed.

Lemma submitOrder_code_not_payment url endpoint order run error :
  submitOrder url endpoint order = Some run ->
  Run.result run = Failure error ->
  String.eqb (ApiError.code error) "PAYMENT_DECLINED" = false.
Proof.
  intros Hrun Hres. destruct (nonEmpty url) eqn:Hurl.
  - destruct (submitOrder_stops url endpoint order Hurl) as (k & _ & _ & _ & Hk).
    rewrite Hk in Hrun. injection Hrun as <-. cbn [Run.result] in Hres.
    exact (settle_code_not_payment _ _ Hres).
  - unfold submitOrder, submitOrderFuel in Hrun. rewrite Hurl in Hrun.
    injection Hrun as <-. cbn [Run.result] in Hres. injection Hres as <-. reflexivity.
Qed.

(** X23.  The order route answers 200, 400 or 502 and nothing else: 400,
    without calling the fulfillment service, when the body is unreadable,
    has no lines or fails validation against the route's menu; 200 when the
    body is acceptable and the submission succeeds; 502 when the body is
    acceptable and the submission fails.  The branch that answers 402 is
    never taken, since [submitOrder] never fails with the code
    [PAYMENT_DECLINED]. *)
Theorem postOrder_statuses showNumber now url service request :
  let response := postOrder showNumber now url service request in
  (acceptableBody now request = false ->
   OrderResponse.status response = 400 /\ OrderResponse.submission response = None)
  /\ (acceptableBody now request = true ->
      exists run,
        OrderResponse.submission response = Some run
        /\ OrderResponse.status response
           = (if succeeded (Some run) then 200 else 502)).
Proof.
  cbv zeta. unfold postOrder, acceptableBody.
  destruct request as [| |order]; try (split; [now split | discriminate]).
  destruct (Order.items order) as [|line rest] eqn:Hitems;
    [split; [now split | discriminate]|].
  cbn [length Nat.eqb negb andb].
  destruct (ValidationResult.isValid (validateOrder now order CURRENT_MENU));
    cbn [negb]; [|split; [now split | discriminate]].
  split; [discriminate|]. intros _.
  unfold submitOrderTo.
  destruct (submitOrder_total url
              (service (formData showNumber
                 (ValidationResult.validatedOrder (validateOrder now order CURRENT_MENU))))
              (ValidationResult.validatedOrder (validateOrder now order CURRENT_MENU)))
    as [run Hrun].
  rewrite Hrun. exists run.
  destruct run as [result sleeps fetches]. cbn [Run.result succeeded].
  destruct result as [data|error]; cbn [OrderResponse.submission OrderResponse.status];
    [split; reflexivity|].
  split; [reflexivity|].
  now rewrite (submitOrder_code_not_payment _ _ _ _ error Hrun eq_refl).
Qed.

Lemma postOrder_statuses_witness :
  OrderResponse.status
    (postOrder showWhole "2024-01-01T00:00:01.000Z" posUrl service_accepts
               (BodyOrder body_burger)) = 200
  /\ OrderResponse.status
       (postOrder showWhole "2024-01-01T00:00:01.000Z" posUrl service_accepts
                  (BodyOrder order_ghost)) = 400.
Proof.
  split.
  - destruct (postOrder_statuses showWhole "2024-01-01T00:00:01.000Z" posUrl
                service_accepts (BodyOrder body_burger)) as [_ Hok].
    destruct (Hok eq_refl) as (run & Hrun & Hstatus).
    rewrite Hstatus. injection Hrun as <-. reflexivity.
  - destruct (postOrder_statuses showWhole "2024-01-01T00:00:01.000Z" posUrl
                service_accepts (BodyOrder order_ghost)) as [Hbad _].
    exact (proj1 (Hbad eq_refl)).
Defined.

Lemma validated_postedFields menu :
  forall items,
    flat_map (itemErrors menu) items = [] ->
    List.map postedFields (flat_map (itemValidated menu) items)
    = List.map postedFields items.
Proof.
  induction items as [|item items IH]; intros Hnil; [reflexivity|].
  cbn [flat_map] in *. apply app_eq_nil in Hnil as [Hitem Hrest].
  rewrite map_app, (IH Hrest).
  destruct (findMenuItem menu (OrderItem.menuItemId item)) as [menuDef|] eqn:Hfind.
  - destruct (itemStep_found menu item menuDef Hfind) as [_ ->]. reflexivity.
  - destruct (itemStep_not_found menu item Hfind) as [HE _].
    rewrite HE in Hitem. discriminate.
Qed.

(** X24.  For a body that the route lets through, the run of the
    submission is the run for the lines as they were posted: the route
    passes the validated, repriced order to [submitOrder], but the form
    carries menu item ids and quantities only, and validation leaves these
    as they are; the prices the validator computed never reach the
    service. *)
Theorem postOrder_submits_posted_lines showNumber now url service order :
  acceptableBody now (BodyOrder order) = true ->
  OrderResponse.submission (postOrder showNumber now url service (BodyOrder order))
  = submitOrder url (service (formData showNumber order)) order
  /\ formData showNumber (ValidationResult.validatedOrder
                            (validateOrder now order CURRENT_MENU))
     = formData showNumber order.
Proof.
  intros Hacc. unfold acceptableBody in Hacc. apply andb_prop in Hacc as [Hlines Hvalid].
  assert (Hform : formData showNumber (ValidationResult.validatedOrder
                                         (validateOrder now order CURRENT_MENU))
                  = formData showNumber order).
  { apply formDataFrom_fields.
    rewrite validateOrder_closed_form in *.
    cbn [ValidationResult.validatedOrder ValidationResult.isValid Order.items] in *.
    apply validated_postedFields. apply Nat.eqb_eq in Hvalid.
    now apply length_zero_iff_nil. }
  split; [|exact Hform].
  unfold postOrder. destruct (Order.items order) as [|line rest] eqn:Hitems;
    [discriminate Hlines|].
  rewrite Hvalid. cbn [negb]. unfold submitOrderTo. rewrite Hform.
  change (submitOrder url (service (formData showNumber order))
            (ValidationResult.validatedOrder (validateOrder now order CURRENT_MENU)))
    with (submitOrder url (service (formData showNumber order)) order).
  destruct (submitOrder_total url (service (formData showNumber order)) order)
    as [run Hrun].
  rewrite Hrun. destruct (Run.result run); reflexivity.
Qed.

Lemma postOrder_submits_posted_lines_witness :
  OrderResponse.submission
    (postOrder showWhole "2024-01-01T00:00:01.000Z" posUrl service_accepts
               (BodyOrder body_burger))
  = submitOrder posUrl (service_accepts (formData showWhole body_burger)) body_burger.
Proof.
  exact (proj1 (postOrder_submits_posted_lines showWhole "2024-01-01T00:00:01.000Z"
                  posUrl service_accepts body_burger eq_refl)).
Defined.

(** * The conversation route *)

Lemma last_pair {A : Type} (l : list A) (u a : A) :
  last (l ++ [u; a]) = Some a.
Proof.
  change (l ++ [u; a]) with (l ++ [u] ++ [a]). rewrite app_assoc. apply last_snoc.
Qed.

(** X25.  For a request with a non-empty message and a conversation
    state: when the generator replies, the route answers 200 with the state
    the engine resolved with and, as the reply, the content of the
    assistant turn the engine appended, never null; when the generator
    fails, it answers 400 with the engine's error message and the empty
    object as state, so the client does not get its conversation state
    back. *)
Theorem postConversation_outcomes clock services message state :
  truthyString (Some message) = Some message ->
  let response :=
    postConversation clock services (RequestFields (Some message) (StateGiven state)) in
  match advanceConversation clock services state (trim message) with
  | Resolved updatedState =>
      ConversationResponse.status response = 200
      /\ ConversationResponse.state response = UpdatedState updatedState
      /\ ConversationResponse.error response = None
      /\ exists userTurn assistantTurn,
          ConversationState.history updatedState
          = ConversationState.history state ++ [userTurn; assistantTurn]
          /\ ConversationTurn.content userTurn = trim message
          /\ ConversationResponse.reply response
             = Some (ConversationTurn.content assistantTurn)
  | ConversationError errorMessage _ =>
      response = ConversationResponse.mk 400 EmptyState None (Some errorMessage)
      /\ errorMessage = "Failed to generate response."
  end.
Proof.
  intros Hmsg. cbv zeta. unfold postConversation. rewrite Hmsg.
  rewrite advanceConversation_cases.
  destruct (TurnServices.generateAssistantReply services) as [reply|];
    [|split; reflexivity].
  cbv zeta. cbn [ConversationResponse.status ConversationResponse.state
                 ConversationResponse.error ConversationResponse.reply
                 ConversationState.history].
  split; [reflexivity|]. split; [reflexivity|]. split; [reflexivity|].
  eexists _, _. split; [reflexivity|]. split; [reflexivity|].
  rewrite last_pair. reflexivity.
Qed.

Lemma postConversation_outcomes_witness :
  postConversation clock_sample services_cheerful
    (RequestFields (Some "  please confirm ") (StateGiven state_with_fries))
  = ConversationResponse.mk 200
      (UpdatedState
         (match advanceConversation clock_sample services_cheerful state_with_fries
                                    "please confirm" with
          | Resolved st => st
          | ConversationError _ _ => state_with_fries
          end))
      (Some "I can't place the order yet. Item 'French Fries' is currently unavailable.")
      None
  /\ postConversation clock_sample services_silent
       (RequestFields (Some "a burger") (StateGiven state_with_fries))
     = ConversationResponse.mk 400 EmptyState None (Some "Failed to generate response.").
Proof.
  split; [reflexivity|].
  exact (proj1 (postConversation_outcomes clock_sample services_silent "a burger"
                  state_with_fries eq_refl)).
Defined.

Lemma dropSpaces_blank (s : list ascii) :
  forallb Str.isSpace s = true -> dropSpaces s = [].
Proof.
  induction s as [|c s IH]; cbn; [reflexivity|].
  intros H. apply andb_prop in H as [Hc Hs]. rewrite Hc. now apply IH.
Qed.

(** X26.  A message made of whitespace only is not rejected: it is
    non-empty, so it passes the route's check, and the engine runs on the
    empty text.  When the generator replies the route answers 200 and the
    history gains a user turn whose content is empty. *)
Theorem postConversation_blank_message clock services message state reply :
  message <> "" ->
  forallb Str.isSpace (Str.chars message) = true ->
  TurnServices.generateAssistantReply services = Some reply ->
  trim message = ""
  /\ exists updatedState assistantTurn,
      postConversation clock services (RequestFields (Some message) (StateGiven state))
      = ConversationResponse.mk 200 (UpdatedState updatedState)
                                (Some (ConversationTurn.content assistantTurn)) None
      /\ advanceConversation clock services state "" = Resolved updatedState
      /\ ConversationState.history updatedState
         = ConversationState.history state ++ [userTurnOf clock ""; assistantTurn].
Proof.
  intros Hne Hblank Hreply.
  assert (Htrim : trim message = "").
  { unfold trim. now rewrite (dropSpaces_blank _ Hblank). }
  split; [exact Htrim|].
  assert (Htruthy : truthyString (Some message) = Some message).
  { unfold truthyString, nonEmpty.
    destruct (String.eqb_spec message ""); [contradiction | reflexivity]. }
  unfold postConversation. rewrite Htruthy, Htrim.
  rewrite advanceConversation_cases, Hreply. cbv zeta.
  eexists _, _. split; [|split; reflexivity].
  cbn [ConversationState.history].
  rewrite last_pair. reflexivity.
Qed.

Lemma postConversation_blank_message_witness :
  trim blankMessage = ""
  /\ ConversationResponse.status
       (postConversation clock_sample services_cheerful
          (RequestFields (Some blankMessage) (StateGiven state_with_fries)))
     = 200.
Proof.
  destruct (postConversation_blank_message clock_sample services_cheerful blankMessage
              state_with_fries "Your order is confirmed!"
              ltac:(discriminate) eq_refl eq_refl)
    as (Htrim & updatedState & assistantTurn & Hresp & _).
  split; [exact Htrim|]. rewrite Hresp. reflexivity.
Defined.

(** * The menu client *)

Lemma normalizeArray_threw showNumber parseNumber array error :
  normalizeArray showNumber parseNumber array = Threw (RaisedMenuFetchError error) ->
  MenuFetchError.code error = "INVALID_FORMAT".
Proof.
  destruct array; cbn; try discriminate. intros [= <-]. reflexivity.
Qed.

Lemma normalizeMenuPayload_threw showNumber parseNumber payload error :
  normalizeMenuPayload showNumber parseNumber payload
  = Threw (RaisedMenuFetchError error) ->
  MenuFetchError.code error = "INVALID_FORMAT".
Proof.
  destruct payload as [array|data categories menu|]; cbn.
  - apply normalizeArray_threw.
  - destruct data as [array|]; [apply normalizeArray_threw|].
    destruct categories; [discriminate|].
    destruct menu as [array|]; [apply normalizeArray_threw|].
    intros [= <-]. reflexivity.
  - intros [= <-]. reflexivity.
Qed.

(** What a refresh yields, by cause. *)
Lemma refreshMenu_cause showNumber parseNumber menuCache nowStore network :
  match causeOf showNumber parseNumber network with
  | None =>
      exists items,
        refreshMenu showNumber parseNumber menuCache nowStore network
        = MenuRun.mk (Returned items) (Some (CacheEntry.mk items nowStore)) true
  | Some cause =>
      exists message,
        refreshMenu showNumber parseNumber menuCache nowStore network
        = MenuRun.mk (Threw (RaisedMenuFetchError
                               (MenuFetchError.mk message (codeOfCause cause))))
                     menuCache true
  end.
Proof.
  unfold causeOf, refreshMenu, requestMenu.
  destruct network as [|response]; [eexists; reflexivity|].
  destruct (MenuResponse.ok response); cbn [negb]; [|eexists; reflexivity].
  destruct (MenuResponse.json response) as [json|]; [|eexists; reflexivity].
  destruct (normalizeMenuPayload showNumber parseNumber json) as [items|[error|]] eqn:H.
  - now exists items.
  - exists (MenuFetchError.message error).
    pose proof (normalizeMenuPayload_threw _ _ _ _ H) as Hcode.
    destruct error as [message code]. cbn in Hcode |- *. now subst code.
  - eexists; reflexivity.
Qed.

(** X27.  After a call of [fetchMenu] that went to the network and
    returned a menu, the cache holds that menu with the reading of the
    clock at the update, and any later call whose reading is at most
    300000 ms past it returns the same menu without calling the network,
    whatever the network would answer, and leaves the cache as it is; at
    exactly 300000 ms the entry is still served.  A call later than that
    goes to the network again. *)
Theorem fetchMenu_cache_round_trip showNumber parseNumber menuCache nowCheck nowStore
        network items :
  let run := fetchMenu showNumber parseNumber menuCache nowCheck nowStore network in
  MenuRun.outcome run = Returned items ->
  MenuRun.fetched run = true ->
  MenuRun.cache run = Some (CacheEntry.mk items nowStore)
  /\ forall later laterStore network',
      let again :=
        fetchMenu showNumber parseNumber (MenuRun.cache run) later laterStore network' in
      (later - nowStore <= 300000 ->
       again = MenuRun.mk (Returned items) (MenuRun.cache run) false)
      /\ (300000 < later - nowStore -> MenuRun.fetched again = true).
Proof.
  cbv zeta. intros Hout Hfetched.
  assert (Hcache : MenuRun.cache
                     (fetchMenu showNumber parseNumber menuCache nowCheck nowStore network)
                   = Some (CacheEntry.mk items nowStore)).
  { unfold fetchMenu, refreshMenu in *.
    destruct menuCache as [entry|];
      [destruct (negb (isExpired nowCheck entry)); [discriminate Hfetched|]|];
      destruct (requestMenu showNumber parseNumber network) as [items'|[error|]];
      cbn in Hout |- *; try discriminate; now injection Hout as ->. }
  split; [exact Hcache|]. rewrite Hcache. intros later laterStore network'.
  unfold fetchMenu, isExpired. cbn [CacheEntry.timestamp CacheEntry.data].
  change CACHE_TTL_MS with 300000.
  split; intros Hlater.
  - destruct (Z.ltb_spec 300000 (later - nowStore)); [lia|]. reflexivity.
  - destruct (Z.ltb_spec 300000 (later - nowStore)); [|lia]. cbn [negb].
    unfold refreshMenu.
    now destruct (requestMenu showNumber parseNumber network') as [items'|[error|]].
Qed.

Lemma fetchMenu_cache_round_trip_witness :
  fetchMenu showWhole parseSample
            (Some (CacheEntry.mk (flattenCategories showWhole parseSample [drinks]) 5000))
            305000 305001 NetworkRejected
  = MenuRun.mk (Returned (flattenCategories showWhole parseSample [drinks]))
               (Some (CacheEntry.mk (flattenCategories showWhole parseSample [drinks])
                                    5000))
               false.
Proof.
  exact (proj1 (proj2 (fetchMenu_cache_round_trip showWhole parseSample
                         (Some staleEntry) 400000 5000 answerDrinks
                         (flattenCategories showWhole parseSample [drinks])
                         eq_refl eq_refl)
                      305000 305001 NetworkRejected)
               ltac:(lia)).
Defined.

(** X28.  A call of [fetchMenu] that throws has called the network, throws
    a [MenuFetchError] and nothing else, and leaves the cache as it was: an
    expired entry is kept but is not served in place of the failure.  The
    code is [HTTP_ERROR] when the API answered with a status that is not
    ok, [INVALID_FORMAT] when the payload has none of the known shapes, and
    [NETWORK_ERROR] in every other case: a rejected [fetch], but also an ok
    answer whose body is not readable as JSON or whose reading throws. *)
Theorem fetchMenu_failure showNumber parseNumber menuCache nowCheck nowStore network
        raised :
  let run := fetchMenu showNumber parseNumber menuCache nowCheck nowStore network in
  MenuRun.outcome run = Threw raised ->
  MenuRun.cache run = menuCache
  /\ MenuRun.fetched run = true
  /\ exists error cause,
      raised = RaisedMenuFetchError error
      /\ causeOf showNumber parseNumber network = Some cause
      /\ MenuFetchError.code error = codeOfCause cause.
Proof.
  cbv zeta. unfold fetchMenu. intros Hout.
  pose proof (refreshMenu_cause showNumber parseNumber menuCache nowStore network)
    as Hcause.
  assert (Hrefresh :
            MenuRun.outcome (refreshMenu showNumber parseNumber menuCache nowStore network)
            = Threw raised ->
            MenuRun.cache (refreshMenu showNumber parseNumber menuCache nowStore network)
            = menuCache
            /\ MenuRun.fetched
                 (refreshMenu showNumber parseNumber menuCache nowStore network) = true
            /\ exists error cause,
                raised = RaisedMenuFetchError error
                /\ causeOf showNumber parseNumber network = Some cause
                /\ MenuFetchError.code error = codeOfCause cause).
  { destruct (causeOf showNumber parseNumber network) as [cause|].
    - destruct Hcause as [message ->]. cbn. intros [= <-].
      split; [reflexivity|]. split; [reflexivity|].
      eexists _, cause. now repeat split.
    - destruct Hcause as [items ->]. discriminate. }
  destruct menuCache as [entry|]; [|now apply Hrefresh].
  destruct (negb (isExpired nowCheck entry)); [discriminate Hout|].
  now apply Hrefresh.
Qed.

Lemma fetchMenu_failure_witness :
  MenuRun.cache (fetchMenu showWhole parseSample (Some staleEntry) 400000 400001
                           answerGarbled)
  = Some staleEntry
  /\ MenuRun.outcome (fetchMenu showWhole parseSample (Some staleEntry) 400000 400001
                                answerGarbled)
     = Threw (RaisedMenuFetchError
                (MenuFetchError.mk "Network error occurred while retrieving the menu."
                                   "NETWORK_ERROR")).
Proof.
  split; [|reflexivity].
  exact (proj1 (fetchMenu_failure showWhole parseSample (Some staleEntry) 400000 400001
                  answerGarbled _ eq_refl)).
Defined.

(** * The menu route *)

(** X29.  [GET /api/menu] answers 200, 500, 502 or 503: 200 with the menu
    when [fetchMenu] returns, from the cache or from the network; 503 when
    the API cannot be reached or its ok answer cannot be read; 502 when the
    API answers with a status that is not ok; 500 when the payload has none
    of the known shapes.  The body of a failure carries the code of the
    [MenuFetchError]; the branch for unexpected errors, with the code
    [INTERNAL_SERVER_ERROR], is never taken, and the codes [PARSE_ERROR] and
    [VALIDATION_ERROR] that the route maps never reach it. *)
Theorem getMenu_statuses showNumber parseNumber menuCache nowCheck nowStore network :
  let run := fetchMenu showNumber parseNumber menuCache nowCheck nowStore network in
  let response :=
    fst (getMenu showNumber parseNumber menuCache nowCheck nowStore network) in
  match MenuRun.outcome run with
  | Returned items => response = MenuRouteResponse.mk 200 (MenuItems items)
  | Threw _ =>
      exists cause message,
        MenuRun.fetched run = true
        /\ causeOf showNumber parseNumber network = Some cause
        /\ response = MenuRouteResponse.mk (statusOfCause cause)
                                           (MenuFailure message (codeOfCause cause))
  end.
Proof.
  cbv zeta. unfold getMenu. cbn [fst].
  pose proof (refreshMenu_cause showNumber parseNumber menuCache nowStore network)
    as Hcause.
  unfold fetchMenu.
  assert (Hrefresh :
            match MenuRun.outcome
                    (refreshMenu showNumber parseNumber menuCache nowStore network) with
            | Returned items =>
                menuResponseOf
                  (MenuRun.outcome
                     (refreshMenu showNumber parseNumber menuCache nowStore network))
                = MenuRouteResponse.mk 200 (MenuItems items)
            | Threw _ =>
                exists cause message,
                  MenuRun.fetched
                    (refreshMenu showNumber parseNumber menuCache nowStore network) = true
                  /\ causeOf showNumber parseNumber network = Some cause
                  /\ menuResponseOf
                       (MenuRun.outcome
                          (refreshMenu showNumber parseNumber menuCache nowStore network))
                     = MenuRouteResponse.mk (statusOfCause cause)
                         (MenuFailure message (codeOfCause cause))
            end).
  { destruct (causeOf showNumber parseNumber network) as [cause|].
    - destruct Hcause as [message ->].
      cbn [MenuRun.outcome MenuRun.fetched menuResponseOf
           MenuFetchError.code MenuFetchError.message].
      exists cause, message. split; [reflexivity|]. split; [reflexivity|].
      now destruct cause.
    - destruct Hcause as [items ->]. reflexivity. }
  destruct menuCache as [entry|]; [|exact Hrefresh].
  destruct (negb (isExpired nowCheck entry)); [reflexivity | exact Hrefresh].
Qed.

(** * A menu built from categories *)

Lemma flattenCategories_plain showNumber parseNumber categories menuDef :
  In menuDef (flattenCategories showNumber parseNumber categories) ->
  MenuItem.isAvailable menuDef = true /\ MenuItem.modifierGroups menuDef = [].
Proof.
  unfold flattenCategories. intros H.
  apply in_flat_map in H as (category & _ & H).
  apply in_map_iff in H as (plate & <- & _). now split.
Qed.

(** X30.  On a menu that [flattenCategories] built, validation can fail
    for one reason only: every error is [ITEM_NOT_FOUND], and the order is
    valid exactly when each line names a plate of the menu.  Every line that
    is kept comes out with no modifiers, whatever the client selected, and
    with the name and the price of the first plate that has its id. *)
Theorem validateOrder_flattened_menu showNumber parseNumber now categories order :
  let menu := flattenCategories showNumber parseNumber categories in
  let result := validateOrder now order menu in
  Forall (fun error => ValidationError.code error = ITEM_NOT_FOUND)
         (ValidationResult.errors result)
  /\ ValidationResult.isValid result = forallb (lineFound menu) (Order.items order)
  /\ Forall (fun line =>
               OrderItem.selectedModifiers line = []
               /\ exists plate,
                   findMenuItem menu (OrderItem.menuItemId line) = Some plate
                   /\ OrderItem.name line = MenuItem.name plate
                   /\ OrderItem.unitPrice line = MenuItem.basePrice plate)
            (Order.items (ValidationResult.validatedOrder result)).
Proof.
  cbv zeta. rewrite validateOrder_closed_form. cbv zeta.
  cbn [ValidationResult.errors ValidationResult.isValid
       ValidationResult.validatedOrder Order.items].
  set (menu := flattenCategories showNumber parseNumber categories).
  assert (Hline : forall item,
             match findMenuItem menu (OrderItem.menuItemId item) with
             | Some plate =>
                 itemErrors menu item = []
                 /\ itemValidated menu item
                    = [OrderItem.mk (OrderItem.id item) (OrderItem.menuItemId item)
                                    (MenuItem.name plate) (OrderItem.quantity item)
                                    (MenuItem.basePrice plate) []
                                    (OrderItem.specialInstructions item)]
             | None =>
                 itemErrors menu item = [errItemNotFound item]
                 /\ itemValidated menu item = []
             end).
  { intros item.
    destruct (findMenuItem menu (OrderItem.menuItemId item)) as [plate|] eqn:Hfind;
      [|now apply itemStep_not_found].
    destruct (itemStep_found menu item plate Hfind) as [-> ->].
    apply find_some in Hfind as [Hin _].
    destruct (flattenCategories_plain _ _ _ _ Hin) as [Havailable Hgroups].
    unfold availabilityErrors, validateModifiers, validatedItemOf.
    rewrite Havailable, Hgroups. now split. }
  induction (Order.items order) as [|item items (IHE & IHV & IHL)];
    [now repeat split|].
  cbn [flat_map forallb]. specialize (Hline item). unfold lineFound at 1.
  destruct (findMenuItem menu (OrderItem.menuItemId item)) as [plate|] eqn:Hfind;
    destruct Hline as [-> ->]; cbn [app andb].
  - repeat split; [exact IHE | exact IHV |].
    constructor; [|exact IHL]. cbn. split; [reflexivity|].
    exists plate. now rewrite Hfind.
  - repeat split; [|exact IHL]. constructor; [reflexivity | exact IHE].
Qed.
